(** * The JSON-file-backed record store of the photo-sharing server

    A shallow embedding of [servidor/server/server.js]: the three in-memory
    arrays [usuarios], [publicaciones] and [likes], the two helpers
    [readJsonFile] and [writeJsonFile] that mirror them to disk, and the
    Express route handlers that read and mutate them.

    The development has two layers.  In the first every handler is a
    function from the state of the process (the three arrays, the disk and
    the console) to a response and a new state, over requests typed as the
    data model has them: strings, and a publication with its five fields; a
    field that the handler tests for presence is an [option].  A request is
    served there with nothing else served meanwhile.

    The second layer, [Raw], is the process as it runs.  The body of a
    request may lack its [publication], a handler may throw, a registration
    is two events with its [await] on bcrypt between them, so that other
    requests are served while it waits, and multer stores the image of an
    upload before the handler of the upload runs.  On typed requests served
    one at a time the two layers agree.

    Whatever the JavaScript runtime or a library decides (the clock, bcrypt,
    the random number of multer) enters through the request, the event or
    the [Runtime] record. *)

From Stdlib Require Import ZArith Ascii String List Lia.
From Stdlib Require Import Decimal DecimalFacts DecimalPos DecimalN DecimalZ.
From stdpp Require Import base option list strings gmap.

Local Open Scope string_scope.

(** ** JSON values, [JSON.stringify(_, null, 2)] and [JSON.parse]

    A number is kept by its decimal value: [JNum] carries the integers (the
    only numbers the server produces are [Date.now()] timestamps), [JDec m e]
    the number [m / 10^e] that is not one.  The rounding of a number to
    binary64 is not modelled.  [JObj] lists the own properties of an object
    in property order: the keys that are array indices first, by value, then
    the others as they were created.  Strings are byte strings: the UTF-8
    bytes of the text, which is what reaches the file. *)

Module JSON.

#[warnings="-register-all"]
Inductive json : Type :=
| JNull
| JBool (b : bool)
| JNum (n : Z)
| JDec (m : Z) (e : positive)
| JStr (s : string)
| JArr (items : list json)
| JObj (members : list (string * json)).

(** The character constants of the format. *)
Definition quote_char : ascii := ascii_of_nat 34.
Definition backslash : ascii := ascii_of_nat 92.
Definition nl : string := String (ascii_of_nat 10) "".
Definition gap : string := "  ".

(** Hexadecimal digits, lower case, as [JSON.stringify] prints them. *)
Definition hex_digit (n : N) : ascii :=
  if (n <? 10)%N then ascii_of_N (48 + n) else ascii_of_N (87 + n).

(** QuoteJSONString on one character. *)
Definition escape_char (c : ascii) : string :=
  let n := N_of_ascii c in
  if (n =? 34)%N then String backslash (String quote_char "")
  else if (n =? 92)%N then String backslash (String backslash "")
  else if (n =? 8)%N then String backslash "b"
  else if (n =? 9)%N then String backslash "t"
  else if (n =? 10)%N then String backslash "n"
  else if (n =? 12)%N then String backslash "f"
  else if (n =? 13)%N then String backslash "r"
  else if (n <? 32)%N then
    String backslash
      (String "u" (String "0" (String "0"
         (String (hex_digit (n / 16)) (String (hex_digit (n mod 16)) "")))))
  else String c "".

Fixpoint escape (s : string) : string :=
  match s with
  | EmptyString => ""
  | String c r => escape_char c +:+ escape r
  end.

Definition quote (s : string) : string :=
  String quote_char (escape s +:+ String quote_char "").

Fixpoint string_of_uint (d : uint) : string :=
  match d with
  | Nil => ""
  | D0 d => String "0" (string_of_uint d)
  | D1 d => String "1" (string_of_uint d)
  | D2 d => String "2" (string_of_uint d)
  | D3 d => String "3" (string_of_uint d)
  | D4 d => String "4" (string_of_uint d)
  | D5 d => String "5" (string_of_uint d)
  | D6 d => String "6" (string_of_uint d)
  | D7 d => String "7" (string_of_uint d)
  | D8 d => String "8" (string_of_uint d)
  | D9 d => String "9" (string_of_uint d)
  end.

Definition number_to_string (n : Z) : string :=
  match Z.to_int n with
  | Pos d => string_of_uint d
  | Neg d => String "-" (string_of_uint d)
  end.

(** [count] zeros. *)
Fixpoint zeros (count : nat) : string :=
  match count with
  | O => ""
  | S count' => String "0" (zeros count')
  end.

(** Number::toString on [m / 10^e]: with [k] digits of which [n] stand before
    the point, the digits with the point among them when [0 < n], after
    [0.] and zeros when [-6 < n <= 0], and with an exponent below that. *)
Definition decimal_to_string (m : Z) (e : positive) : string :=
  let sign := if (m <? 0)%Z then "-" else "" in
  let digits := number_to_string (Z.abs m) in
  let k := String.length digits in
  let n := (Z.of_nat k - Z.pos e)%Z in
  sign +:+
  (if (0 <? n)%Z then
     String.substring 0 (Z.to_nat n) digits +:+ "."
       +:+ String.substring (Z.to_nat n) (k - Z.to_nat n) digits
   else if (-6 <? n)%Z then "0." +:+ zeros (Z.to_nat (- n)) +:+ digits
   else
     String.substring 0 1 digits
       +:+ (if Nat.eqb k 1 then "" else "." +:+ String.substring 1 (k - 1) digits)
       +:+ "e-" +:+ number_to_string (1 - n)).

(** [Array.prototype.join] on strings. *)
Fixpoint join (sep : string) (parts : list string) : string :=
  match parts with
  | [] => ""
  | [p] => p
  | p :: rest => p +:+ sep +:+ join sep rest
  end.

(** SerializeJSONProperty at the indentation [ind], with the gap of two
    spaces that the server passes. *)
Fixpoint stringify_at (ind : string) (v : json) : string :=
  match v with
  | JNull => "null"
  | JBool true => "true"
  | JBool false => "false"
  | JNum n => number_to_string n
  | JDec m e => decimal_to_string m e
  | JStr s => quote s
  | JArr [] => "[]"
  | JArr items =>
      let ind' := ind +:+ gap in
      "[" +:+ nl +:+ ind'
        +:+ join ("," +:+ nl +:+ ind') (map (stringify_at ind') items)
        +:+ nl +:+ ind +:+ "]"
  | JObj [] => "{}"
  | JObj members =>
      let ind' := ind +:+ gap in
      "{" +:+ nl +:+ ind'
        +:+ join ("," +:+ nl +:+ ind')
              (map (fun m => quote (fst m) +:+ ": " +:+ stringify_at ind' (snd m)) members)
        +:+ nl +:+ ind +:+ "}"
  end.

(** [JSON.stringify(data, null, 2)]. *)
Definition stringify (v : json) : string := stringify_at "" v.

(** *** Parsing *)

Definition is_ws (c : ascii) : bool :=
  let n := N_of_ascii c in
  (n =? 32)%N || (n =? 9)%N || (n =? 10)%N || (n =? 13)%N.

Fixpoint skip_ws (s : string) : string :=
  match s with
  | String c r => if is_ws c then skip_ws r else s
  | EmptyString => s
  end.

Definition digit_of_ascii (c : ascii) : option (uint -> uint) :=
  match N_of_ascii c with
  | 48%N => Some D0 | 49%N => Some D1 | 50%N => Some D2 | 51%N => Some D3
  | 52%N => Some D4 | 53%N => Some D5 | 54%N => Some D6 | 55%N => Some D7
  | 56%N => Some D8 | 57%N => Some D9
  | _ => None
  end.

(** The longest run of decimal digits at the head of [s]. *)
Fixpoint parse_digits (s : string) : uint * string :=
  match s with
  | String c r =>
      match digit_of_ascii c with
      | Some D => let '(d, r') := parse_digits r in (D d, r')
      | None => (Nil, s)
      end
  | EmptyString => (Nil, s)
  end.

Definition starts_fraction (s : string) : bool :=
  match s with
  | String c _ =>
      let n := N_of_ascii c in (n =? 46)%N || (n =? 101)%N || (n =? 69)%N
  | EmptyString => false
  end.

Definition leading_zero (d : uint) : bool :=
  match d with
  | D0 Nil => false
  | D0 _ => true
  | _ => false
  end.

(** The integer part of a number: at least one digit, and no zero in front
    of other digits. *)
Definition parse_unsigned (s : string) : option (uint * string) :=
  let '(d, r) := parse_digits s in
  match d with
  | Nil => None
  | _ => if leading_zero d then None else Some (d, r)
  end.

(** The fraction: a point and at least one digit, or nothing. *)
Definition parse_fraction (s : string) : option (uint * string) :=
  match s with
  | String c r =>
      if (N_of_ascii c =? 46)%N then
        let '(f, r') := parse_digits r in
        match f with
        | Nil => None
        | _ => Some (f, r')
        end
      else Some (Nil, s)
  | EmptyString => Some (Nil, s)
  end.

(** The exponent: [e] or [E], a sign or none, and at least one digit; or
    nothing. *)
Definition parse_exponent (s : string) : option (Z * string) :=
  match s with
  | String c r =>
      if (N_of_ascii c =? 101)%N || (N_of_ascii c =? 69)%N then
        let '(negative, r1) :=
          match r with
          | String c' r' =>
              if (N_of_ascii c' =? 45)%N then (true, r')
              else if (N_of_ascii c' =? 43)%N then (false, r')
              else (false, r)
          | EmptyString => (false, r)
          end in
        let '(x, r2) := parse_digits r1 in
        match x with
        | Nil => None
        | _ => Some (if negative then (- Z.of_uint x)%Z else Z.of_uint x, r2)
        end
      else Some (0%Z, s)
  | EmptyString => Some (0%Z, s)
  end.

(** [m * 10^k] for [k < 0], without the zeros at the end of [m]. *)
Fixpoint strip_zeros (fuel : nat) (m k : Z) : Z * Z :=
  match fuel with
  | O => (m, k)
  | S fuel' =>
      if (k <? 0)%Z && (m mod 10 =? 0)%Z then strip_zeros fuel' (m / 10)%Z (k + 1)%Z
      else (m, k)
  end.

(** The value [m * 10^k] of a number. *)
Definition number_value (m k : Z) : json :=
  if (m =? 0)%Z then JNum 0
  else if (0 <=? k)%Z then JNum (m * 10 ^ k)
  else
    let '(m', k') := strip_zeros (Z.to_nat (- k)) m k in
    if (k' =? 0)%Z then JNum m' else JDec m' (Z.to_pos (- k')).

(** A number: a minus sign or none, the integer part, a fraction or none, an
    exponent or none. *)
Definition parse_number (s : string) : option (json * string) :=
  let '(negative, s1) :=
    match s with
    | String c r => if (N_of_ascii c =? 45)%N then (true, r) else (false, s)
    | EmptyString => (false, s)
    end in
  '(d, r) ← parse_unsigned s1;
  '(f, r1) ← parse_fraction r;
  '(x, r2) ← parse_exponent r1;
  let m := (Z.of_uint d * 10 ^ Z.of_nat (nb_digits f) + Z.of_uint f)%Z in
  Some (number_value (if negative then (- m)%Z else m) (x - Z.of_nat (nb_digits f)), r2).

Definition hex_value (c : ascii) : option N :=
  let n := N_of_ascii c in
  if ((48 <=? n) && (n <=? 57))%N then Some (n - 48)%N
  else if ((97 <=? n) && (n <=? 102))%N then Some (n - 87)%N
  else if ((65 <=? n) && (n <=? 70))%N then Some (n - 55)%N
  else None.

(** The UTF-8 bytes of a code point.  A surrogate half that stands alone is
    kept in the three bytes of its code. *)
Definition utf8_of_code (n : N) : string :=
  if (n <? 128)%N then String (ascii_of_N n) ""
  else if (n <? 2048)%N then
    String (ascii_of_N (192 + n / 64)) (String (ascii_of_N (128 + n mod 64)) "")
  else if (n <? 65536)%N then
    String (ascii_of_N (224 + n / 4096))
      (String (ascii_of_N (128 + (n / 64) mod 64))
         (String (ascii_of_N (128 + n mod 64)) ""))
  else
    String (ascii_of_N (240 + n / 262144))
      (String (ascii_of_N (128 + (n / 4096) mod 64))
         (String (ascii_of_N (128 + (n / 64) mod 64))
            (String (ascii_of_N (128 + n mod 64)) ""))).

Definition simple_escape (c : ascii) : option ascii :=
  match N_of_ascii c with
  | 34%N => Some quote_char
  | 92%N => Some backslash
  | 47%N => Some "/"%char
  | 98%N => Some (ascii_of_nat 8)
  | 102%N => Some (ascii_of_nat 12)
  | 110%N => Some (ascii_of_nat 10)
  | 114%N => Some (ascii_of_nat 13)
  | 116%N => Some (ascii_of_nat 9)
  | _ => None
  end.

(** The code unit of four hexadecimal digits. *)
Definition hex4 (h1 h2 h3 h4 : ascii) : option N :=
  a ← hex_value h1; b ← hex_value h2; c ← hex_value h3; d ← hex_value h4;
  Some (((a * 16 + b) * 16 + c) * 16 + d)%N.

Definition high_surrogate (n : N) : bool := ((55296 <=? n) && (n <=? 56319))%N.
Definition low_surrogate (n : N) : bool := ((56320 <=? n) && (n <=? 57343))%N.

(** The code point of the pair that the high half [n] makes with an escape
    [\uXXXX] of a low half. *)
Definition surrogate_pair (n : N) (b u k1 k2 k3 k4 : ascii) : option N :=
  if (N_of_ascii b =? 92)%N && (N_of_ascii u =? 117)%N then
    m ← hex4 k1 k2 k3 k4;
    if low_surrogate m then Some (65536 + (n - 55296) * 1024 + (m - 56320))%N else None
  else None.

(** The characters of a string literal after its opening quote, up to and
    including the closing quote. *)
Fixpoint parse_chars (s : string) : option (string * string) :=
  match s with
  | EmptyString => None
  | String c r =>
      if (N_of_ascii c =? 34)%N then Some ("", r)
      else if (N_of_ascii c =? 92)%N then
        match r with
        | String e r1 =>
            if (N_of_ascii e =? 117)%N then
              match r1 with
              | String h1 (String h2 (String h3 (String h4 r2))) =>
                  n ← hex4 h1 h2 h3 h4;
                  if high_surrogate n then
                    match r2 with
                    | String b (String u (String k1 (String k2 (String k3 (String k4 r3))))) =>
                        match surrogate_pair n b u k1 k2 k3 k4 with
                        | Some code =>
                            '(t, r4) ← parse_chars r3; Some (utf8_of_code code +:+ t, r4)
                        | None =>
                            '(t, r4) ← parse_chars r2; Some (utf8_of_code n +:+ t, r4)
                        end
                    | _ => '(t, r4) ← parse_chars r2; Some (utf8_of_code n +:+ t, r4)
                    end
                  else '(t, r4) ← parse_chars r2; Some (utf8_of_code n +:+ t, r4)
              | _ => None
              end
            else
              x ← simple_escape e;
              '(t, r2) ← parse_chars r1;
              Some (String x t, r2)
        | EmptyString => None
        end
      else if (N_of_ascii c <? 32)%N then None
      else '(t, r1) ← parse_chars r; Some (String c t, r1)
  end.

Definition parse_string (s : string) : option (string * string) :=
  match s with
  | String c r => if (N_of_ascii c =? 34)%N then parse_chars r else None
  | EmptyString => None
  end.

(** [s] without its prefix [p], when it starts with [p]. *)
Fixpoint strip_prefix (p s : string) : option string :=
  match p with
  | EmptyString => Some s
  | String a p' =>
      match s with
      | String b s' => if Ascii.eqb a b then strip_prefix p' s' else None
      | EmptyString => None
      end
  end.

(** The array index that a key is: the decimal text of an integer below
    [2^32 - 1], without a zero in front. *)
Definition array_index (k : string) : option N :=
  let '(d, r) := parse_digits k in
  match r, d with
  | EmptyString, Nil => None
  | EmptyString, _ =>
      if leading_zero d then None
      else if (N.of_uint d <? 4294967295)%N then Some (N.of_uint d) else None
  | String _ _, _ => None
  end.

(** Property order: the new key [k] goes before the key [k'] that is there
    when [k] is an array index and [k'] is a larger one or none. *)
Definition goes_before (k k' : string) : bool :=
  match array_index k, array_index k' with
  | Some i, Some j => (i <? j)%N
  | Some _, None => true
  | None, _ => false
  end.

(** Defining a property on an object: a key already present keeps its place
    and takes the new value, a new key goes to its place in property
    order. *)
Fixpoint obj_set (k : string) (v : json) (o : list (string * json)) : list (string * json) :=
  match o with
  | [] => [(k, v)]
  | (k', v') :: o' =>
      if decide (k' = k) then (k, v) :: o'
      else if goes_before k k' then (k, v) :: (k', v') :: o'
      else (k', v') :: obj_set k v o'
  end.

(** The same, on a member given as a pair. *)
Definition add_member (o : list (string * json)) (m : string * json) : list (string * json) :=
  obj_set (fst m) (snd m) o.

Definition parser (A : Type) : Type := string -> option (A * string).

(** The elements of an array after the first one has been seen to exist. *)
Fixpoint parse_items (p : parser json) (n : nat) (s : string) : option (list json * string) :=
  match n with
  | O => None
  | S n' =>
      '(v, r) ← p s;
      match skip_ws r with
      | String c r' =>
          if (N_of_ascii c =? 44)%N then
            '(vs, r'') ← parse_items p n' r'; Some (v :: vs, r'')
          else if (N_of_ascii c =? 93)%N then Some ([v], r')
          else None
      | EmptyString => None
      end
  end.

(** The members of an object, added to [acc] in order of appearance. *)
Fixpoint parse_members (p : parser json) (n : nat) (s : string)
    (acc : list (string * json)) : option (list (string * json) * string) :=
  match n with
  | O => None
  | S n' =>
      '(k, r) ← parse_string (skip_ws s);
      match skip_ws r with
      | String c r1 =>
          if (N_of_ascii c =? 58)%N then
            '(v, r2) ← p r1;
            let acc' := obj_set k v acc in
            match skip_ws r2 with
            | String c' r3 =>
                if (N_of_ascii c' =? 44)%N then parse_members p n' r3 acc'
                else if (N_of_ascii c' =? 125)%N then Some (acc', r3)
                else None
            | EmptyString => None
            end
          else None
      | EmptyString => None
      end
  end.

Definition starts_with (c : N) (s : string) : option string :=
  match s with
  | String c' r => if (N_of_ascii c' =? c)%N then Some r else None
  | EmptyString => None
  end.

(** One JSON value whose first character heads [s]; the values nested in it
    are read by [p], at most [n] of them in a row. *)
Definition parse_head (p : parser json) (n : nat) (s : string) : option (json * string) :=
  match s with
  | EmptyString => None
  | String c r =>
      let code := N_of_ascii c in
      if (code =? 91)%N then
        match starts_with 93 (skip_ws r) with
        | Some r' => Some (JArr [], r')
        | None => '(vs, r') ← parse_items p n r; Some (JArr vs, r')
        end
      else if (code =? 123)%N then
        match starts_with 125 (skip_ws r) with
        | Some r' => Some (JObj [], r')
        | None => '(ms, r') ← parse_members p n r []; Some (JObj ms, r')
        end
      else if (code =? 34)%N then
        '(t, r') ← parse_chars r; Some (JStr t, r')
      else if (code =? 110)%N then
        r' ← strip_prefix "null" s; Some (JNull, r')
      else if (code =? 116)%N then
        r' ← strip_prefix "true" s; Some (JBool true, r')
      else if (code =? 102)%N then
        r' ← strip_prefix "false" s; Some (JBool false, r')
      else parse_number s
  end.

(** One JSON value at the head of [s], with the text that follows it. *)
Fixpoint parse_value (fuel : nat) (s : string) : option (json * string) :=
  match fuel with
  | O => None
  | S fuel' => parse_head (parse_value fuel') fuel' (skip_ws s)
  end.

(** [JSON.parse]: one value, then nothing but white space.  [None] stands
    for the SyntaxError that [JSON.parse] throws. *)
Definition parse (text : string) : option json :=
  '(v, rest) ← parse_value (S (String.length text)) text;
  match skip_ws rest with
  | EmptyString => Some v
  | String _ _ => None
  end.

(** Keys in property order: none goes before an earlier one. *)
Fixpoint property_order (keys : list string) : bool :=
  match keys with
  | [] => true
  | k :: rest => forallb (fun k' => negb (goes_before k' k)) rest && property_order rest
  end.

(** The values that the round trip below is stated for: objects as
    JavaScript holds them, with pairwise distinct keys in property order,
    at every depth, and numbers that are integers. *)
Fixpoint wf_json (v : json) : bool :=
  match v with
  | JDec _ _ => false
  | JArr items => forallb wf_json items
  | JObj members =>
      bool_decide (NoDup (map fst members))
      && property_order (map fst members)
      && forallb (fun m => wf_json (snd m)) members
  | _ => true
  end.

(** Text made of white space only, as the indentation is. *)
Fixpoint blank (s : string) : bool :=
  match s with
  | EmptyString => true
  | String c r => is_ws c && blank r
  end.

(** What may follow a number: anything that cannot continue it. *)
Definition terminated (rest : string) : Prop :=
  match rest with
  | EmptyString => True
  | String c _ => digit_of_ascii c = None /\ starts_fraction rest = false
  end.

(** The digits that [Z.to_int] produces: at least one, and no zero in front
    of another digit. *)
Definition plain_digits (d : uint) : Prop := d <> Nil /\ leading_zero d = false.

(** The number of values in [v], itself included. *)
Fixpoint size (v : json) : nat :=
  match v with
  | JArr items => S (list_sum (map size items))
  | JObj members => S (list_sum (map (fun m => size (snd m)) members))
  | _ => 1
  end.

End JSON.

Import JSON.

(** ** Paths

    [path.dirname], and [path.join] of a directory as the server builds it
    (absolute, with single slashes and none at its end) with one segment:
    an empty segment or [.] gives the directory, [..] its parent, any other
    segment is added after a slash. *)

(** Position of the last slash of a path. *)
Fixpoint last_slash (s : string) : option nat :=
  match s with
  | EmptyString => None
  | String c r =>
      match last_slash r with
      | Some i => Some (S i)
      | None => if (N_of_ascii c =? 47)%N then Some 0 else None
      end
  end.

Definition path_dirname (p : string) : string :=
  match last_slash p with
  | None => "."
  | Some 0 => "/"
  | Some i => String.substring 0 i p
  end.

Definition path_join (dir name : string) : string :=
  if String.eqb name "" || String.eqb name "." then dir
  else if String.eqb name ".." then path_dirname dir
  else dir +:+ "/" +:+ name.

(** A segment that [path.join] adds as it is. *)
Definition segment (name : string) : Prop :=
  name <> "" /\ name <> "." /\ name <> ".." /\ last_slash name = None.

(** [s.split('/').pop()]: what follows the last slash. *)
Definition split_pop (s : string) : string :=
  match last_slash s with
  | None => s
  | Some i => String.substring (S i) (String.length s - S i) s
  end.

(** ** The file system and the console

    The disk holds regular files and directories.  [denied] collects the
    paths that the operating system refuses to open, make or remove (their
    permissions): every [fs] call on such a path throws, and leaves the
    disk as it was.  A write that fails after its file was opened, and the
    parents that [mkdirSync] makes with [recursive], are not part of this
    disk. *)

Inductive Error : Type :=
| ENOENT | EACCES | EISDIR | ENOTDIR | EEXIST
| SyntaxError
| TypeError
| LIMIT_FILE_SIZE
| BcryptError.

Inductive Exc (A : Type) : Type :=
| Ok (a : A)
| Throw (e : Error).
Arguments Ok {A} a.
Arguments Throw {A} e.

Record FS : Type := mkFS {
  files : gmap string string;
  dirs : gset string;
  denied : gset string
}.

Definition existsSync (p : string) (d : FS) : bool :=
  bool_decide (is_Some (files d !! p)) || bool_decide (p ∈ dirs d).

(** [fs.mkdirSync(dir, { recursive: true })]: an existing directory is fine. *)
Definition mkdirSync (dir : string) (d : FS) : Exc FS :=
  if bool_decide (dir ∈ denied d) then Throw EACCES
  else if bool_decide (is_Some (files d !! dir)) then Throw EEXIST
  else Ok (mkFS (files d) ({[dir]} ∪ dirs d) (denied d)).

Definition writeFileSync (p text : string) (d : FS) : Exc FS :=
  if bool_decide (p ∈ denied d) then Throw EACCES
  else if bool_decide (p ∈ dirs d) then Throw EISDIR
  else if bool_decide (path_dirname p ∈ dirs d)
  then Ok (mkFS (<[p := text]> (files d)) (dirs d) (denied d))
  else if bool_decide (is_Some (files d !! path_dirname p)) then Throw ENOTDIR
  else Throw ENOENT.

Definition readFileSync (p : string) (d : FS) : Exc string :=
  if bool_decide (p ∈ denied d) then Throw EACCES
  else match files d !! p with
       | Some text => Ok text
       | None => if bool_decide (p ∈ dirs d) then Throw EISDIR else Throw ENOENT
       end.

Definition unlinkSync (p : string) (d : FS) : Exc FS :=
  if bool_decide (p ∈ denied d) then Throw EACCES
  else match files d !! p with
       | Some _ => Ok (mkFS (delete p (files d)) (dirs d) (denied d))
       | None => if bool_decide (p ∈ dirs d) then Throw EISDIR else Throw ENOENT
       end.

(** A line of [console.log] or of [console.error]; the latter keeps the
    error object that was passed along. *)
Inductive LogLine : Type :=
| Log (text : string)
| LogError (text : string) (e : Error).

Record Sys : Type := mkSys {
  disk : FS;
  console : list LogLine
}.

Definition console_log (text : string) (y : Sys) : Sys :=
  mkSys (disk y) (console y ++ [Log text]).

Definition console_error (text : string) (e : Error) (y : Sys) : Sys :=
  mkSys (disk y) (console y ++ [LogError text e]).

(** ** The record store: [writeJsonFile] and [readJsonFile] *)

(** The body of the [try] of [writeJsonFile]: what was done before a throw
    stays done. *)
Definition writeJsonFile_try (filePath : string) (data : json) (d : FS) : FS * option Error :=
  let dirName := path_dirname filePath in
  match (if existsSync dirName d then Ok d else mkdirSync dirName d) with
  | Throw e => (d, Some e)
  | Ok dk =>
      match writeFileSync filePath (stringify data) dk with
      | Throw e => (dk, Some e)
      | Ok dk' => (dk', None)
      end
  end.

Definition writeJsonFile (filePath : string) (data : json) (y : Sys) : Sys :=
  match writeJsonFile_try filePath data (disk y) with
  | (d, None) =>
      console_log ("Datos guardados exitosamente en: " +:+ filePath) (mkSys d (console y))
  | (d, Some e) =>
      console_error ("Error escribiendo " +:+ filePath +:+ ":") e (mkSys d (console y))
  end.

Definition readJsonFile (filePath : string) (y : Sys) : json * Sys :=
  if negb (existsSync filePath (disk y)) then
    let y1 := writeJsonFile filePath (JArr []) y in
    (JArr [], console_log ("Archivo creado: " +:+ filePath) y1)
  else
    match readFileSync filePath (disk y) with
    | Throw e => (JArr [], console_error ("Error leyendo " +:+ filePath +:+ ":") e y)
    | Ok text =>
        match parse text with
        | None => (JArr [], console_error ("Error leyendo " +:+ filePath +:+ ":") SyntaxError y)
        | Some data => (data, console_log ("Datos cargados exitosamente de: " +:+ filePath) y)
        end
    end.

(** The paths on which [writeJsonFile] gets its text onto the disk: a path
    that is free to use, in a directory that exists or can be made. *)
Definition writable (filePath : string) (d : FS) : bool :=
  negb (bool_decide (filePath ∈ denied d))
  && negb (bool_decide (filePath ∈ dirs d))
  && (bool_decide (path_dirname filePath ∈ dirs d)
      || (negb (bool_decide (is_Some (files d !! path_dirname filePath)))
          && negb (bool_decide (path_dirname filePath ∈ denied d))
          && negb (bool_decide (path_dirname filePath = filePath)))).

(** ** The data model *)

Local Open Scope list_scope.

Module User.
Record t : Type := mk { username : string; password : string }.
End User.

(** A publication: a record of [publicaciones], and also the snapshot that a
    client sends as [publication] and that [likedPublications] keeps. *)
Module Pub.
Record t : Type := mk {
  imagePath : string;
  imageName : string;
  description : string;
  username : string;
  timestamp : Z
}.
End Pub.

Module Like.
Record t : Type := mk { username : string; likedPublications : list Pub.t }.
End Like.

#[global] Instance user_eq_dec : EqDecision User.t.
Proof. solve_decision. Defined.
#[global] Instance pub_eq_dec : EqDecision Pub.t.
Proof. solve_decision. Defined.
#[global] Instance like_eq_dec : EqDecision Like.t.
Proof. solve_decision. Defined.

(** The composite key of a publication, and the test
    [a.imagePath === b.imagePath && a.imageName === b.imageName]. *)
Definition key (p : Pub.t) : string * string := (Pub.imagePath p, Pub.imageName p).

Definition same_pub (publication pub : Pub.t) : bool :=
  bool_decide (Pub.imagePath pub = Pub.imagePath publication)
  && bool_decide (Pub.imageName pub = Pub.imageName publication).

(** The three arrays as [JSON.stringify] sees them. *)
Definition user_json (u : User.t) : json :=
  JObj [("username", JStr (User.username u)); ("password", JStr (User.password u))].

Definition pub_json (p : Pub.t) : json :=
  JObj [("imagePath", JStr (Pub.imagePath p));
        ("imageName", JStr (Pub.imageName p));
        ("description", JStr (Pub.description p));
        ("username", JStr (Pub.username p));
        ("timestamp", JNum (Pub.timestamp p))].

Definition like_json (l : Like.t) : json :=
  JObj [("username", JStr (Like.username l));
        ("likedPublications", JArr (map pub_json (Like.likedPublications l)))].

Definition users_json (us : list User.t) : json := JArr (map user_json us).
Definition pubs_json (ps : list Pub.t) : json := JArr (map pub_json ps).
Definition likes_json (ls : list Like.t) : json := JArr (map like_json ls).

(** ** The process *)

Record Config : Type := mkConfig {
  RENDER_ENV : bool;
  module_dirname : string
}.

Definition PERSISTENT_DIR (cfg : Config) : string :=
  if RENDER_ENV cfg then "/var/data" else path_join (module_dirname cfg) "data".
Definition DATA_DIR (cfg : Config) : string := path_join (PERSISTENT_DIR cfg) "data".
Definition UPLOADS_DIR (cfg : Config) : string := path_join (PERSISTENT_DIR cfg) "uploads".
Definition usuariosFilePath (cfg : Config) : string := path_join (DATA_DIR cfg) "usuarios.json".
Definition publicacionesFilePath (cfg : Config) : string := path_join (DATA_DIR cfg) "publicaciones.json".
Definition likesFilePath (cfg : Config) : string := path_join (DATA_DIR cfg) "likes.json".

(** What the runtime decides while a request is served: the clock and the
    outcome of the two bcrypt calls ([None] when the promise rejects). *)
Record Runtime : Type := mkRuntime {
  Date_now : Z;
  bcrypt_hash : string -> option string;
  bcrypt_compare : string -> string -> option bool
}.

Record State : Type := mkState {
  usuarios : list User.t;
  publicaciones : list Pub.t;
  likes : list Like.t;
  sys : Sys
}.

Record Response : Type := mkResponse {
  status : Z;
  body : json
}.

Definition message (text : string) : json := JObj [("message", JStr text)].

(** A field of a JSON body that may be absent; [None] is [undefined]. *)
Definition falsy (x : option string) : bool :=
  match x with
  | None => true
  | Some s => bool_decide (s = "")
  end.

Inductive Request : Type :=
| GET_usuarios
| POST_usuarios (username password : option string)
| POST_login (username password : string)
| GET_publicaciones
| POST_upload (file : option string) (username description imageName : string)
| DELETE_publicaciones (username : string) (publication : Pub.t)
| GET_likes (username : string)
| POST_likes (username : string) (publication : Pub.t)
| DELETE_likes (username : string) (publication : Pub.t)
| GET_data
| GET_root.

(** ** The route handlers of [server.js] *)

Definition get_usuarios (s : State) : Response * State :=
  (mkResponse 200 (users_json (usuarios s)), s).

(** Registration.  The handler is an [async] function with one [await], on
    [bcrypt.hash]: it runs to that point, and runs on from it when the
    promise settles, with the process as it is by then.

    [post_usuarios_start] is the handler up to the [await]: it answers, or
    it waits with the two fields it will need. *)
Inductive Started : Type :=
| Answered (r : Response)
| Awaiting (username password : string).

Definition post_usuarios_start (username password : option string) (s : State) : Started :=
  if falsy username || falsy password then
    Answered (mkResponse 400 (message "Username y password son requeridos"))
  else
    match username, password with
    | Some name, Some pass =>
        match list_find (fun u => User.username u = name) (usuarios s) with
        | Some _ => Answered (mkResponse 400 (message "El usuario ya existe"))
        | None => Awaiting name pass
        end
    | _, _ => Answered (mkResponse 400 (message "Username y password son requeridos"))
    end.

(** The handler from the [await] on, inside its [try]: only the hash can
    throw, since [writeJsonFile] catches its own errors. *)
Definition post_usuarios_resume (cfg : Config) (rt : Runtime) (name pass : string)
    (s : State) : Response * State :=
  match bcrypt_hash rt pass with
  | Some hashedPassword =>
      let usuarios' := usuarios s ++ [User.mk name hashedPassword] in
      let y := writeJsonFile (usuariosFilePath cfg) (users_json usuarios') (sys s) in
      (mkResponse 201 (message "Usuario creado exitosamente"),
       mkState usuarios' (publicaciones s) (likes s) y)
  | None =>
      (mkResponse 500 (message "Error al crear el usuario"),
       mkState (usuarios s) (publicaciones s) (likes s)
         (console_error "Error al crear usuario:" BcryptError (sys s)))
  end.

(** A registration during which nothing else is served. *)
Definition post_usuarios (cfg : Config) (rt : Runtime)
    (username password : option string) (s : State) : Response * State :=
  match post_usuarios_start username password s with
  | Answered r => (r, s)
  | Awaiting name pass => post_usuarios_resume cfg rt name pass s
  end.

(** The login awaits [bcrypt.compare] on the record that [find] returned;
    what follows the [await] reads nothing else of the process. *)
Definition post_login (rt : Runtime) (username password : string) (s : State)
    : Response * State :=
  match list_find (fun u => User.username u = username) (usuarios s) with
  | None => (mkResponse 400 (message "El usuario no existe"), s)
  | Some (_, user) =>
      match bcrypt_compare rt password (User.password user) with
      | Some true => (mkResponse 200 (message "Inicio de sesión exitoso"), s)
      | Some false => (mkResponse 400 (message "Contraseña incorrecta"), s)
      | None =>
          (mkResponse 500 (message "Error al verificar la contraseña"),
           mkState (usuarios s) (publicaciones s) (likes s)
             (console_error "Error en login:" BcryptError (sys s)))
      end
  end.

Definition get_publicaciones (s : State) : Response * State :=
  (mkResponse 200 (pubs_json (publicaciones s)), s).

Definition baseUrl : string := "https://servidor-c1k2.onrender.com".

(** [file] is [req.file.filename] when multer stored an image; the storing
    itself comes before the handler and is [Raw.multer_store] below. *)
Definition post_upload (cfg : Config) (rt : Runtime) (file : option string)
    (username description imageName : string) (s : State) : Response * State :=
  match file with
  | None => (mkResponse 400 (message "Error al subir la imagen"), s)
  | Some filename =>
      let nuevaPublicacion :=
        Pub.mk (baseUrl +:+ "/uploads/" +:+ filename) imageName description username
          (Date_now rt) in
      let publicaciones' := publicaciones s ++ [nuevaPublicacion] in
      let y := writeJsonFile (publicacionesFilePath cfg) (pubs_json publicaciones') (sys s) in
      (mkResponse 201
         (JObj [("message", JStr "Imagen subida exitosamente");
                ("nuevaPublicacion", pub_json nuevaPublicacion)]),
       mkState (usuarios s) publicaciones' (likes s) y)
  end.

(** The filter of the cascade: keep what differs in [imagePath] or in
    [imageName]. *)
Definition unlike (publication : Pub.t) (like : Like.t) : Like.t :=
  Like.mk (Like.username like)
    (List.filter (fun likePublication => negb (same_pub publication likePublication))
       (Like.likedPublications like)).

(** The first statements of the [try] of the delete route: the stored image
    is removed when it exists. *)
Definition remove_image (cfg : Config) (publication : Pub.t) (d : FS) : Exc FS :=
  let fileName := split_pop (Pub.imagePath publication) in
  let filePath := path_join (UPLOADS_DIR cfg) fileName in
  if existsSync filePath d then unlinkSync filePath d else Ok d.

Definition delete_publicaciones (cfg : Config) (username : string)
    (publication : Pub.t) (s : State) : Response * State :=
  match list_find (fun pub => same_pub publication pub = true) (publicaciones s) with
  | None => (mkResponse 404 (message "Publicación no encontrada."), s)
  | Some (publicationIndex, _) =>
      match remove_image cfg publication (disk (sys s)) with
      | Throw e =>
          (mkResponse 500 (message "Error al eliminar la publicación"),
           mkState (usuarios s) (publicaciones s) (likes s)
             (console_error "Error al eliminar publicación:" e (sys s)))
      | Ok dk =>
          let publicaciones' := delete publicationIndex (publicaciones s) in
          let likes' := map (unlike publication) (likes s) in
          let y1 := writeJsonFile (publicacionesFilePath cfg) (pubs_json publicaciones')
                      (mkSys dk (console (sys s))) in
          let y2 := writeJsonFile (likesFilePath cfg) (likes_json likes') y1 in
          (mkResponse 200 (message "Publicación eliminada exitosamente."),
           mkState (usuarios s) publicaciones' likes' y2)
      end
  end.

Definition get_likes (username : string) (s : State) : Response * State :=
  match list_find (fun like => Like.username like = username) (likes s) with
  | None => (mkResponse 404 (message "El usuario no tiene publicaciones con like"), s)
  | Some (_, userLikes) =>
      (mkResponse 200 (pubs_json (Like.likedPublications userLikes)), s)
  end.

(** [userLikes] is an element of [likes]: the entry found, or the one just
    pushed.  It is kept by its index, so that the later push reaches the
    array. *)
Definition post_likes (cfg : Config) (username : string) (publication : Pub.t)
    (s : State) : Response * State :=
  let '(likes1, i, userLikes) :=
    match list_find (fun like => Like.username like = username) (likes s) with
    | Some (i, userLikes) => (likes s, i, userLikes)
    | None =>
        let userLikes := Like.mk username [] in
        (likes s ++ [userLikes], length (likes s), userLikes)
    end in
  let alreadyLiked := existsb (same_pub publication) (Like.likedPublications userLikes) in
  if alreadyLiked then
    (mkResponse 400 (message "La publicación ya está guardada."),
     mkState (usuarios s) (publicaciones s) likes1 (sys s))
  else
    let likes2 :=
      <[i := Like.mk (Like.username userLikes)
               (Like.likedPublications userLikes ++ [publication])]> likes1 in
    let y := writeJsonFile (likesFilePath cfg) (likes_json likes2) (sys s) in
    (mkResponse 201 (message "Publicación guardada exitosamente."),
     mkState (usuarios s) (publicaciones s) likes2 y).

Definition delete_likes (cfg : Config) (username : string) (publication : Pub.t)
    (s : State) : Response * State :=
  match list_find (fun like => Like.username like = username) (likes s) with
  | None => (mkResponse 404 (message "No se encontró el usuario."), s)
  | Some (i, userLikes) =>
      match list_find (fun pub => same_pub publication pub = true)
              (Like.likedPublications userLikes) with
      | None =>
          (mkResponse 404
             (message "No se encontró la publicación en los likes del usuario."), s)
      | Some (publicationIndex, _) =>
          let likes' :=
            <[i := Like.mk (Like.username userLikes)
                     (delete publicationIndex (Like.likedPublications userLikes))]>
              (likes s) in
          let y := writeJsonFile (likesFilePath cfg) (likes_json likes') (sys s) in
          (mkResponse 200 (message "Like eliminado exitosamente."),
           mkState (usuarios s) (publicaciones s) likes' y)
      end
  end.

Definition snapshot (s : State) : list (string * json) :=
  [("usuarios", users_json (usuarios s));
   ("publicaciones", pubs_json (publicaciones s));
   ("likes", likes_json (likes s))].

Definition get_data (s : State) : Response * State :=
  (mkResponse 200 (JObj (snapshot s)), s).

Definition get_root (s : State) : Response * State :=
  (mkResponse 200 (JObj (("status", JStr "Servidor funcionando") :: snapshot s)), s).

(** The router. *)
Definition handle (cfg : Config) (rt : Runtime) (req : Request) (s : State)
    : Response * State :=
  match req with
  | GET_usuarios => get_usuarios s
  | POST_usuarios username password => post_usuarios cfg rt username password s
  | POST_login username password => post_login rt username password s
  | GET_publicaciones => get_publicaciones s
  | POST_upload file username description imageName =>
      post_upload cfg rt file username description imageName s
  | DELETE_publicaciones username publication =>
      delete_publicaciones cfg username publication s
  | GET_likes username => get_likes username s
  | POST_likes username publication => post_likes cfg username publication s
  | DELETE_likes username publication => delete_likes cfg username publication s
  | GET_data => get_data s
  | GET_root => get_root s
  end.

(** Serving a sequence of requests, each with what the runtime decided for
    it. *)
Fixpoint serve (cfg : Config) (reqs : list (Runtime * Request)) (s : State) : State :=
  match reqs with
  | [] => s
  | (rt, req) :: rest => serve cfg rest (snd (handle cfg rt req s))
  end.

(** The states of a process that started with no likes. *)
Definition reachable (cfg : Config) (s : State) : Prop :=
  exists s0 reqs, likes s0 = [] /\ s = serve cfg reqs s0.

(** An answer in the 4xx or 5xx range. *)
Definition is_error (r : Response) : bool := (400 <=? status r)%Z.

(** The file at [filePath] holds the serialisation of [data]. *)
Definition persisted (filePath : string) (data : json) (y : Sys) : Prop :=
  files (disk y) !! filePath = Some (stringify data).

(** The invariant of the like index: one entry per username, and within an
    entry one record per composite key. *)
Definition likes_ok (ls : list Like.t) : Prop :=
  NoDup (map Like.username ls)
  /\ Forall (fun like => NoDup (map key (Like.likedPublications like))) ls.

(** ** The earlier copy of the server

    The repository also keeps an earlier version of the server file.  Its
    record store has no [try] and creates nothing, and its registration has
    no check of the fields.  The functions that differ are modelled here;
    what throws is a [Throw]. *)

Module Legacy.

Definition readJsonFile (filePath : string) (d : FS) : Exc json :=
  if negb (existsSync filePath d) then Ok (JArr [])
  else
    match readFileSync filePath d with
    | Throw e => Throw e
    | Ok text =>
        match parse text with
        | None => Throw SyntaxError
        | Some data => Ok data
        end
    end.

Definition writeJsonFile (filePath : string) (data : json) (d : FS) : Exc FS :=
  writeFileSync filePath (stringify data) d.

(** The error of a failed [fs] call as [JSON.stringify] shows it: its own
    properties [errno] (as Linux numbers them), [code], [syscall] and
    [path].  The error of bcrypt has no own enumerable property. *)
Definition errno (e : Error) : Z :=
  match e with
  | ENOENT => -2
  | EACCES => -13
  | EEXIST => -17
  | ENOTDIR => -20
  | EISDIR => -21
  | _ => 0
  end.

Definition code (e : Error) : string :=
  match e with
  | ENOENT => "ENOENT"
  | EACCES => "EACCES"
  | EEXIST => "EEXIST"
  | ENOTDIR => "ENOTDIR"
  | EISDIR => "EISDIR"
  | _ => ""
  end.

Definition error_json (e : Error) (syscall path : string) : json :=
  match e with
  | ENOENT | EACCES | EEXIST | ENOTDIR | EISDIR =>
      JObj [("errno", JNum (errno e)); ("code", JStr (code e));
            ("syscall", JStr syscall); ("path", JStr path)]
  | _ => JObj []
  end.

(** The body of the 500 answer carries the error. *)
Definition failure (text : string) (error : json) : json :=
  JObj [("message", JStr text); ("error", error)].

Definition post_usuarios (usuariosFilePath : string) (rt : Runtime)
    (username password : string) (s : State) : Response * State :=
  match list_find (fun u => User.username u = username) (usuarios s) with
  | Some _ => (mkResponse 400 (message "El usuario ya existe"), s)
  | None =>
      match bcrypt_hash rt password with
      | None =>
          (mkResponse 500 (failure "Error al crear el usuario" (error_json BcryptError "" "")),
           s)
      | Some hashedPassword =>
          let usuarios' := usuarios s ++ [User.mk username hashedPassword] in
          match writeJsonFile usuariosFilePath (users_json usuarios') (disk (sys s)) with
          | Ok dk =>
              (mkResponse 201 (message "Usuario creado exitosamente"),
               mkState usuarios' (publicaciones s) (likes s) (mkSys dk (console (sys s))))
          | Throw e =>
              (mkResponse 500
                 (failure "Error al crear el usuario" (error_json e "open" usuariosFilePath)),
               mkState usuarios' (publicaciones s) (likes s) (sys s))
          end
      end
  end.

End Legacy.

(** ** The start of the process

    What [server.js] runs before it listens: the loop that makes the two
    directories, and the three calls of [readJsonFile] that fill the arrays.
    [mkdirSync] is the one above, so the parents that [recursive] makes are
    not tracked. *)

(** One round of [[DATA_DIR, UPLOADS_DIR].forEach]. *)
Definition ensure_dir (dir : string) (y : Sys) : Sys :=
  if negb (existsSync dir (disk y)) then
    match mkdirSync dir (disk y) with
    | Ok dk => console_log ("Directorio creado: " +:+ dir) (mkSys dk (console y))
    | Throw e => console_error ("Error al crear directorio " +:+ dir +:+ ":") e y
    end
  else y.

(** The values that [usuarios], [publicaciones] and [likes] are bound to. *)
Record Loaded : Type := mkLoaded {
  loaded_usuarios : json;
  loaded_publicaciones : json;
  loaded_likes : json
}.

Definition startup (cfg : Config) (y : Sys) : Loaded * Sys :=
  let y1 := ensure_dir (DATA_DIR cfg) y in
  let y2 := ensure_dir (UPLOADS_DIR cfg) y1 in
  let '(usuarios, y3) := readJsonFile (usuariosFilePath cfg) y2 in
  let '(publicaciones, y4) := readJsonFile (publicacionesFilePath cfg) y3 in
  let '(likes, y5) := readJsonFile (likesFilePath cfg) y4 in
  (mkLoaded usuarios publicaciones likes, y5).

(** The three arrays of a state as [startup] would have to load them. *)
Definition loaded_of (s : State) : Loaded :=
  mkLoaded (users_json (usuarios s)) (pubs_json (publicaciones s)) (likes_json (likes s)).

(** The paths of the three JSON files. *)
Definition store_paths (cfg : Config) : list string :=
  [usuariosFilePath cfg; publicacionesFilePath cfg; likesFilePath cfg].

(** A disk on which the three files can be read and written: the data
    directory is there, and none of the three paths is refused or taken by a
    directory. *)
Definition healthy (cfg : Config) (d : FS) : Prop :=
  (DATA_DIR cfg ∈ dirs d)
  /\ Forall (fun p => (p ∉ denied d) /\ (p ∉ dirs d)) (store_paths cfg).

(** Each file holds the serialisation of its array. *)
Definition mirrored (cfg : Config) (s : State) : Prop :=
  persisted (usuariosFilePath cfg) (users_json (usuarios s)) (sys s)
  /\ persisted (publicacionesFilePath cfg) (pubs_json (publicaciones s)) (sys s)
  /\ persisted (likesFilePath cfg) (likes_json (likes s)) (sys s).

(** A disk on which the server starts for the first time: none of the three
    files is there, none of their paths is refused, and the data directory
    is there or can be made. *)
Definition first_start (cfg : Config) (d : FS) : Prop :=
  Forall (fun p => existsSync p d = false /\ (p ∉ denied d)) (store_paths cfg)
  /\ files d !! DATA_DIR cfg = None
  /\ ((DATA_DIR cfg ∈ dirs d) \/ (DATA_DIR cfg ∉ denied d)).

(** The three answers of the login for a user that is found. *)
Definition login_answer (outcome : option bool) : Response :=
  match outcome with
  | Some true => mkResponse 200 (message "Inicio de sesión exitoso")
  | Some false => mkResponse 400 (message "Contraseña incorrecta")
  | None => mkResponse 500 (message "Error al verificar la contraseña")
  end.

(** The liked publications that the handlers see for a user: those of the
    entry that [find] returns, none when there is no entry. *)
Definition liked_by (username : string) (ls : list Like.t) : list Pub.t :=
  match list_find (fun like => Like.username like = username) ls with
  | Some (_, userLikes) => Like.likedPublications userLikes
  | None => []
  end.

(** ** The names that multer gives to the stored images *)

(** Position of the last dot of a name. *)
Fixpoint last_dot (s : string) : option nat :=
  match s with
  | EmptyString => None
  | String c r =>
      match last_dot r with
      | Some i => Some (S i)
      | None => if (N_of_ascii c =? 46)%N then Some 0 else None
      end
  end.

(** A path without the slashes at its end. *)
Fixpoint strip_slashes (s : string) : string :=
  match s with
  | EmptyString => EmptyString
  | String c r =>
      match strip_slashes r with
      | EmptyString => if (N_of_ascii c =? 47)%N then EmptyString else String c EmptyString
      | r' => String c r'
      end
  end.

(** [path.extname]: the last segment of the path from its last dot on;
    nothing when the segment has no dot, starts with its only dot, or is
    the segment of two dots. *)
Definition extname (path : string) : string :=
  let base := split_pop (strip_slashes path) in
  match last_dot base with
  | None => ""
  | Some 0 => ""
  | Some i =>
      if bool_decide (base = "..") then ""
      else String.substring i (String.length base - i) base
  end.

(** The [filename] callback of the storage: [random] is what
    [Math.round(Math.random() * 1E9)] gave. *)
Definition multer_filename (now random : Z) (originalname : string) : string :=
  let uniqueSuffix := number_to_string now +:+ "-" +:+ number_to_string random in
  uniqueSuffix +:+ extname originalname.

(** The [destination] callback of the storage: the directory is made when it
    is missing, and a failure of [mkdirSync] escapes. *)
Definition multer_destination (cfg : Config) (d : FS) : Exc (string * FS) :=
  if negb (existsSync (UPLOADS_DIR cfg) d) then
    match mkdirSync (UPLOADS_DIR cfg) d with
    | Ok dk => Ok (UPLOADS_DIR cfg, dk)
    | Throw e => Throw e
    end
  else Ok (UPLOADS_DIR cfg, d).

(** ** The process as it runs

    The handlers above take the requests as the data model types them and
    one at a time.  The process takes more.  The body of a like, an unlike
    or a delete may come without its [publication]: [req.body.publication]
    is then [undefined], the like route stores it as it is, and reading a
    property of it throws a TypeError.  An exception that leaves a handler
    is answered by Express with status 500.  The requests are served in the
    order of their events: a registration takes two, one to its [await] and
    one from it, and so does an upload, whose image multer stores before the
    handler runs.

    The fields of a publication that is there are strings and an integer, as
    the data model has them. *)

Module Raw.

Local Abbreviation typed_state := State (only parsing).

(** The entry of a user in [likes].  A liked publication is what the body of
    the like held: [None] is [undefined] ([null] once it was written and
    read back). *)
Module Entry.
Record t : Type := mk { username : string; likedPublications : list (option Pub.t) }.
End Entry.

Record State : Type := mk {
  usuarios : list User.t;
  publicaciones : list Pub.t;
  likes : list Entry.t;
  sys : Sys
}.

(** What the client gets: the answer of the handler, or the answer 500 of
    Express to the exception that left the handler. *)
Inductive Answer : Type :=
| Sent (r : Response)
| Uncaught (e : Error).

Definition answer_status (a : Answer) : Z :=
  match a with
  | Sent r => status r
  | Uncaught _ => 500
  end.

(** [JSON.stringify] writes [null] for an array element that is
    [undefined]. *)
Definition liked_json (p : option Pub.t) : json :=
  match p with
  | Some p => pub_json p
  | None => JNull
  end.

Definition like_json (l : Entry.t) : json :=
  JObj [("username", JStr (Entry.username l));
        ("likedPublications", JArr (map liked_json (Entry.likedPublications l)))].

Definition likes_json (ls : list Entry.t) : json := JArr (map like_json ls).

(** [a.imagePath === b.imagePath && a.imageName === b.imageName]: both sides
    of the first comparison are read, so the test throws when either record
    is [undefined]. *)
Definition same_key (pub publication : option Pub.t) : Exc bool :=
  match pub, publication with
  | Some pub, Some publication => Ok (same_pub publication pub)
  | _, _ => Throw TypeError
  end.

(** [findIndex] with a test that may throw: the position of the first
    element that passes, reached only when no test before it threw. *)
Fixpoint findIndex {A : Type} (test : A -> Exc bool) (l : list A) : Exc (option nat) :=
  match l with
  | [] => Ok None
  | x :: rest =>
      match test x with
      | Throw e => Throw e
      | Ok true => Ok (Some 0)
      | Ok false =>
          match findIndex test rest with
          | Throw e => Throw e
          | Ok (Some i) => Ok (Some (S i))
          | Ok None => Ok None
          end
      end
  end.

(** [some] with a test that may throw. *)
Definition some {A : Type} (test : A -> Exc bool) (l : list A) : Exc bool :=
  match findIndex test l with
  | Throw e => Throw e
  | Ok (Some _) => Ok true
  | Ok None => Ok false
  end.

(** [filter] that keeps what does not carry the key, with the test
    [a.imagePath !== b.imagePath || a.imageName !== b.imageName]. *)
Fixpoint keep_others (publication : Pub.t) (l : list (option Pub.t))
    : Exc (list (option Pub.t)) :=
  match l with
  | [] => Ok []
  | x :: rest =>
      match same_key x (Some publication) with
      | Throw e => Throw e
      | Ok same =>
          match keep_others publication rest with
          | Throw e => Throw e
          | Ok kept => Ok (if same then kept else x :: kept)
          end
      end
  end.

(** The [forEach] of the cascade.  Each entry is given its filtered list in
    turn; when the filter throws, the entries before are filtered already
    and that entry and those after it are as they were. *)
Fixpoint cascade (publication : Pub.t) (ls : list Entry.t) : list Entry.t * option Error :=
  match ls with
  | [] => ([], None)
  | like :: rest =>
      match keep_others publication (Entry.likedPublications like) with
      | Throw e => (like :: rest, Some e)
      | Ok kept =>
          let '(rest', e) := cascade publication rest in
          (Entry.mk (Entry.username like) kept :: rest', e)
      end
  end.

Inductive Request : Type :=
| GET_usuarios
| POST_usuarios (username password : option string)
| POST_login (username password : string)
| GET_publicaciones
| POST_upload (file : option string) (username description imageName : string)
| DELETE_publicaciones (username : string) (publication : option Pub.t)
| GET_likes (username : string)
| POST_likes (username : string) (publication : option Pub.t)
| DELETE_likes (username : string) (publication : option Pub.t)
| GET_data
| GET_root.

(** The five routes that do not mention [likes] are the handlers above, on
    the other two arrays and the disk. *)
Definition without_likes (handler : typed_state -> Response * typed_state) (s : State)
    : Answer * State :=
  let '(r, mkState usuarios' publicaciones' _ y) :=
    handler (mkState (usuarios s) (publicaciones s) [] (sys s)) in
  (Sent r, mk usuarios' publicaciones' (likes s) y).

(** The delete of a publication.  Without a publication in the body the test
    of [findIndex] throws on the first record, outside the [try].  With one,
    the [try] covers the removal of the image, the splice, the cascade and
    the two writes, in this order: a throw of the cascade is caught after
    the image and the record are gone. *)
Definition delete_publicaciones (cfg : Config) (username : string)
    (publication : option Pub.t) (s : State) : Answer * State :=
  match publication with
  | None =>
      match publicaciones s with
      | [] => (Sent (mkResponse 404 (message "Publicación no encontrada.")), s)
      | _ :: _ => (Uncaught TypeError, s)
      end
  | Some publication =>
      match list_find (fun pub => same_pub publication pub = true) (publicaciones s) with
      | None => (Sent (mkResponse 404 (message "Publicación no encontrada.")), s)
      | Some (publicationIndex, _) =>
          match remove_image cfg publication (disk (sys s)) with
          | Throw e =>
              (Sent (mkResponse 500 (message "Error al eliminar la publicación")),
               mk (usuarios s) (publicaciones s) (likes s)
                 (console_error "Error al eliminar publicación:" e (sys s)))
          | Ok dk =>
              let publicaciones' := delete publicationIndex (publicaciones s) in
              match cascade publication (likes s) with
              | (likes', Some e) =>
                  (Sent (mkResponse 500 (message "Error al eliminar la publicación")),
                   mk (usuarios s) publicaciones' likes'
                     (console_error "Error al eliminar publicación:" e
                        (mkSys dk (console (sys s)))))
              | (likes', None) =>
                  let y1 := writeJsonFile (publicacionesFilePath cfg) (pubs_json publicaciones')
                              (mkSys dk (console (sys s))) in
                  let y2 := writeJsonFile (likesFilePath cfg) (likes_json likes') y1 in
                  (Sent (mkResponse 200 (message "Publicación eliminada exitosamente.")),
                   mk (usuarios s) publicaciones' likes' y2)
              end
          end
      end
  end.

Definition get_likes (username : string) (s : State) : Answer * State :=
  match list_find (fun like => Entry.username like = username) (likes s) with
  | None =>
      (Sent (mkResponse 404 (message "El usuario no tiene publicaciones con like")), s)
  | Some (_, userLikes) =>
      (Sent (mkResponse 200 (JArr (map liked_json (Entry.likedPublications userLikes)))), s)
  end.

(** The like.  The handler has no [try]: a throw of the test of [some]
    leaves it.  What is pushed is [publication] as it came. *)
Definition post_likes (cfg : Config) (username : string) (publication : option Pub.t)
    (s : State) : Answer * State :=
  let '(likes1, i, userLikes) :=
    match list_find (fun like => Entry.username like = username) (likes s) with
    | Some (i, userLikes) => (likes s, i, userLikes)
    | None =>
        let userLikes := Entry.mk username [] in
        (likes s ++ [userLikes], length (likes s), userLikes)
    end in
  match some (fun likedPub => same_key likedPub publication)
          (Entry.likedPublications userLikes) with
  | Throw e => (Uncaught e, mk (usuarios s) (publicaciones s) likes1 (sys s))
  | Ok true =>
      (Sent (mkResponse 400 (message "La publicación ya está guardada.")),
       mk (usuarios s) (publicaciones s) likes1 (sys s))
  | Ok false =>
      let likes2 :=
        <[i := Entry.mk (Entry.username userLikes)
                 (Entry.likedPublications userLikes ++ [publication])]> likes1 in
      let y := writeJsonFile (likesFilePath cfg) (likes_json likes2) (sys s) in
      (Sent (mkResponse 201 (message "Publicación guardada exitosamente.")),
       mk (usuarios s) (publicaciones s) likes2 y)
  end.

Definition delete_likes (cfg : Config) (username : string) (publication : option Pub.t)
    (s : State) : Answer * State :=
  match list_find (fun like => Entry.username like = username) (likes s) with
  | None => (Sent (mkResponse 404 (message "No se encontró el usuario.")), s)
  | Some (i, userLikes) =>
      match findIndex (fun pub => same_key pub publication)
              (Entry.likedPublications userLikes) with
      | Throw e => (Uncaught e, s)
      | Ok None =>
          (Sent (mkResponse 404
                   (message "No se encontró la publicación en los likes del usuario.")), s)
      | Ok (Some publicationIndex) =>
          let likes' :=
            <[i := Entry.mk (Entry.username userLikes)
                     (delete publicationIndex (Entry.likedPublications userLikes))]>
              (likes s) in
          let y := writeJsonFile (likesFilePath cfg) (likes_json likes') (sys s) in
          (Sent (mkResponse 200 (message "Like eliminado exitosamente.")),
           mk (usuarios s) (publicaciones s) likes' y)
      end
  end.

Definition snapshot (s : State) : list (string * json) :=
  [("usuarios", users_json (usuarios s));
   ("publicaciones", pubs_json (publicaciones s));
   ("likes", likes_json (likes s))].

Definition get_data (s : State) : Answer * State :=
  (Sent (mkResponse 200 (JObj (snapshot s))), s).

Definition get_root (s : State) : Answer * State :=
  (Sent (mkResponse 200 (JObj (("status", JStr "Servidor funcionando") :: snapshot s))), s).

(** The router, for a request during which nothing else is served. *)
Definition handle (cfg : Config) (rt : Runtime) (req : Request) (s : State)
    : Answer * State :=
  match req with
  | GET_usuarios => without_likes get_usuarios s
  | POST_usuarios username password =>
      without_likes (post_usuarios cfg rt username password) s
  | POST_login username password => without_likes (post_login rt username password) s
  | GET_publicaciones => without_likes get_publicaciones s
  | POST_upload file username description imageName =>
      without_likes (post_upload cfg rt file username description imageName) s
  | DELETE_publicaciones username publication =>
      delete_publicaciones cfg username publication s
  | GET_likes username => get_likes username s
  | POST_likes username publication => post_likes cfg username publication s
  | DELETE_likes username publication => delete_likes cfg username publication s
  | GET_data => get_data s
  | GET_root => get_root s
  end.

(** *** multer *)

(** [limits.fileSize]. *)
Definition fileSize : Z := 5 * 1024 * 1024.

(** What [upload.single('image')] does with the image of an upload: the
    [destination] callback, the [filename] callback, and the write of the
    content under that name.  An image over the limit is refused and what
    was written of it is removed. *)
Definition multer_store (cfg : Config) (now random : Z) (originalname content : string)
    (d : FS) : FS * option Error :=
  match multer_destination cfg d with
  | Throw e => (d, Some e)
  | Ok (destination, dk) =>
      let filePath := path_join destination (multer_filename now random originalname) in
      match writeFileSync filePath content dk with
      | Throw e => (dk, Some e)
      | Ok dk' =>
          if (fileSize <? Z.of_nat (String.length content))%Z then
            (mkFS (delete filePath (files dk')) (dirs dk') (denied dk'), Some LIMIT_FILE_SIZE)
          else (dk', None)
      end
  end.

(** *** Events *)

(** The process: its arrays and disk, and the registrations that wait for
    their hash, with the username and the password they will use. *)
Record Process : Type := mkProcess {
  mem : State;
  awaiting : list (string * string)
}.

(** What happens to the process, one thing at a time.

    - [Arrive]: a request is taken up; a registration runs to its [await],
      any other handler to its answer.  The handler of an upload is taken up
      when multer is done, with the name of the stored file.
    - [Settle]: the hash of the registration at position [i] of [awaiting]
      settles, and that handler runs on.
    - [Store]: multer stores the image of an upload. *)
Inductive Event : Type :=
| Arrive (rt : Runtime) (req : Request)
| Settle (rt : Runtime) (i : nat)
| Store (now random : Z) (originalname content : string).

Definition step (cfg : Config) (e : Event) (p : Process) : option Answer * Process :=
  match e with
  | Arrive rt (POST_usuarios username password) =>
      match post_usuarios_start username password
              (mkState (usuarios (mem p)) (publicaciones (mem p)) [] (sys (mem p))) with
      | Answered r => (Some (Sent r), p)
      | Awaiting name pass => (None, mkProcess (mem p) (awaiting p ++ [(name, pass)]))
      end
  | Arrive rt req =>
      let '(a, s') := handle cfg rt req (mem p) in
      (Some a, mkProcess s' (awaiting p))
  | Settle rt i =>
      match awaiting p !! i with
      | Some (name, pass) =>
          let '(a, s') := without_likes (post_usuarios_resume cfg rt name pass) (mem p) in
          (Some a, mkProcess s' (delete i (awaiting p)))
      | None => (None, p)
      end
  | Store now random originalname content =>
      match multer_store cfg now random originalname content (disk (sys (mem p))) with
      | (d, Some e) =>
          (Some (Uncaught e),
           mkProcess (mk (usuarios (mem p)) (publicaciones (mem p)) (likes (mem p))
                        (mkSys d (console (sys (mem p)))))
             (awaiting p))
      | (d, None) =>
          (None,
           mkProcess (mk (usuarios (mem p)) (publicaciones (mem p)) (likes (mem p))
                        (mkSys d (console (sys (mem p)))))
             (awaiting p))
      end
  end.

(** A run: the answers in the order they are given, and the process at the
    end. *)
Fixpoint run (cfg : Config) (events : list Event) (p : Process) : list Answer * Process :=
  match events with
  | [] => ([], p)
  | e :: rest =>
      let '(a, p1) := step cfg e p in
      let '(answers, p2) := run cfg rest p1 in
      (match a with Some a => a :: answers | None => answers end, p2)
  end.

End Raw.

(** *** The typed requests among the others *)

Definition raw_like (l : Like.t) : Raw.Entry.t :=
  Raw.Entry.mk (Like.username l) (map Some (Like.likedPublications l)).

Definition raw_state (s : State) : Raw.State :=
  Raw.mk (usuarios s) (publicaciones s) (map raw_like (likes s)) (sys s).

Definition raw_request (req : Request) : Raw.Request :=
  match req with
  | GET_usuarios => Raw.GET_usuarios
  | POST_usuarios username password => Raw.POST_usuarios username password
  | POST_login username password => Raw.POST_login username password
  | GET_publicaciones => Raw.GET_publicaciones
  | POST_upload file username description imageName =>
      Raw.POST_upload file username description imageName
  | DELETE_publicaciones username publication =>
      Raw.DELETE_publicaciones username (Some publication)
  | GET_likes username => Raw.GET_likes username
  | POST_likes username publication => Raw.POST_likes username (Some publication)
  | DELETE_likes username publication => Raw.DELETE_likes username (Some publication)
  | GET_data => Raw.GET_data
  | GET_root => Raw.GET_root
  end.

(** Requests one at a time: each is taken up and, when it is a registration,
    its hash settles before the next request. *)
Definition one_at_a_time (reqs : list (Runtime * Request)) : list Raw.Event :=
  flat_map (fun '(rt, req) => [Raw.Arrive rt (raw_request req); Raw.Settle rt 0]) reqs.

(** Like lists without [undefined], and an event whose like carries its
    publication: the like is the one route that stores what it was given. *)
Definition all_defined (s : Raw.State) : Prop :=
  Forall (fun like => Forall (fun p => is_Some p) (Raw.Entry.likedPublications like))
    (Raw.likes s).

Definition like_carries_publication (e : Raw.Event) : Prop :=
  match e with
  | Raw.Arrive _ (Raw.POST_likes _ publication) => is_Some publication
  | _ => True
  end.

(** Each file holds the serialisation of its array, and the three arrays as
    [startup] would have to load them. *)
Definition raw_mirrored (cfg : Config) (s : Raw.State) : Prop :=
  persisted (usuariosFilePath cfg) (users_json (Raw.usuarios s)) (Raw.sys s)
  /\ persisted (publicacionesFilePath cfg) (pubs_json (Raw.publicaciones s)) (Raw.sys s)
  /\ persisted (likesFilePath cfg) (Raw.likes_json (Raw.likes s)) (Raw.sys s).

Definition raw_loaded_of (s : Raw.State) : Loaded :=
  mkLoaded (users_json (Raw.usuarios s)) (pubs_json (Raw.publicaciones s))
    (Raw.likes_json (Raw.likes s)).

(** The path of the image that an event removes or stores: the one that a
    delete names, the one that multer writes. *)
Definition touched_image (cfg : Config) (e : Raw.Event) : option string :=
  match e with
  | Raw.Arrive _ (Raw.DELETE_publicaciones _ (Some publication)) =>
      Some (path_join (UPLOADS_DIR cfg) (split_pop (Pub.imagePath publication)))
  | Raw.Store now random originalname _ =>
      Some (path_join (UPLOADS_DIR cfg) (multer_filename now random originalname))
  | _ => None
  end.

(** An arrival of a registration for a username while a registration of
    that username waits for its hash. *)
Definition overlaps (e : Raw.Event) (p : Raw.Process) : Prop :=
  match e with
  | Raw.Arrive _ (Raw.POST_usuarios (Some name) _) => name ∈ map fst (Raw.awaiting p)
  | _ => False
  end.

(** A run in which no registration overlaps another of its username. *)
Fixpoint no_overlap (cfg : Config) (events : list Raw.Event) (p : Raw.Process) : Prop :=
  match events with
  | [] => True
  | e :: rest => ~ overlaps e p /\ no_overlap cfg rest (snd (Raw.step cfg e p))
  end.

(** The registry and the waiting registrations together hold each username
    once, and none is empty. *)
Definition registry_ok (p : Raw.Process) : Prop :=
  NoDup (map User.username (Raw.usuarios (Raw.mem p)) ++ map fst (Raw.awaiting p))
  /\ Forall (fun name => name <> "")
       (map User.username (Raw.usuarios (Raw.mem p)) ++ map fst (Raw.awaiting p)).

(** ** Scenarios

    Concrete configurations, runtimes and states on which the statements
    below are exercised. *)

Module Demo.

Definition cfg : Config := mkConfig true "/app/server".

(** A stand-in for bcrypt: it prefixes the password, and rejects nothing. *)
Definition rt : Runtime :=
  mkRuntime 1700000000000
    (fun pass => Some ("$2a$10$" +:+ pass))
    (fun pass hashed => Some (bool_decide (hashed = "$2a$10$" +:+ pass))).

(** A disk with the two directories of the server and nothing else. *)
Definition fresh_disk : FS :=
  mkFS ∅ {[ DATA_DIR cfg; UPLOADS_DIR cfg ]} ∅.

Definition s0 : State := mkState [] [] [] (mkSys fresh_disk []).

Definition a_png : Pub.t :=
  Pub.mk "https://servidor-c1k2.onrender.com/uploads/1-2.png" "a.png" "d" "ana" 1.

(** A second upload that shares the composite key of [a_png]. *)
Definition a_png_again : Pub.t :=
  Pub.mk "https://servidor-c1k2.onrender.com/uploads/1-2.png" "a.png" "otra" "luis" 2.

Definition b_png : Pub.t :=
  Pub.mk "https://servidor-c1k2.onrender.com/uploads/3-4.png" "b.png" "e" "luis" 3.

(** Two publications with one key, the first of them liked by ana. *)
Definition s_twins : State :=
  mkState [] [a_png; a_png_again; b_png]
    [Like.mk "ana" [a_png; b_png]; Like.mk "luis" [b_png]]
    (mkSys fresh_disk []).

(** The stored image of [a_png], on a disk that refuses to remove it. *)
Definition image_path : string := path_join (UPLOADS_DIR cfg) "1-2.png".

Definition locked_disk : FS :=
  mkFS {[ image_path := "PNG" ]} {[ DATA_DIR cfg; UPLOADS_DIR cfg ]} {[ image_path ]}.

Definition s_locked : State := mkState [] [a_png] [] (mkSys locked_disk []).


(** ana likes two publications. *)
Definition two_likes : list (Runtime * Request) :=
  [(rt, POST_likes "ana" a_png); (rt, POST_likes "ana" b_png)].

Definition s_liked : State := serve cfg two_likes s0.

(** ana likes a publication and takes the like back. *)
Definition like_and_unlike : list (Runtime * Request) :=
  [(rt, POST_likes "ana" a_png); (rt, DELETE_likes "ana" a_png)].

(** A disk whose user file does not hold JSON. *)
Definition broken_disk : FS :=
  mkFS {[ usuariosFilePath cfg := "[{oops" ]} {[ DATA_DIR cfg; UPLOADS_DIR cfg ]} ∅.

(** A disk whose user file holds numbers with a fraction and an exponent. *)
Definition numbers_disk : FS :=
  mkFS {[ usuariosFilePath cfg := "[1.5, 1e3, -25E-4]" ]} {[ DATA_DIR cfg; UPLOADS_DIR cfg ]} ∅.

(** A disk whose user file holds one user. *)
Definition ana_disk : FS :=
  disk (sys (snd (handle cfg rt (POST_usuarios (Some "ana") (Some "secret")) s0))).

(** A disk that takes no write to the user file. *)
Definition readonly_disk : FS :=
  mkFS ∅ {[ DATA_DIR cfg; UPLOADS_DIR cfg ]} {[ usuariosFilePath cfg ]}.

End Demo.

(** Further scenarios. *)

Module Scene.

(** A disk with nothing on it. *)
Definition empty_disk : FS := mkFS ∅ ∅ ∅.

(** The process after its first start on the empty disk. *)
Definition started : State :=
  mkState [] [] [] (snd (startup Demo.cfg (mkSys empty_disk []))).

(** A registration, an upload and two likes. *)
Definition session : list (Runtime * Request) :=
  [(Demo.rt, POST_usuarios (Some "ana") (Some "secret"));
   (Demo.rt, POST_upload (Some "1-2.png") "ana" "d" "a.png");
   (Demo.rt, POST_likes "ana" Demo.a_png);
   (Demo.rt, POST_likes "luis" Demo.b_png)].

Definition s_session : State := serve Demo.cfg session started.

(** ana is registered. *)
Definition s_ana : State :=
  snd (post_usuarios Demo.cfg Demo.rt (Some "ana") (Some "secret") Demo.s0).

(** A disk that holds the image that multer stored as [1-2.png]. *)
Definition image_disk : FS :=
  mkFS {[ Demo.image_path := "PNG" ]} {[ DATA_DIR Demo.cfg; UPLOADS_DIR Demo.cfg ]} ∅.

Definition s_image : State := mkState [] [] [] (mkSys image_disk []).

(** A process whose user file takes no write. *)
Definition s_readonly : State := mkState [] [] [] (mkSys Demo.readonly_disk []).

(** The process on the fresh disk, with no registration waiting. *)
Definition p0 : Raw.Process := Raw.mkProcess (raw_state Demo.s0) [].

(** Registrations of luis and of ana wait for their hashes. *)
Definition two_waiting : Raw.Process :=
  Raw.mkProcess (raw_state Demo.s0) [("luis", "clave"); ("ana", "secret")].

(** Two registrations of ana that overlap: the second arrives while the
    first waits for its hash. *)
Definition overlap : list Raw.Event :=
  [Raw.Arrive Demo.rt (Raw.POST_usuarios (Some "ana") (Some "secret"));
   Raw.Arrive Demo.rt (Raw.POST_usuarios (Some "ana") (Some "other"));
   Raw.Settle Demo.rt 0;
   Raw.Settle Demo.rt 0].

(** The same two registrations, the second after the answer to the first,
    with a registration of luis that overlaps both. *)
Definition in_turn : list Raw.Event :=
  [Raw.Arrive Demo.rt (Raw.POST_usuarios (Some "luis") (Some "clave"));
   Raw.Arrive Demo.rt (Raw.POST_usuarios (Some "ana") (Some "secret"));
   Raw.Settle Demo.rt 1;
   Raw.Arrive Demo.rt (Raw.POST_usuarios (Some "ana") (Some "other"));
   Raw.Settle Demo.rt 0].

(** The publication that the upload of [1-2.png] records. *)
Definition uploaded : Pub.t :=
  Pub.mk "https://servidor-c1k2.onrender.com/uploads/1-2.png" "a.png" "d" "ana"
    1700000000000.

(** An upload, a like whose body has no [publication], and the delete of
    the uploaded publication. *)
Definition lost_post : list Raw.Event :=
  [Raw.Store 1 2 "a.png" "PNG";
   Raw.Arrive Demo.rt (Raw.POST_upload (Some "1-2.png") "ana" "d" "a.png");
   Raw.Arrive Demo.rt (Raw.POST_likes "luis" None);
   Raw.Arrive Demo.rt (Raw.DELETE_publicaciones "ana" (Some uploaded))].

End Scene.

(** * Properties *)

(** ** Strings and paths *)

Lemma append_nil_l (s : string) : "" +:+ s = s.
Proof. reflexivity. Qed.

Lemma append_cons (c : ascii) (s t : string) : String c s +:+ t = String c (s +:+ t).
Proof. reflexivity. Qed.

Ltac str_simpl := repeat (rewrite append_nil_l || rewrite append_cons).

Lemma append_inj_l (d a b : string) : d +:+ a = d +:+ b -> a = b.
Proof.
  induction d as [|c d IH]; str_simpl; [done|].
  intros [= H]. auto.
Qed.

Lemma path_join_segment (d name : string) :
  segment name -> path_join d name = d +:+ "/" +:+ name.
Proof.
  intros (H1 & H2 & H3 & _). unfold path_join.
  destruct (String.eqb_spec name ""); [done|].
  destruct (String.eqb_spec name "."); [done|].
  by destruct (String.eqb_spec name "..").
Qed.

Ltac segment := repeat split; done.

Lemma last_slash_join (d name : string) :
  segment name -> last_slash (path_join d name) = Some (String.length d).
Proof.
  intros Hs. rewrite path_join_segment by done. destruct Hs as (_ & _ & _ & Hn).
  induction d as [|c d IH].
  - str_simpl. simpl. by rewrite Hn.
  - rewrite append_cons. simpl. by rewrite IH.
Qed.

Lemma substring_prefix (d rest : string) :
  String.substring 0 (String.length d) (d +:+ rest) = d.
Proof.
  induction d as [|c d IH]; str_simpl; simpl; [by destruct rest|]. by rewrite IH.
Qed.

Lemma path_dirname_join (d name : string) :
  d <> "" -> segment name -> path_dirname (path_join d name) = d.
Proof.
  intros Hd Hs. unfold path_dirname. rewrite last_slash_join by done.
  rewrite path_join_segment by done.
  destruct d as [|c d]; [done|]. cbn [String.length].
  apply (substring_prefix (String c d)).
Qed.

Lemma PERSISTENT_DIR_nonempty (cfg : Config) : PERSISTENT_DIR cfg <> "".
Proof.
  unfold PERSISTENT_DIR. destruct (RENDER_ENV cfg); [done|].
  rewrite path_join_segment by segment. by destruct (module_dirname cfg).
Qed.

Lemma DATA_DIR_nonempty (cfg : Config) : DATA_DIR cfg <> "".
Proof.
  unfold DATA_DIR. rewrite path_join_segment by segment. by destruct (PERSISTENT_DIR cfg).
Qed.



Lemma store_paths_elem (cfg : Config) :
  usuariosFilePath cfg ∈ store_paths cfg
  /\ publicacionesFilePath cfg ∈ store_paths cfg
  /\ likesFilePath cfg ∈ store_paths cfg.
Proof.
  unfold store_paths. split_and!.
  - apply list_elem_of_here.
  - apply list_elem_of_further, list_elem_of_here.
  - do 2 apply list_elem_of_further. apply list_elem_of_here.
Qed.

(** ** Lists *)

Lemma filter_none {A} (P : A -> Prop) `{!forall x, Decision (P x)} (l : list A) :
  Forall (fun x => ~ P x) l -> filter P l = [].
Proof.
  induction 1 as [|x l Hx _ IH]; [done|].
  by rewrite filter_cons_False.
Qed.

(** [findIndex] followed by [splice(index, 1)]: the array splits around the
    first element that satisfies the test. *)
Lemma list_find_split {A} (P : A -> Prop) `{!forall x, Decision (P x)}
    (l : list A) (i : nat) (x : A) :
  list_find P l = Some (i, x) ->
  exists before after,
    l = before ++ x :: after /\ length before = i /\ P x
    /\ Forall (fun y => ~ P y) before /\ delete i l = before ++ after.
Proof.
  intros (Hi & HP & Hlt)%list_find_Some.
  exists (take i l), (drop (S i) l). split_and!.
  - by rewrite take_drop_middle.
  - apply length_take_le. apply lookup_lt_Some in Hi. lia.
  - done.
  - apply Forall_lookup_2. intros j y [Hj Hji]%lookup_take_Some. eauto.
  - apply delete_take_drop.
Qed.

(** ** The JSON round trip *)

Lemma append_assoc (a b c : string) : (a +:+ b) +:+ c = a +:+ b +:+ c.
Proof. induction a as [|x a IH]; str_simpl; [done|]. by rewrite IH. Qed.

Lemma length_append (a b : string) :
  String.length (a +:+ b) = String.length a + String.length b.
Proof. induction a as [|x a IH]; str_simpl; simpl; [done|]. by rewrite IH. Qed.

Lemma strip_prefix_app (p rest : string) : strip_prefix p (p +:+ rest) = Some rest.
Proof.
  induction p as [|a p IH]; str_simpl; simpl; [done|].
  by rewrite Ascii.eqb_refl.
Qed.

(** *** String literals *)

Lemma parse_chars_escape_char (c : ascii) (t : string) :
  parse_chars (escape_char c +:+ t)
  = match parse_chars t with
    | Some (t', r) => Some (String c t', r)
    | None => None
    end.
Proof.
  destruct c as [[] [] [] [] [] [] [] []]; reflexivity.
Qed.

Lemma parse_chars_escape (s rest : string) :
  parse_chars (escape s +:+ String quote_char rest) = Some (s, rest).
Proof.
  induction s as [|c s IH]; simpl.
  - reflexivity.
  - rewrite append_assoc, parse_chars_escape_char. by rewrite IH.
Qed.

Lemma parse_string_quote (s rest : string) :
  parse_string (quote s +:+ rest) = Some (s, rest).
Proof.
  unfold quote. rewrite append_cons. simpl.
  rewrite append_assoc. apply parse_chars_escape.
Qed.

(** *** Numbers *)


Lemma parse_digits_uint (d : uint) (rest : string) :
  terminated rest ->
  parse_digits (string_of_uint d +:+ rest) = (d, rest).
Proof.
  intros Ht. induction d; simpl; str_simpl;
    try (change (parse_digits (String ?c ?r)) with
           (match digit_of_ascii c with
            | Some D => let '(d, r') := parse_digits r in (D d, r')
            | None => (Nil, String c r)
            end); simpl; by rewrite IHd).
  destruct rest as [|c r]; [done|]. destruct Ht as [Hd _]. simpl. by rewrite Hd.
Qed.

Lemma leading_zero_unorm (d : uint) : unorm d = d -> leading_zero d = false.
Proof.
  destruct d as [|u| | | | | | | | |]; try done.
  destruct u; try done; intros H; exfalso;
    rewrite unorm_D0 in H;
    match type of H with unorm ?x = _ =>
      assert (Hn := nb_digits_unorm x ltac:(discriminate)) end;
    rewrite H in Hn; simpl in Hn; lia.
Qed.

Lemma to_uint_normal (p : positive) : unorm (Pos.to_uint p) = Pos.to_uint p.
Proof.
  rewrite <- (DecimalPos.Unsigned.to_of (Pos.to_uint p)).
  by rewrite DecimalPos.Unsigned.of_to.
Qed.

Lemma to_uint_not_nil (p : positive) : Pos.to_uint p <> Nil.
Proof.
  intros H. pose proof (DecimalPos.Unsigned.of_to p) as E. rewrite H in E. discriminate.
Qed.

Lemma terminated_no_fraction (rest : string) : terminated rest -> starts_fraction rest = false.
Proof. destruct rest; [done|]. by intros [_ ?]. Qed.

Lemma parse_unsigned_uint (d : uint) (rest : string) :
  d <> Nil -> leading_zero d = false -> terminated rest ->
  parse_unsigned (string_of_uint d +:+ rest) = Some (d, rest).
Proof.
  intros Hd Hz Ht. unfold parse_unsigned.
  rewrite parse_digits_uint by done.
  rewrite Hz. by destruct d.
Qed.

(** What follows an integer of the server is neither a fraction nor an
    exponent. *)
Lemma parse_fraction_terminated (rest : string) :
  terminated rest -> parse_fraction rest = Some (Nil, rest).
Proof.
  intros Ht. apply terminated_no_fraction in Ht.
  destruct rest as [|c r]; [done|]. simpl in *.
  apply orb_false_elim in Ht as [Ht _]. apply orb_false_elim in Ht as [-> _]. done.
Qed.

Lemma parse_exponent_terminated (rest : string) :
  terminated rest -> parse_exponent rest = Some (0%Z, rest).
Proof.
  intros Ht. apply terminated_no_fraction in Ht.
  destruct rest as [|c r]; [done|]. simpl in *.
  apply orb_false_elim in Ht as [Ht ->]. apply orb_false_elim in Ht as [_ ->]. done.
Qed.

Lemma number_value_integer (m : Z) : number_value m 0 = JNum m.
Proof.
  unfold number_value. destruct (Z.eqb_spec m 0) as [->|_]; [done|].
  simpl. f_equal. lia.
Qed.

Lemma parse_number_digits (negative : bool) (d : uint) (rest : string) :
  d <> Nil -> leading_zero d = false -> terminated rest ->
  (let '(_, s1) := (negative, string_of_uint d +:+ rest) in
   '(d', r) ← parse_unsigned s1;
   '(f, r1) ← parse_fraction r;
   '(x, r2) ← parse_exponent r1;
   let m := (Z.of_uint d' * 10 ^ Z.of_nat (nb_digits f) + Z.of_uint f)%Z in
   Some (number_value (if negative then (- m)%Z else m) (x - Z.of_nat (nb_digits f)), r2))
  = Some (JNum (if negative then (- Z.of_uint d)%Z else Z.of_uint d), rest).
Proof.
  intros Hd Hz Ht. cbv zeta beta iota.
  rewrite parse_unsigned_uint by done. cbn [mbind option_bind].
  rewrite parse_fraction_terminated by done. cbn [mbind option_bind].
  rewrite parse_exponent_terminated by done. cbn [mbind option_bind nb_digits].
  change (Z.of_uint Nil) with 0%Z. change (Z.of_nat 0) with 0%Z.
  rewrite Z.sub_0_r.
  replace (Z.of_uint d * 10 ^ 0 + 0)%Z with (Z.of_uint d) by lia.
  by rewrite number_value_integer.
Qed.


Lemma to_int_plain (n : Z) :
  match Z.to_int n with Pos d | Neg d => plain_digits d end.
Proof.
  destruct n as [|p|p]; simpl; [done|..];
    (split; [apply to_uint_not_nil|apply leading_zero_unorm, to_uint_normal]).
Qed.

Lemma parse_number_to_string (n : Z) (rest : string) :
  terminated rest ->
  parse_number (number_to_string n +:+ rest) = Some (JNum n, rest).
Proof.
  intros Ht. unfold number_to_string.
  pose proof (to_int_plain n) as Hp. pose proof (DecimalZ.of_to n) as Hn.
  destruct (Z.to_int n) as [d|d]; destruct Hp as [Hd Hz].
  - pose proof (parse_number_digits false d rest Hd Hz Ht) as H.
    cbv zeta beta iota in H. rewrite <- Hn.
    assert (parse_number (string_of_uint d +:+ rest)
            = ('(d', r) ← parse_unsigned (string_of_uint d +:+ rest);
               '(f, r1) ← parse_fraction r;
               '(x, r2) ← parse_exponent r1;
               let m := (Z.of_uint d' * 10 ^ Z.of_nat (nb_digits f) + Z.of_uint f)%Z in
               Some (number_value m (x - Z.of_nat (nb_digits f)), r2))) as ->
      by (by destruct d).
    exact H.
  - pose proof (parse_number_digits true d rest Hd Hz Ht) as H.
    cbv zeta beta iota in H. rewrite <- Hn. rewrite append_cons.
    assert (parse_number (String "-" (string_of_uint d +:+ rest))
            = ('(d', r) ← parse_unsigned (string_of_uint d +:+ rest);
               '(f, r1) ← parse_fraction r;
               '(x, r2) ← parse_exponent r1;
               let m := (Z.of_uint d' * 10 ^ Z.of_nat (nb_digits f) + Z.of_uint f)%Z in
               Some (number_value (- m) (x - Z.of_nat (nb_digits f)), r2))) as ->
      by reflexivity.
    exact H.
Qed.

Lemma parse_value_number (fuel : nat) (n : Z) (rest : string) :
  parse_value (S fuel) (number_to_string n +:+ rest)
  = parse_number (number_to_string n +:+ rest).
Proof.
  unfold number_to_string.
  pose proof (to_int_plain n) as Hp.
  destruct (Z.to_int n) as [d|d]; destruct Hp as [Hd _].
  - destruct d; done.
  - done.
Qed.

(** *** White space *)

Lemma skip_ws_blank (w x : string) : blank w = true -> skip_ws (w +:+ x) = skip_ws x.
Proof.
  induction w as [|c w IH]; str_simpl; simpl; [done|].
  intros [-> Hw]%andb_prop. auto.
Qed.

Lemma blank_app (a b : string) : blank (a +:+ b) = blank a && blank b.
Proof.
  induction a as [|c a IH]; str_simpl; simpl; [done|].
  by rewrite IH, andb_assoc.
Qed.

Lemma blank_indent (ind : string) : blank ind = true -> blank (ind +:+ gap) = true.
Proof. intros H. by rewrite blank_app, H. Qed.

Lemma blank_nl_indent (ind : string) : blank ind = true -> blank (nl +:+ ind) = true.
Proof. intros H. by rewrite blank_app, H. Qed.

Lemma parse_value_S (fuel : nat) (s : string) :
  parse_value (S fuel) s = parse_head (parse_value fuel) fuel (skip_ws s).
Proof. reflexivity. Qed.

Lemma parse_value_skip (fuel : nat) (w x : string) :
  blank w = true -> parse_value fuel (w +:+ x) = parse_value fuel x.
Proof.
  intros Hw. destruct fuel; [done|]. by rewrite !parse_value_S, skip_ws_blank.
Qed.

Lemma parse_items_skip (fuel n : nat) (w x : string) :
  blank w = true ->
  parse_items (parse_value fuel) n (w +:+ x) = parse_items (parse_value fuel) n x.
Proof. intros Hw. destruct n; [done|]. simpl. by rewrite parse_value_skip. Qed.

Lemma parse_members_skip (fuel n : nat) (w x : string) (acc : list (string * json)) :
  blank w = true ->
  parse_members (parse_value fuel) n (w +:+ x) acc
  = parse_members (parse_value fuel) n x acc.
Proof. intros Hw. destruct n; [done|]. simpl. by rewrite skip_ws_blank. Qed.

(** The first character of a serialised value: not white space, and not a
    closing bracket. *)
Lemma stringify_head (ind : string) (v : json) :
  wf_json v = true ->
  exists c t, stringify_at ind v = String c t
    /\ is_ws c = false /\ N_of_ascii c <> 93%N.
Proof.
  intros Hwf.
  destruct v as [|[]|n|m e|s|[|x l]|[|m l]]; try done; try (by eexists _, _).
  simpl. unfold number_to_string. pose proof (to_int_plain n) as Hp.
  destruct (Z.to_int n) as [d|d]; [|by eexists _, _].
  destruct Hp as [Hd _]. destruct d; try done; by eexists _, _.
Qed.

Lemma skip_ws_stringify (ind : string) (v : json) (x : string) :
  wf_json v = true ->
  skip_ws (stringify_at ind v +:+ x) = stringify_at ind v +:+ x.
Proof.
  intros Hwf. destruct (stringify_head ind v Hwf) as (c & t & -> & Hc & _).
  rewrite append_cons. simpl. by rewrite Hc.
Qed.

Lemma not_closing_stringify (ind : string) (v : json) (x : string) :
  wf_json v = true ->
  starts_with 93 (stringify_at ind v +:+ x) = None.
Proof.
  intros Hwf. destruct (stringify_head ind v Hwf) as (c & t & -> & _ & Hc).
  rewrite append_cons. simpl. by rewrite (proj2 (N.eqb_neq _ _) Hc).
Qed.

Lemma terminated_nl (x : string) : terminated (nl +:+ x).
Proof. done. Qed.

Lemma terminated_comma (x : string) : terminated ("," +:+ x).
Proof. done. Qed.

(** *** Arrays *)

Lemma join_cons2 (sep p q : string) (l : list string) :
  join sep (p :: q :: l) = p +:+ sep +:+ join sep (q :: l).
Proof. reflexivity. Qed.

Lemma parse_items_more (p : parser json) (n : nat) (s r : string) (v : json) :
  p s = Some (v, "," +:+ r) ->
  parse_items p (S n) s
  = match parse_items p n r with
    | Some (vs, r') => Some (v :: vs, r')
    | None => None
    end.
Proof. intros H. simpl. rewrite H. reflexivity. Qed.

Lemma parse_items_last (p : parser json) (n : nat) (s r rest : string) (v : json) :
  p s = Some (v, r) -> skip_ws r = "]" +:+ rest ->
  parse_items p (S n) s = Some ([v], rest).
Proof. intros H Hr. simpl. rewrite H. simpl. rewrite Hr. reflexivity. Qed.

Lemma parse_items_join (fuel : nat) (ind ind' : string) (items : list json) :
  blank ind = true -> blank ind' = true -> items <> [] ->
  (forall v r, v ∈ items -> terminated r ->
     parse_value fuel (stringify_at ind' v +:+ r) = Some (v, r)) ->
  forall n rest, length items <= n ->
  parse_items (parse_value fuel) n
    (join ("," +:+ nl +:+ ind') (map (stringify_at ind') items)
       +:+ nl +:+ ind +:+ "]" +:+ rest)
  = Some (items, rest).
Proof.
  intros Hi Hi' Hne Hp. induction items as [|v items IH]; [done|].
  intros n rest Hn. destruct n as [|n]; [simpl in Hn; lia|].
  destruct items as [|v' items].
  - eapply parse_items_last.
    + apply Hp; [set_solver|apply terminated_nl].
    + rewrite (skip_ws_blank nl), skip_ws_blank by done. by str_simpl.
  - rewrite map_cons, map_cons, join_cons2, <- map_cons. rewrite !append_assoc.
    erewrite parse_items_more; [|apply Hp; [set_solver|apply terminated_comma]].
    rewrite (parse_items_skip _ _ nl) by done. rewrite parse_items_skip by done.
    rewrite IH; [done|done| |simpl in *; lia].
    intros v0 r Hin. apply Hp. set_solver.
Qed.

(** *** Objects *)

Lemma parse_members_more (p : parser json) (n : nat) (s x r1 r3 : string)
    (k : string) (v : json) (acc : list (string * json)) :
  skip_ws s = quote k +:+ x -> skip_ws x = ":" +:+ r1 ->
  p r1 = Some (v, "," +:+ r3) ->
  parse_members p (S n) s acc = parse_members p n r3 (obj_set k v acc).
Proof.
  intros Hs Hx Hp. simpl. rewrite Hs, parse_string_quote. simpl.
  rewrite Hx. str_simpl. simpl. rewrite Hp. reflexivity.
Qed.

Lemma parse_members_last (p : parser json) (n : nat) (s x r1 r2 rest : string)
    (k : string) (v : json) (acc : list (string * json)) :
  skip_ws s = quote k +:+ x -> skip_ws x = ":" +:+ r1 ->
  p r1 = Some (v, r2) -> skip_ws r2 = "}" +:+ rest ->
  parse_members p (S n) s acc = Some (obj_set k v acc, rest).
Proof.
  intros Hs Hx Hp Hr. simpl. rewrite Hs, parse_string_quote. simpl.
  rewrite Hx. str_simpl. simpl. rewrite Hp. simpl. rewrite Hr. reflexivity.
Qed.

Lemma skip_ws_quote (k x : string) : skip_ws (quote k +:+ x) = quote k +:+ x.
Proof. reflexivity. Qed.

(** The text of one member of an object. *)
Lemma member_text (ind' : string) (m : string * json) (x : string) :
  (quote (fst m) +:+ ": " +:+ stringify_at ind' (snd m)) +:+ x
  = quote (fst m) +:+ ":" +:+ " " +:+ stringify_at ind' (snd m) +:+ x.
Proof. rewrite !append_assoc. reflexivity. Qed.

Lemma join_cons_ne (sep p : string) (l : list string) :
  l <> [] -> join sep (p :: l) = p +:+ sep +:+ join sep l.
Proof. by destruct l. Qed.

Lemma parse_members_join (fuel : nat) (ind ind' : string) (members : list (string * json)) :
  blank ind = true -> blank ind' = true -> members <> [] ->
  (forall m r, m ∈ members -> terminated r ->
     parse_value fuel (stringify_at ind' (snd m) +:+ r) = Some (snd m, r)) ->
  forall n rest acc, length members <= n ->
  parse_members (parse_value fuel) n
    (join ("," +:+ nl +:+ ind')
       (map (fun m => quote (fst m) +:+ ": " +:+ stringify_at ind' (snd m)) members)
       +:+ nl +:+ ind +:+ "}" +:+ rest) acc
  = Some (fold_left add_member members acc, rest).
Proof.
  intros Hi Hi' Hne Hp. induction members as [|m members IH]; [done|].
  intros n rest acc Hn. destruct n as [|n]; [simpl in Hn; lia|].
  destruct members as [|m' members].
  - cbn [map join]. rewrite member_text.
    eapply parse_members_last.
    + apply skip_ws_quote.
    + reflexivity.
    + rewrite (parse_value_skip _ " ") by done.
      apply Hp; [set_solver|apply terminated_nl].
    + rewrite (skip_ws_blank nl), skip_ws_blank by done. by str_simpl.
  - set (f := fun m : string * json => quote (fst m) +:+ ": " +:+ stringify_at ind' (snd m)) in *.
    change (map f (m :: m' :: members)) with (f m :: map f (m' :: members)).
    rewrite join_cons_ne by done. unfold f at 1.
    rewrite append_assoc, member_text. rewrite !append_assoc.
    erewrite parse_members_more; [|apply skip_ws_quote|reflexivity|].
    2:{ rewrite (parse_value_skip _ " ") by done.
        apply Hp; [set_solver|apply terminated_comma]. }
    rewrite (parse_members_skip _ _ nl) by done. rewrite parse_members_skip by done.
    rewrite IH; [done|done| |simpl in *; lia].
    intros m0 r Hin. apply Hp. set_solver.
Qed.

Lemma obj_set_fresh (k : string) (v : json) (o : list (string * json)) :
  k ∉ map fst o -> property_order (map fst o ++ [k]) = true ->
  obj_set k v o = o ++ [(k, v)].
Proof.
  induction o as [|[k' v'] o IH]; simpl; [done|].
  intros [Hne Hk]%not_elem_of_cons [Hfirst Hrest]%andb_prop.
  rewrite decide_False by done.
  rewrite forallb_app in Hfirst. apply andb_prop in Hfirst as [_ Hlast].
  simpl in Hlast. rewrite andb_true_r in Hlast. apply negb_true_iff in Hlast.
  rewrite Hlast. by rewrite IH.
Qed.

Lemma property_order_app_l (a b : list string) :
  property_order (a ++ b) = true -> property_order a = true.
Proof.
  induction a as [|k a IH]; simpl; [done|].
  intros [Hfirst Hrest]%andb_prop.
  rewrite forallb_app in Hfirst. apply andb_prop in Hfirst as [-> _]. auto.
Qed.

Lemma add_members_fresh (members acc : list (string * json)) :
  NoDup (map fst (acc ++ members)) ->
  property_order (map fst (acc ++ members)) = true ->
  fold_left add_member members acc = acc ++ members.
Proof.
  revert acc. induction members as [|[k v] members IH]; intros acc Hnd Hord; simpl.
  - by rewrite app_nil_r.
  - unfold add_member at 2. simpl. rewrite obj_set_fresh.
    + rewrite IH; by rewrite <- app_assoc.
    + rewrite map_app in Hnd. apply NoDup_app in Hnd as (_ & Hd & _).
      intros Hin. apply (Hd k Hin). simpl. left.
    + rewrite map_app in Hord. simpl in Hord.
      change (k :: map fst members) with ([k] ++ map fst members) in Hord.
      rewrite app_assoc in Hord. by apply property_order_app_l in Hord.
Qed.

(** *** Values *)

Lemma size_pos (v : json) : 1 <= size v.
Proof. destruct v; simpl; lia. Qed.

Lemma list_sum_elem {A} (f : A -> nat) (x : A) (l : list A) :
  x ∈ l -> f x <= list_sum (map f l).
Proof.
  induction l as [|y l IH]; simpl; [by intros ?%elem_of_nil|].
  intros [->|Hin]%elem_of_cons; [lia|]. specialize (IH Hin). lia.
Qed.

Lemma length_le_sum {A} (f : A -> nat) (l : list A) :
  (forall x, 1 <= f x) -> length l <= list_sum (map f l).
Proof.
  intros Hf. induction l as [|y l IH]; simpl; [lia|]. specialize (Hf y). lia.
Qed.

Lemma forallb_elem {A} (f : A -> bool) (l : list A) (x : A) :
  forallb f l = true -> x ∈ l -> f x = true.
Proof. rewrite forallb_forall. intros H Hin. by apply H, list_elem_of_In. Qed.

Lemma join_head (sep p y : string) (l : list string) :
  exists z, join sep (p :: l) +:+ y = p +:+ z.
Proof.
  destruct l as [|q l]; [by exists y|].
  exists (sep +:+ join sep (q :: l) +:+ y). by rewrite join_cons2, !append_assoc.
Qed.

Lemma parse_head_array (p : parser json) (n : nat) (r : string) :
  parse_head p n ("[" +:+ r)
  = match starts_with 93 (skip_ws r) with
    | Some r' => Some (JArr [], r')
    | None =>
        match parse_items p n r with
        | Some (vs, r') => Some (JArr vs, r')
        | None => None
        end
    end.
Proof. reflexivity. Qed.

Lemma parse_head_object (p : parser json) (n : nat) (r : string) :
  parse_head p n ("{" +:+ r)
  = match starts_with 125 (skip_ws r) with
    | Some r' => Some (JObj [], r')
    | None =>
        match parse_members p n r [] with
        | Some (ms, r') => Some (JObj ms, r')
        | None => None
        end
    end.
Proof. reflexivity. Qed.

Lemma parse_head_string (p : parser json) (n : nat) (s rest : string) :
  parse_head p n (quote s +:+ rest) = Some (JStr s, rest).
Proof.
  unfold quote. rewrite append_cons, append_assoc, append_cons, append_nil_l.
  change (parse_head p n (String quote_char ?r))
    with (match parse_chars r with Some (t, r') => Some (JStr t, r') | None => None end).
  by rewrite parse_chars_escape.
Qed.

Theorem parse_value_stringify (fuel : nat) :
  forall (v : json) (ind rest : string),
    size v <= fuel -> wf_json v = true -> blank ind = true -> terminated rest ->
    parse_value fuel (stringify_at ind v +:+ rest) = Some (v, rest).
Proof.
  induction fuel as [|fuel IH]; intros v ind rest Hsize Hwf Hind Hrest.
  { pose proof (size_pos v). lia. }
  destruct v as [|[]|n|m e|s|[|x l]|[|m l]].
  - reflexivity.
  - reflexivity.
  - reflexivity.
  - cbn [stringify_at]. rewrite parse_value_number. by apply parse_number_to_string.
  - done.
  - rewrite parse_value_S, skip_ws_stringify by done. apply parse_head_string.
  - reflexivity.
  - rewrite parse_value_S, skip_ws_stringify by done.
    cbn [stringify_at]. set (ind' := ind +:+ gap).
    rewrite !append_assoc, parse_head_array.
    set (items := x :: l) in *.
    change (size (JArr items)) with (S (list_sum (map size items))) in Hsize.
    cbn [wf_json] in Hwf.
    assert (Hx : wf_json x = true) by (eapply forallb_elem; [exact Hwf|left]).
    assert (Hind' : blank ind' = true) by by apply blank_indent.
    rewrite (skip_ws_blank nl), skip_ws_blank by done.
    destruct (join_head ("," +:+ nl +:+ ind') (stringify_at ind' x)
                (nl +:+ ind +:+ "]" +:+ rest) (map (stringify_at ind') l)) as [z Hz].
    change (stringify_at ind' x :: map (stringify_at ind') l)
      with (map (stringify_at ind') items) in Hz.
    rewrite Hz, skip_ws_stringify, not_closing_stringify, <- Hz by done.
    rewrite (parse_items_skip _ _ nl), parse_items_skip by done.
    rewrite parse_items_join; try done.
    + intros v r Hin Hr. apply IH; try done.
      * pose proof (list_sum_elem size v items Hin). lia.
      * by eapply forallb_elem.
    + pose proof (length_le_sum size items size_pos). lia.
  - reflexivity.
  - rewrite parse_value_S, skip_ws_stringify by done.
    cbn [stringify_at]. set (ind' := ind +:+ gap).
    set (f := fun m : string * json => quote (fst m) +:+ ": " +:+ stringify_at ind' (snd m)).
    rewrite !append_assoc, parse_head_object.
    set (members := m :: l) in *.
    change (size (JObj members))
      with (S (list_sum (map (fun m => size (snd m)) members))) in Hsize.
    cbn [wf_json] in Hwf. apply andb_prop in Hwf as [Hnd Hwf].
    apply andb_prop in Hnd as [Hnd Hord].
    apply bool_decide_eq_true in Hnd.
    assert (Hind' : blank ind' = true) by by apply blank_indent.
    rewrite (skip_ws_blank nl), skip_ws_blank by done.
    destruct (join_head ("," +:+ nl +:+ ind') (f m)
                (nl +:+ ind +:+ "}" +:+ rest) (map f l)) as [z Hz].
    change (f m :: map f l) with (map f members) in Hz.
    rewrite Hz. unfold f at 1. rewrite append_assoc, skip_ws_quote.
    assert (starts_with 125 (quote (fst m) +:+ (": " +:+ stringify_at ind' (snd m)) +:+ z) = None)
      as -> by reflexivity.
    rewrite <- append_assoc. change (quote (fst m) +:+ ": " +:+ stringify_at ind' (snd m)) with (f m).
    rewrite <- Hz.
    rewrite (parse_members_skip _ _ (nl +:+ ind')) by by apply blank_nl_indent.
    unfold f. rewrite parse_members_join; try done.
    + by rewrite add_members_fresh.
    + intros m0 r Hin Hr. apply IH; try done.
      * pose proof (list_sum_elem (fun m => size (snd m)) m0 members Hin). simpl in *. lia.
      * by eapply (forallb_elem (fun m => wf_json (snd m))).
    + pose proof (length_le_sum (fun m => size (snd m)) members (fun m => size_pos (snd m))). lia.
Qed.

Lemma length_join (sep : string) (parts : list string) :
  list_sum (map String.length parts) <= String.length (join sep parts).
Proof.
  induction parts as [|p parts IH]; [done|].
  destruct parts as [|q parts]; [simpl; lia|].
  rewrite join_cons2, !length_append. simpl in *. lia.
Qed.

Lemma list_sum_le {A} (f g : A -> nat) (l : list A) :
  (forall x, x ∈ l -> f x <= g x) -> list_sum (map f l) <= list_sum (map g l).
Proof.
  induction l as [|y l IH]; intros H; simpl; [done|].
  pose proof (H y ltac:(left)). assert (list_sum (map f l) <= list_sum (map g l)).
  { apply IH. intros x Hx. apply H. by right. }
  lia.
Qed.

(** The text of a value has at least one character per value in it, so the
    fuel that [parse] takes from the length of the text is enough. *)
Lemma size_le_length (n : nat) :
  forall (v : json) (ind : string),
    wf_json v = true ->
    size v <= n -> size v <= String.length (stringify_at ind v).
Proof.
  induction n as [|n IH]; intros v ind Hwf Hn.
  { pose proof (size_pos v). lia. }
  destruct (stringify_head ind v Hwf) as (c & t & E & _).
  destruct v as [|[]|k|m e|s|[|x l]|[|m l]];
    try (rewrite E; simpl; lia); clear E.
  - cbn [stringify_at]. set (ind' := ind +:+ gap). set (items := x :: l) in *.
    change (size (JArr items)) with (S (list_sum (map size items))) in *.
    cbn [wf_json] in Hwf.
    rewrite !length_append.
    pose proof (length_join ("," +:+ nl +:+ ind') (map (stringify_at ind') items)) as Hj.
    rewrite map_map in Hj.
    pose proof (list_sum_le size (fun v => String.length (stringify_at ind' v)) items) as Hl.
    assert (list_sum (map size items)
            <= list_sum (map (fun v => String.length (stringify_at ind' v)) items)).
    { apply Hl. intros v Hin. apply IH; [by eapply forallb_elem|].
      pose proof (list_sum_elem size v items Hin). lia. }
    change (String.length "[") with 1. lia.
  - cbn [stringify_at]. set (ind' := ind +:+ gap).
    set (f := fun m : string * json => quote (fst m) +:+ ": " +:+ stringify_at ind' (snd m)).
    set (members := m :: l) in *.
    change (size (JObj members))
      with (S (list_sum (map (fun m => size (snd m)) members))) in *.
    cbn [wf_json] in Hwf. apply andb_prop in Hwf as [_ Hwf].
    rewrite !length_append.
    pose proof (length_join ("," +:+ nl +:+ ind') (map f members)) as Hj.
    rewrite map_map in Hj.
    pose proof (list_sum_le (fun m => size (snd m)) (fun m => String.length (f m)) members) as Hl.
    assert (list_sum (map (fun m => size (snd m)) members)
            <= list_sum (map (fun m => String.length (f m)) members)).
    { apply Hl. intros m0 Hin. unfold f. rewrite !length_append.
      assert (size (snd m0) <= String.length (stringify_at ind' (snd m0))); [|lia].
      apply IH; [by eapply (forallb_elem (fun m => wf_json (snd m)))|].
      pose proof (list_sum_elem (fun m => size (snd m)) m0 members Hin). simpl in *. lia. }
    change (String.length "{") with 1. lia.
Qed.

Lemma append_nil_r (s : string) : s +:+ "" = s.
Proof. induction s as [|c s IH]; [done|]. str_simpl. by rewrite IH. Qed.

(** [JSON.parse(JSON.stringify(v, null, 2))] gives [v] back. *)
Theorem parse_stringify (v : json) : wf_json v = true -> parse (stringify v) = Some v.
Proof.
  intros Hwf. unfold parse, stringify.
  assert (Hsize : size v <= S (String.length (stringify_at "" v))).
  { pose proof (size_le_length (size v) v "" Hwf ltac:(lia)). lia. }
  pose proof (parse_value_stringify _ v "" "" Hsize Hwf eq_refl I) as H.
  rewrite append_nil_r in H. by rewrite H.
Qed.

(** ** The disk *)

Lemma writeJsonFile_try_writable (filePath : string) (data : json) (d : FS) :
  writable filePath d = true ->
  exists d', writeJsonFile_try filePath data d = (d', None)
    /\ files d' = <[filePath := stringify data]> (files d)
    /\ denied d' = denied d
    /\ dirs d ⊆ dirs d'
    /\ dirs d' ⊆ {[path_dirname filePath]} ∪ dirs d
    /\ path_dirname filePath ∈ dirs d'.
Proof.
  unfold writable. intros H.
  rewrite !andb_true_iff, orb_true_iff, !andb_true_iff, !negb_true_iff,
    !bool_decide_eq_false, bool_decide_eq_true in H.
  destruct H as [[Hden Hnd] Hdir].
  assert (Hw : forall d0, denied d0 = denied d ->
            dirs d0 ⊆ {[path_dirname filePath]} ∪ dirs d ->
            path_dirname filePath ∈ dirs d0 ->
            (path_dirname filePath ∈ dirs d \/ path_dirname filePath <> filePath) ->
            writeFileSync filePath (stringify data) d0
            = Ok (mkFS (<[filePath := stringify data]> (files d0)) (dirs d0) (denied d0))).
  { intros d0 Hd0 Hsub Hin Hne. unfold writeFileSync.
    rewrite Hd0, (bool_decide_eq_false_2 _ Hden).
    assert (Hn0 : filePath ∉ dirs d0).
    { intros Hin0. apply Hsub, elem_of_union in Hin0 as [Heq%elem_of_singleton|?]; [|done].
      destruct Hne as [?|Hne]; [congruence|by apply Hne]. }
    rewrite (bool_decide_eq_false_2 _ Hn0).
    by rewrite (bool_decide_eq_true_2 _ Hin). }
  unfold writeJsonFile_try, existsSync.
  destruct (decide (path_dirname filePath ∈ dirs d)) as [Hin|Hnin].
  - rewrite (bool_decide_eq_true_2 _ Hin), orb_true_r.
    rewrite Hw; [|done|set_solver|done|by left].
    eexists; split; [done|]. simpl. split_and!; [done|done|done|set_solver|done].
  - destruct Hdir as [?|[[Hnf Hdd] Hne]]; [done|].
    rewrite (bool_decide_eq_false_2 _ Hnf), (bool_decide_eq_false_2 _ Hnin). simpl.
    unfold mkdirSync.
    rewrite (bool_decide_eq_false_2 _ Hdd), (bool_decide_eq_false_2 _ Hnf).
    rewrite Hw; simpl; [|done|set_solver|set_solver|by right].
    eexists; split; [done|]. simpl. split_and!; [done|done|set_solver|done|set_solver].
Qed.

(** [writable] is exactly the condition under which the write goes
    through. *)
Lemma writable_spec (filePath : string) (data : json) (d : FS) :
  writable filePath d = true <-> snd (writeJsonFile_try filePath data d) = None.
Proof.
  split.
  - intros H. by destruct (writeJsonFile_try_writable filePath data d H) as (d' & -> & _).
  - unfold writable, writeJsonFile_try, existsSync, mkdirSync, writeFileSync.
    destruct (decide (filePath ∈ denied d)) as [Hden|Hden];
    destruct (decide (filePath ∈ dirs d)) as [Hdir|Hdir];
    destruct (decide (path_dirname filePath ∈ dirs d)) as [Hpd|Hpd];
    destruct (decide (is_Some (files d !! path_dirname filePath))) as [Hpf|Hpf];
    destruct (decide (path_dirname filePath ∈ denied d)) as [Hpden|Hpden];
    destruct (decide (path_dirname filePath = filePath)) as [Heq|Heq];
    rewrite ?(bool_decide_eq_true_2 _ Hden), ?(bool_decide_eq_false_2 _ Hden),
      ?(bool_decide_eq_true_2 _ Hdir), ?(bool_decide_eq_false_2 _ Hdir),
      ?(bool_decide_eq_true_2 _ Hpd), ?(bool_decide_eq_false_2 _ Hpd),
      ?(bool_decide_eq_true_2 _ Hpf), ?(bool_decide_eq_false_2 _ Hpf),
      ?(bool_decide_eq_true_2 _ Hpden), ?(bool_decide_eq_false_2 _ Hpden),
      ?(bool_decide_eq_true_2 _ Heq), ?(bool_decide_eq_false_2 _ Heq);
    simpl; try done;
    rewrite ?(bool_decide_eq_true_2 _ Hden), ?(bool_decide_eq_false_2 _ Hden); simpl; try done;
    repeat (case_bool_decide; simpl; try done); set_solver.
Qed.

Lemma writeJsonFile_persists (filePath : string) (data : json) (y : Sys) :
  writable filePath (disk y) = true ->
  persisted filePath data (writeJsonFile filePath data y).
Proof.
  intros H. destruct (writeJsonFile_try_writable filePath data _ H) as (d' & E & Hf & _).
  unfold persisted, writeJsonFile. rewrite E. simpl. rewrite Hf.
  apply lookup_insert_eq.
Qed.

Lemma writeJsonFile_other (filePath other : string) (data : json) (y : Sys) :
  other <> filePath ->
  files (disk (writeJsonFile filePath data y)) !! other = files (disk y) !! other.
Proof.
  intros Hne. unfold writeJsonFile, writeJsonFile_try, existsSync, mkdirSync, writeFileSync.
  repeat (case_bool_decide; simpl; try done); by rewrite lookup_insert_ne.
Qed.


(** ** The record store *)

(** Reading back what [writeJsonFile] has just put on the disk. *)
Lemma readJsonFile_after_write (filePath : string) (data : json) (y : Sys) :
  wf_json data = true ->
  writable filePath (disk y) = true ->
  fst (readJsonFile filePath (writeJsonFile filePath data y)) = data.
Proof.
  intros Hwf Hw.
  destruct (writeJsonFile_try_writable filePath data _ Hw) as (d' & E & Hf & Hd & _).
  assert (Hden : filePath ∉ denied (disk y)).
  { unfold writable in Hw. rewrite !andb_true_iff, !negb_true_iff in Hw.
    destruct Hw as [[Hden%bool_decide_eq_false _] _]. done. }
  unfold writeJsonFile. rewrite E. unfold readJsonFile, console_log. simpl.
  unfold existsSync, readFileSync. rewrite Hf, Hd, lookup_insert_eq.
  rewrite (bool_decide_eq_true_2 (is_Some (Some _))) by eauto. simpl.
  rewrite (bool_decide_eq_false_2 _ Hden).
  by rewrite parse_stringify.
Qed.

(** C7.  [readJsonFile] always returns a value.  When the file is absent it
    returns the empty array and, on a path that takes the write, leaves a
    file holding the empty array.  When the file is present and parses, it
    returns the parsed contents and leaves the disk alone.  When the file is
    present and does not parse, or cannot be read, it writes the error to
    the console and returns the empty array. *)
Theorem readJsonFile_lenient (filePath : string) (y : Sys) :
  (existsSync filePath (disk y) = false ->
     fst (readJsonFile filePath y) = JArr []
     /\ (writable filePath (disk y) = true ->
         persisted filePath (JArr []) (snd (readJsonFile filePath y))))
  /\ (forall text data,
        existsSync filePath (disk y) = true ->
        readFileSync filePath (disk y) = Ok text -> parse text = Some data ->
        fst (readJsonFile filePath y) = data
        /\ disk (snd (readJsonFile filePath y)) = disk y)
  /\ (forall text,
        existsSync filePath (disk y) = true ->
        readFileSync filePath (disk y) = Ok text -> parse text = None ->
        readJsonFile filePath y
        = (JArr [], console_error ("Error leyendo " +:+ filePath +:+ ":") SyntaxError y))
  /\ (forall e,
        existsSync filePath (disk y) = true ->
        readFileSync filePath (disk y) = Throw e ->
        readJsonFile filePath y
        = (JArr [], console_error ("Error leyendo " +:+ filePath +:+ ":") e y)).
Proof.
  unfold readJsonFile. split_and!.
  - intros ->. simpl. split; [done|]. intros Hw.
    unfold persisted, console_log. simpl. by apply writeJsonFile_persists.
  - intros text data -> -> ->. done.
  - intros text -> -> ->. done.
  - intros e -> ->. done.
Qed.

Lemma readJsonFile_lenient_witness :
  (fst (readJsonFile (usuariosFilePath Demo.cfg) (mkSys Demo.fresh_disk [])) = JArr []
   /\ files (disk (snd (readJsonFile (usuariosFilePath Demo.cfg) (mkSys Demo.fresh_disk []))))
        !! usuariosFilePath Demo.cfg = Some "[]")
  /\ fst (readJsonFile (usuariosFilePath Demo.cfg) (mkSys Demo.ana_disk []))
     = users_json [User.mk "ana" "$2a$10$secret"]
  /\ fst (readJsonFile (usuariosFilePath Demo.cfg) (mkSys Demo.numbers_disk []))
     = JArr [JDec 15 1; JNum 1000; JDec (-25) 4]
  /\ readJsonFile (usuariosFilePath Demo.cfg) (mkSys Demo.broken_disk [])
     = (JArr [],
        mkSys Demo.broken_disk
          [LogError "Error leyendo /var/data/data/usuarios.json:" SyntaxError]).
Proof.
  pose proof (readJsonFile_lenient (usuariosFilePath Demo.cfg) (mkSys Demo.numbers_disk []))
    as (_ & Hnumbers & _).
  pose proof (readJsonFile_lenient (usuariosFilePath Demo.cfg) (mkSys Demo.fresh_disk []))
    as (Habsent & _).
  pose proof (readJsonFile_lenient (usuariosFilePath Demo.cfg) (mkSys Demo.ana_disk []))
    as (_ & Hgood & _).
  pose proof (readJsonFile_lenient (usuariosFilePath Demo.cfg) (mkSys Demo.broken_disk []))
    as (_ & _ & Hbad & _).
  destruct (Habsent eq_refl) as [Hempty Hfile].
  split_and!.
  - exact Hempty.
  - apply Hfile. reflexivity.
  - edestruct Hgood as [Hdata _].
    + reflexivity.
    + reflexivity.
    + vm_compute. reflexivity.
    + exact Hdata.
  - edestruct Hnumbers as [Hdata _].
    + reflexivity.
    + reflexivity.
    + vm_compute. reflexivity.
    + exact Hdata.
  - apply (Hbad "[{oops"); reflexivity.
Defined.

(** C8.  A sequence of records written by [writeJsonFile] comes back equal
    from [readJsonFile]: the file holds the serialisation, and parsing it
    gives the sequence.  The records are JSON values as JavaScript objects
    hold them, with distinct keys in property order and integers for
    numbers, and the path takes the write. *)
Theorem persist_then_load (filePath : string) (records : list json) (y : Sys) :
  forallb wf_json records = true ->
  writable filePath (disk y) = true ->
  persisted filePath (JArr records) (writeJsonFile filePath (JArr records) y)
  /\ fst (readJsonFile filePath (writeJsonFile filePath (JArr records) y)) = JArr records.
Proof.
  intros Hwf Hw. split.
  - by apply writeJsonFile_persists.
  - by apply readJsonFile_after_write.
Qed.

Lemma persist_then_load_witness :
  fst (readJsonFile (publicacionesFilePath Demo.cfg)
         (writeJsonFile (publicacionesFilePath Demo.cfg)
            (JArr (map pub_json [Demo.a_png; Demo.b_png])) (mkSys Demo.fresh_disk [])))
  = JArr (map pub_json [Demo.a_png; Demo.b_png]).
Proof.
  apply (persist_then_load (publicacionesFilePath Demo.cfg)
           (map pub_json [Demo.a_png; Demo.b_png]) (mkSys Demo.fresh_disk []));
    reflexivity.
Defined.

(** Numbers with a fraction come back as well, on these values. *)
Lemma decimals_come_back :
  parse (stringify (JArr [JDec 15 1; JDec (-25) 4; JDec 1 7; JDec 123456789 3]))
  = Some (JArr [JDec 15 1; JDec (-25) 4; JDec 1 7; JDec 123456789 3]).
Proof. reflexivity. Qed.


Lemma user_json_wf (u : User.t) : wf_json (user_json u) = true.
Proof. reflexivity. Qed.

Lemma pub_json_wf (p : Pub.t) : wf_json (pub_json p) = true.
Proof. reflexivity. Qed.

Lemma forallb_map_true {A B} (f : B -> bool) (g : A -> B) (l : list A) :
  (forall x, f (g x) = true) -> forallb f (map g l) = true.
Proof. intros H. induction l as [|x l IH]; simpl; [done|]. by rewrite H, IH. Qed.

Lemma like_json_wf (l : Like.t) : wf_json (like_json l) = true.
Proof.
  unfold like_json. cbn [wf_json map fst snd forallb].
  rewrite forallb_map_true by apply pub_json_wf. reflexivity.
Qed.

(** Each of the three arrays comes back from its file as it was written. *)
Lemma stores_round_trip (cfg : Config) (s : State) :
  (writable (usuariosFilePath cfg) (disk (sys s)) = true ->
   fst (readJsonFile (usuariosFilePath cfg)
          (writeJsonFile (usuariosFilePath cfg) (users_json (usuarios s)) (sys s)))
   = users_json (usuarios s))
  /\ (writable (publicacionesFilePath cfg) (disk (sys s)) = true ->
      fst (readJsonFile (publicacionesFilePath cfg)
             (writeJsonFile (publicacionesFilePath cfg) (pubs_json (publicaciones s)) (sys s)))
      = pubs_json (publicaciones s))
  /\ (writable (likesFilePath cfg) (disk (sys s)) = true ->
      fst (readJsonFile (likesFilePath cfg)
             (writeJsonFile (likesFilePath cfg) (likes_json (likes s)) (sys s)))
      = likes_json (likes s)).
Proof.
  split_and!; intros Hw; apply readJsonFile_after_write; try done;
    apply forallb_map_true.
  - apply user_json_wf.
  - apply pub_json_wf.
  - apply like_json_wf.
Qed.

(** The serialisation of an array tells its records apart, so equal
    serialisations are equal arrays. *)
Lemma map_inj {A B} (f : A -> B) (l l' : list A) :
  (forall x y, f x = f y -> x = y) -> map f l = map f l' -> l = l'.
Proof.
  intros Hf. revert l'. induction l as [|x l IH]; intros [|x' l'] H; try done.
  simpl in H. injection H as Hx Hl. f_equal; auto.
Qed.

Lemma user_json_inj (u u' : User.t) : user_json u = user_json u' -> u = u'.
Proof. destruct u, u'. unfold user_json. simpl. by intros [= -> ->]. Qed.

Lemma pub_json_inj (p p' : Pub.t) : pub_json p = pub_json p' -> p = p'.
Proof. destruct p, p'. unfold pub_json. simpl. by intros [= -> -> -> -> ->]. Qed.

Lemma like_json_inj (l l' : Like.t) : like_json l = like_json l' -> l = l'.
Proof.
  destruct l, l'. unfold like_json. simpl. intros [= -> H].
  f_equal. by apply (map_inj pub_json), H; apply pub_json_inj.
Qed.

Lemma users_json_inj (us us' : list User.t) : users_json us = users_json us' -> us = us'.
Proof. intros [= H]. by apply (map_inj user_json), H; apply user_json_inj. Qed.

Lemma pubs_json_inj (ps ps' : list Pub.t) : pubs_json ps = pubs_json ps' -> ps = ps'.
Proof. intros [= H]. by apply (map_inj pub_json), H; apply pub_json_inj. Qed.

Lemma likes_json_inj (ls ls' : list Like.t) : likes_json ls = likes_json ls' -> ls = ls'.
Proof. intros [= H]. by apply (map_inj like_json), H; apply like_json_inj. Qed.

(** A write that the disk refuses is logged and changes no file. *)
Lemma writeJsonFile_refused :
  let y := writeJsonFile (usuariosFilePath Demo.cfg) (JArr []) (mkSys Demo.readonly_disk []) in
  files (disk y) = ∅
  /\ console y = [LogError "Error escribiendo /var/data/data/usuarios.json:" EACCES].
Proof. split; reflexivity. Qed.

(** ** Users and uploads *)

Lemma falsy_some (x : string) : falsy (Some x) = bool_decide (x = "").
Proof. reflexivity. Qed.

(** The registration written out as one step. *)
Lemma post_usuarios_unfold (cfg : Config) (rt : Runtime) (username password : option string)
    (s : State) :
  post_usuarios cfg rt username password s
  = if falsy username || falsy password then
      (mkResponse 400 (message "Username y password son requeridos"), s)
    else
      match username, password with
      | Some name, Some pass =>
          match list_find (fun u => User.username u = name) (usuarios s) with
          | Some _ => (mkResponse 400 (message "El usuario ya existe"), s)
          | None =>
              match bcrypt_hash rt pass with
              | Some hashedPassword =>
                  (mkResponse 201 (message "Usuario creado exitosamente"),
                   mkState (usuarios s ++ [User.mk name hashedPassword]) (publicaciones s)
                     (likes s)
                     (writeJsonFile (usuariosFilePath cfg)
                        (users_json (usuarios s ++ [User.mk name hashedPassword])) (sys s)))
              | None =>
                  (mkResponse 500 (message "Error al crear el usuario"),
                   mkState (usuarios s) (publicaciones s) (likes s)
                     (console_error "Error al crear usuario:" BcryptError (sys s)))
              end
          end
      | _, _ => (mkResponse 400 (message "Username y password son requeridos"), s)
      end.
Proof.
  unfold post_usuarios, post_usuarios_start, post_usuarios_resume.
  destruct (falsy username || falsy password); [done|].
  destruct username as [name|], password as [pass|]; try done.
  by destruct (list_find _ (usuarios s)).
Qed.

Lemma find_user_present (name : string) (us : list User.t) :
  name ∈ map User.username us ->
  is_Some (list_find (fun u => User.username u = name) us).
Proof.
  intros Hin. destruct (list_find _ us) as [r|] eqn:E; [eauto|].
  apply list_find_None in E. exfalso.
  apply list_elem_of_fmap in Hin as (u & -> & Hu).
  rewrite Forall_forall in E. by apply (E u).
Qed.

(** C6.  A registration whose username or password is missing or empty is
    answered 400 with the message that both are required, whatever the
    users already stored and whatever bcrypt would do: the answer is that of
    the first test of the handler, and the state that comes back is the
    state that went in, so nothing is appended and nothing is written. *)
Theorem register_empty_rejected (cfg : Config) (rt : Runtime)
    (username password : option string) (s : State) :
  falsy username || falsy password = true ->
  post_usuarios cfg rt username password s
  = (mkResponse 400 (message "Username y password son requeridos"), s).
Proof. intros H. rewrite post_usuarios_unfold. by rewrite H. Qed.

Lemma register_empty_rejected_witness :
  post_usuarios Demo.cfg Demo.rt (Some "") (Some "secret") Demo.s0
  = (mkResponse 400 (message "Username y password son requeridos"), Demo.s0)
  /\ post_usuarios Demo.cfg Demo.rt (Some "ana") None Demo.s0
     = (mkResponse 400 (message "Username y password son requeridos"), Demo.s0).
Proof.
  split.
  - apply (register_empty_rejected Demo.cfg Demo.rt (Some "") (Some "secret") Demo.s0).
    reflexivity.
  - apply (register_empty_rejected Demo.cfg Demo.rt (Some "ana") None Demo.s0).
    reflexivity.
Defined.

(** C5.  An upload that carries a stored file is answered 201, and the body
    of the answer holds the created publication: the URL of the stored
    file, the name, the description and the owner of the request, and the
    clock of the runtime as its timestamp.  The array grows by that one
    record at its end and the other arrays stay; the list of publications
    then ends with it; and the file, when its path takes the write, holds a
    text that parses to the earlier publications followed by the created
    one.  The owner is not looked up among the users.  An upload without a
    file is answered 400 and returns the state unchanged. *)
Theorem upload_creates_post (cfg : Config) (rt : Runtime) (file : option string)
    (username description imageName : string) (s : State) :
  match file with
  | Some filename =>
      let created :=
        JObj [("imagePath", JStr (baseUrl +:+ "/uploads/" +:+ filename));
              ("imageName", JStr imageName);
              ("description", JStr description);
              ("username", JStr username);
              ("timestamp", JNum (Date_now rt))] in
      let r := post_upload cfg rt file username description imageName s in
      fst r = mkResponse 201
                (JObj [("message", JStr "Imagen subida exitosamente");
                       ("nuevaPublicacion", created)])
      /\ usuarios (snd r) = usuarios s
      /\ likes (snd r) = likes s
      /\ publicaciones (snd r)
         = publicaciones s
           ++ [Pub.mk (baseUrl +:+ "/uploads/" +:+ filename) imageName description username
                 (Date_now rt)]
      /\ fst (get_publicaciones (snd r))
         = mkResponse 200 (JArr (map pub_json (publicaciones s) ++ [created]))
      /\ (writable (publicacionesFilePath cfg) (disk (sys s)) = true ->
          exists text,
            files (disk (sys (snd r))) !! publicacionesFilePath cfg = Some text
            /\ parse text = Some (JArr (map pub_json (publicaciones s) ++ [created])))
  | None =>
      post_upload cfg rt file username description imageName s
      = (mkResponse 400 (message "Error al subir la imagen"), s)
  end.
Proof.
  destruct file as [filename|]; [|done].
  intros created r. unfold r, post_upload. cbn [fst snd usuarios likes publicaciones sys].
  split_and!; try done.
  - unfold get_publicaciones, pubs_json. cbn [fst publicaciones]. by rewrite map_app.
  - intros Hw. eexists. split.
    + by apply writeJsonFile_persists.
    + rewrite parse_stringify.
      * unfold pubs_json. by rewrite map_app.
      * apply forallb_map_true, pub_json_wf.
Qed.

Lemma upload_creates_post_witness :
  let r := post_upload Demo.cfg Demo.rt (Some "1-2.png") "ana" "d" "a.png" Demo.s0 in
  body (fst r)
  = JObj [("message", JStr "Imagen subida exitosamente");
          ("nuevaPublicacion",
           JObj [("imagePath", JStr "https://servidor-c1k2.onrender.com/uploads/1-2.png");
                 ("imageName", JStr "a.png");
                 ("description", JStr "d");
                 ("username", JStr "ana");
                 ("timestamp", JNum 1700000000000)])]
  /\ exists text,
       files (disk (sys (snd r))) !! publicacionesFilePath Demo.cfg = Some text
       /\ parse text
          = Some (JArr [JObj [("imagePath",
                               JStr "https://servidor-c1k2.onrender.com/uploads/1-2.png");
                              ("imageName", JStr "a.png");
                              ("description", JStr "d");
                              ("username", JStr "ana");
                              ("timestamp", JNum 1700000000000)]]).
Proof.
  destruct (upload_creates_post Demo.cfg Demo.rt (Some "1-2.png") "ana" "d" "a.png" Demo.s0)
    as (Hanswer & _ & _ & _ & _ & Hfile).
  split.
  - apply (f_equal body) in Hanswer. exact Hanswer.
  - apply Hfile. reflexivity.
Defined.

(** ** Publications and their composite key *)

Lemma same_pub_key (publication pub : Pub.t) :
  same_pub publication pub = true <-> key pub = key publication.
Proof.
  unfold same_pub, key. rewrite andb_true_iff, !bool_decide_eq_true.
  split; [intros [-> ->]; done|]. intros [= -> ->]; done.
Qed.

Lemma same_pub_false (publication pub : Pub.t) :
  same_pub publication pub = false <-> key pub <> key publication.
Proof. rewrite <- same_pub_key. by destruct (same_pub publication pub). Qed.


Lemma unlike_spec (publication : Pub.t) (like : Like.t) :
  Like.likedPublications (unlike publication like)
  = filter (fun q => key q <> key publication) (Like.likedPublications like).
Proof.
  unfold unlike. simpl. induction (Like.likedPublications like) as [|q l IH]; [done|].
  simpl. destruct (same_pub publication q) eqn:E; simpl.
  - apply same_pub_key in E. by rewrite filter_cons_False by (intros ?; done).
  - apply same_pub_false in E. rewrite filter_cons_True by done. by rewrite IH.
Qed.









(** An image that cannot be removed stops the delete: the answer is 500 and
    the publication stays. *)
Lemma delete_stops_on_locked_image :
  delete_publicaciones Demo.cfg "ana" Demo.a_png Demo.s_locked
  = (mkResponse 500 (message "Error al eliminar la publicación"),
     mkState [] [Demo.a_png] []
       (mkSys Demo.locked_disk [LogError "Error al eliminar publicación:" EACCES])).
Proof. reflexivity. Qed.

(** ** The like index *)

Lemma find_like_Some (username : string) (ls : list Like.t) (i : nat) (like : Like.t) :
  list_find (fun like => Like.username like = username) ls = Some (i, like) ->
  ls !! i = Some like /\ Like.username like = username.
Proof. intros (? & ? & _)%list_find_Some. done. Qed.

Lemma find_like_None (username : string) (ls : list Like.t) :
  list_find (fun like => Like.username like = username) ls = None
  <-> username ∉ map Like.username ls.
Proof.
  rewrite list_find_None, Forall_forall. split.
  - intros H (like & -> & Hin)%list_elem_of_fmap. by apply (H like).
  - intros H like Hin <-. apply H, list_elem_of_fmap. eauto.
Qed.

(** With one entry per username, [find] returns the entry itself. *)
Lemma find_like_unique (ls : list Like.t) (like : Like.t) :
  NoDup (map Like.username ls) -> like ∈ ls ->
  exists i, list_find (fun l => Like.username l = Like.username like) ls = Some (i, like).
Proof.
  intros Hnd Hin.
  destruct (list_find_elem_of (fun l => Like.username l = Like.username like) ls like Hin eq_refl)
    as [[i e] Hfind].
  exists i. rewrite Hfind. f_equal. f_equal.
  apply find_like_Some in Hfind as [Hi He].
  apply list_elem_of_lookup in Hin as [j Hj].
  assert (i = j).
  { eapply NoDup_lookup; [exact Hnd| |].
    - rewrite list_lookup_fmap, Hi. simpl. by rewrite He.
    - by rewrite list_lookup_fmap, Hj. }
  subst j. congruence.
Qed.

Lemma existsb_same_pub_false (publication : Pub.t) (l : list Pub.t) :
  existsb (same_pub publication) l = false <-> key publication ∉ map key l.
Proof.
  induction l as [|q l IH]; simpl; [set_solver|].
  rewrite orb_false_iff, IH, same_pub_false. rewrite not_elem_of_cons. naive_solver.
Qed.

Lemma insert_same_username (ls : list Like.t) (i : nat) (like : Like.t)
    (liked : list Pub.t) :
  ls !! i = Some like ->
  map Like.username (<[i := Like.mk (Like.username like) liked]> ls) = map Like.username ls.
Proof.
  intros Hi. change (map Like.username ?l) with (Like.username <$> l).
  rewrite list_fmap_insert. simpl. apply list_insert_id.
  by rewrite list_lookup_fmap, Hi.
Qed.

(** Pushing one entry and then filling it, as the first like of a user does. *)
Lemma push_then_fill (ls : list Like.t) (like like' : Like.t) :
  <[length ls := like']> (ls ++ [like]) = ls ++ [like'].
Proof. rewrite insert_app_r_alt by lia. by rewrite Nat.sub_diag. Qed.

Lemma post_likes_keeps_invariant (cfg : Config) (username : string)
    (publication : Pub.t) (s : State) :
  likes_ok (likes s) -> likes_ok (likes (snd (post_likes cfg username publication s))).
Proof.
  intros [Hu Hk]. unfold post_likes.
  destruct (list_find _ (likes s)) as [[i like]|] eqn:Hfind.
  - apply find_like_Some in Hfind as [Hi Hname].
    destruct (existsb _ _) eqn:Hex; [done|]. simpl.
    apply existsb_same_pub_false in Hex. split.
    + by rewrite insert_same_username.
    + apply Forall_insert; [done|]. simpl. rewrite map_app.
      apply NoDup_app. split_and!.
      * rewrite Forall_forall in Hk. apply Hk. by eapply list_elem_of_lookup_2.
      * intros k Hin ->%list_elem_of_singleton. done.
      * apply NoDup_singleton.
  - apply find_like_None in Hfind. simpl. rewrite push_then_fill. split.
    + rewrite map_app. apply NoDup_app. split_and!; [done| |apply NoDup_singleton].
      intros u Hin ->%list_elem_of_singleton. done.
    + apply Forall_app. split; [done|]. apply Forall_singleton. simpl. apply NoDup_singleton.
Qed.

Lemma delete_likes_keeps_invariant (cfg : Config) (username : string)
    (publication : Pub.t) (s : State) :
  likes_ok (likes s) -> likes_ok (likes (snd (delete_likes cfg username publication s))).
Proof.
  intros [Hu Hk]. unfold delete_likes.
  destruct (list_find _ (likes s)) as [[i like]|] eqn:Hfind; [|done].
  apply find_like_Some in Hfind as [Hi Hname].
  destruct (list_find _ (Like.likedPublications like)) as [[j q]|]; [|done]. simpl. split.
  - by rewrite insert_same_username.
  - apply Forall_insert; [done|]. simpl.
    eapply sublist_NoDup.
    + rewrite Forall_forall in Hk. apply Hk. by eapply list_elem_of_lookup_2.
    + apply (fmap_sublist key), sublist_delete.
Qed.

Lemma cascade_keeps_invariant (publication : Pub.t) (ls : list Like.t) :
  likes_ok ls -> likes_ok (map (unlike publication) ls).
Proof.
  intros [Hu Hk]. split.
  - by rewrite map_map.
  - apply Forall_fmap. eapply Forall_impl; [exact Hk|]. intros like Hnd. unfold compose.
    rewrite unlike_spec. eapply sublist_NoDup; [exact Hnd|].
    apply (fmap_sublist key), sublist_filter.
Qed.

Lemma handle_keeps_invariant (cfg : Config) (rt : Runtime) (req : Request) (s : State) :
  likes_ok (likes s) -> likes_ok (likes (snd (handle cfg rt req s))).
Proof.
  intros Hok.
  destruct req; simpl;
    auto using post_likes_keeps_invariant, delete_likes_keeps_invariant.
  - rewrite post_usuarios_unfold. repeat case_match; done.
  - unfold post_login. repeat case_match; done.
  - unfold post_upload. repeat case_match; done.
  - unfold delete_publicaciones. repeat case_match; try done.
    simpl. by apply cascade_keeps_invariant.
  - unfold get_likes. repeat case_match; done.
Qed.

Lemma serve_keeps_invariant (cfg : Config) (reqs : list (Runtime * Request)) (s : State) :
  likes_ok (likes s) -> likes_ok (likes (serve cfg reqs s)).
Proof.
  revert s. induction reqs as [|[rt req] reqs IH]; intros s Hok; [done|].
  simpl. apply IH. by apply handle_keeps_invariant.
Qed.

Lemma reachable_likes_ok (cfg : Config) (s : State) :
  reachable cfg s -> likes_ok (likes s).
Proof.
  intros (s0 & reqs & H0 & ->). apply serve_keeps_invariant.
  rewrite H0. split; constructor.
Qed.

Lemma count_key_one (k : string * string) (l : list Pub.t) :
  NoDup (map key l) -> k ∈ map key l ->
  length (filter (fun q => key q = k) l) = 1.
Proof.
  induction l as [|q l IH]; simpl; [set_solver|].
  intros [Hq Hnd]%NoDup_cons [Hk|Hk]%elem_of_cons.
  - subst k. rewrite filter_cons_True by done. simpl. rewrite filter_none; [done|].
    apply Forall_forall. intros x Hx Hkx. apply Hq. rewrite <- Hkx.
    apply list_elem_of_fmap. eauto.
  - rewrite filter_cons_False; [by apply IH|]. intros <-. done.
Qed.

(** C2.  In every state that a process reaches from an empty like index,
    whatever the requests it served, no entry of the index holds two records
    with the same composite key.  And a like for a key that the entry of the
    user already holds is answered 400 with the message that the publication
    is saved; it returns the state unchanged, and the entry holds exactly
    one record with that key. *)
Theorem like_entries_have_no_duplicates (cfg : Config) (s : State) :
  reachable cfg s ->
  Forall (fun like => NoDup (map key (Like.likedPublications like))) (likes s)
  /\ (forall (rt : Runtime) (like : Like.t) (publication : Pub.t),
        like ∈ likes s ->
        key publication ∈ map key (Like.likedPublications like) ->
        handle cfg rt (POST_likes (Like.username like) publication) s
        = (mkResponse 400 (message "La publicación ya está guardada."), s)
        /\ length (filter (fun q => key q = key publication) (Like.likedPublications like))
           = 1).
Proof.
  intros [Hu Hk]%reachable_likes_ok. split; [done|].
  intros rt like publication Hin Hliked. split.
  - simpl. unfold post_likes.
    destruct (find_like_unique _ _ Hu Hin) as [i ->].
    destruct (existsb _ _) eqn:Hex.
    + by destruct s.
    + apply existsb_same_pub_false in Hex. done.
  - apply count_key_one; [|done]. rewrite Forall_forall in Hk. by apply Hk.
Qed.

Lemma like_entries_have_no_duplicates_witness :
  handle Demo.cfg Demo.rt (POST_likes "ana" Demo.a_png_again) Demo.s_liked
  = (mkResponse 400 (message "La publicación ya está guardada."), Demo.s_liked).
Proof.
  assert (Hreach : reachable Demo.cfg Demo.s_liked)
    by (exists Demo.s0, Demo.two_likes; split; reflexivity).
  destruct (like_entries_have_no_duplicates Demo.cfg Demo.s_liked Hreach) as [_ Hdup].
  apply (Hdup Demo.rt (Like.mk "ana" [Demo.a_png; Demo.b_png]) Demo.a_png_again).
  - vm_compute. set_solver.
  - vm_compute. set_solver.
Defined.

(** The usernames of the like index grow by the users who like, and never
    shrink. *)
Lemma handle_like_usernames (cfg : Config) (rt : Runtime) (req : Request) (s : State)
    (u : string) :
  u ∈ map Like.username (likes (snd (handle cfg rt req s)))
  <-> u ∈ map Like.username (likes s) \/ exists publication, req = POST_likes u publication.
Proof.
  destruct req; simpl.
  1-7,10,11: (split; [intros H; left; revert H|intros [H|[? [=]]]; revert H]);
    rewrite ?post_usuarios_unfold; unfold get_usuarios, post_login, get_publicaciones, post_upload,
      delete_publicaciones, get_likes, get_data, get_root;
    repeat case_match; simpl; rewrite ?map_map; simpl; done.
  - unfold post_likes.
    destruct (list_find _ (likes s)) as [[i like]|] eqn:Hfind.
    + apply find_like_Some in Hfind as [Hi Hname].
      assert (username ∈ map Like.username (likes s)).
      { apply list_elem_of_fmap. exists like. split; [done|]. by eapply list_elem_of_lookup_2. }
      destruct (existsb _ _); simpl; rewrite ?insert_same_username by done;
        naive_solver.
    + simpl. rewrite push_then_fill, map_app. simpl.
      rewrite elem_of_app, list_elem_of_singleton. naive_solver.
  - unfold delete_likes.
    destruct (list_find _ (likes s)) as [[i like]|] eqn:Hfind; [|naive_solver].
    apply find_like_Some in Hfind as [Hi Hname].
    destruct (list_find _ (Like.likedPublications like)) as [[j q]|]; simpl;
      rewrite ?insert_same_username by done; naive_solver.
Qed.

Lemma serve_like_usernames (cfg : Config) (reqs : list (Runtime * Request)) (s : State)
    (u : string) :
  u ∈ map Like.username (likes (serve cfg reqs s))
  <-> u ∈ map Like.username (likes s)
      \/ exists rt publication, (rt, POST_likes u publication) ∈ reqs.
Proof.
  revert s. induction reqs as [|[rt req] reqs IH]; intros s; simpl.
  - split; [auto|]. intros [?|(? & ? & ?%elem_of_nil)]; done.
  - rewrite IH, handle_like_usernames. split.
    + intros [[?|[publication Heq]]|(rt' & publication & Hin)]; [by left|right..].
      * subst req. exists rt, publication. left.
      * exists rt', publication. by right.
    + intros [?|(rt' & publication & [[= <- <-]|Hin]%elem_of_cons)].
      * by left; left.
      * left; right. eauto.
      * right. eauto.
Qed.

Lemma get_likes_not_found (username : string) (s : State) :
  fst (get_likes username s)
    = mkResponse 404 (message "El usuario no tiene publicaciones con like")
  <-> username ∉ map Like.username (likes s).
Proof.
  rewrite <- find_like_None. unfold get_likes.
  destruct (list_find _ (likes s)) as [[i like]|]; simpl; split; done.
Qed.

Lemma like_then_unlike (cfg : Config) (username : string) (publication : Pub.t)
    (s : State) :
  username ∉ map Like.username (likes s) ->
  likes (snd (delete_likes cfg username publication
                (snd (post_likes cfg username publication s))))
  = likes s ++ [Like.mk username []].
Proof.
  intros Hno. assert (Hnone := proj2 (find_like_None _ _) Hno).
  unfold post_likes. rewrite Hnone. simpl. rewrite push_then_fill.
  unfold delete_likes. simpl.
  assert (Hf : list_find (fun like => Like.username like = username)
                 (likes s ++ [Like.mk username [publication]])
               = Some (length (likes s), Like.mk username [publication])).
  { apply list_find_Some. split_and!.
    - rewrite lookup_app_r by lia. by rewrite Nat.sub_diag.
    - done.
    - intros j y Hj Hlt. rewrite lookup_app_l in Hj by done.
      intros <-. apply Hno, list_elem_of_fmap. exists y. split; [done|].
      by eapply list_elem_of_lookup_2. }
  rewrite Hf. simpl.
  assert (same_pub publication publication = true) as Hs by (by apply same_pub_key).
  rewrite decide_True by done. simpl.
  apply push_then_fill.
Qed.

(** C4, as the code has it.  In a process that started with an empty like
    index, the list of likes of a user is answered 404 exactly when no like
    of that user was ever requested.  Otherwise the index has one entry for
    the user and the answer is 200 with the records of that entry, which may
    be none: an entry that exists and is empty is told apart from an entry
    that never existed.  A user without an entry who likes a publication and
    takes the like back is answered 200 with the empty array from then on. *)
Theorem listFor_distinguishes_empty_entry (cfg : Config) (s0 : State)
    (reqs : list (Runtime * Request)) (username : string) :
  likes s0 = [] ->
  let s := serve cfg reqs s0 in
  (fst (get_likes username s)
     = mkResponse 404 (message "El usuario no tiene publicaciones con like")
   <-> ~ exists rt publication, (rt, POST_likes username publication) ∈ reqs)
  /\ (forall like, like ∈ likes s -> Like.username like = username ->
        fst (get_likes username s) = mkResponse 200 (pubs_json (Like.likedPublications like)))
  /\ (forall publication,
        fst (get_likes username s)
          = mkResponse 404 (message "El usuario no tiene publicaciones con like") ->
        fst (get_likes username
               (snd (delete_likes cfg username publication
                       (snd (post_likes cfg username publication s)))))
        = mkResponse 200 (JArr [])).
Proof.
  intros H0 s. split_and!.
  - rewrite get_likes_not_found. unfold s. rewrite serve_like_usernames, H0.
    simpl. rewrite elem_of_nil. naive_solver.
  - intros like Hin Hname.
    assert (Hok : likes_ok (likes s)).
    { apply (reachable_likes_ok cfg). by exists s0, reqs. }
    destruct (find_like_unique _ _ (proj1 Hok) Hin) as [i Hf].
    unfold get_likes. rewrite <- Hname, Hf. done.
  - intros publication Hno%get_likes_not_found.
    unfold get_likes at 1. rewrite like_then_unlike by done.
    assert (Hf : list_find (fun like => Like.username like = username)
                   (likes s ++ [Like.mk username []])
                 = Some (length (likes s), Like.mk username [])).
    { apply list_find_Some. split_and!.
      - rewrite lookup_app_r by lia. by rewrite Nat.sub_diag.
      - done.
      - intros j y Hj Hlt. rewrite lookup_app_l in Hj by done.
        intros <-. apply Hno, list_elem_of_fmap. exists y. split; [done|].
        by eapply list_elem_of_lookup_2. }
    by rewrite Hf.
Qed.

Lemma listFor_distinguishes_empty_entry_witness :
  fst (get_likes "ana" (serve Demo.cfg Demo.two_likes Demo.s0))
  = mkResponse 200 (pubs_json [Demo.a_png; Demo.b_png])
  /\ fst (get_likes "luis"
            (snd (delete_likes Demo.cfg "luis" Demo.b_png
                    (snd (post_likes Demo.cfg "luis" Demo.b_png
                            (serve Demo.cfg Demo.two_likes Demo.s0))))))
     = mkResponse 200 (JArr []).
Proof.
  destruct (listFor_distinguishes_empty_entry Demo.cfg Demo.s0 Demo.two_likes "ana" eq_refl)
    as (_ & Hfound & _).
  destruct (listFor_distinguishes_empty_entry Demo.cfg Demo.s0 Demo.two_likes "luis" eq_refl)
    as (_ & _ & Hempty).
  split.
  - apply (Hfound (Like.mk "ana" [Demo.a_png; Demo.b_png])).
    + vm_compute. set_solver.
    + reflexivity.
  - apply Hempty. reflexivity.
Defined.

(** C4 as stated fails: after a like and its removal the entry of the user
    is empty, and the list is answered 200 with the empty array, while a
    user who never liked anything is answered 404. *)
Lemma listFor_after_like_and_unlike :
  fst (get_likes "ana" (serve Demo.cfg Demo.like_and_unlike Demo.s0))
  = mkResponse 200 (JArr [])
  /\ fst (get_likes "ana" Demo.s0)
     = mkResponse 404 (message "El usuario no tiene publicaciones con like")
  /\ likes (serve Demo.cfg Demo.like_and_unlike Demo.s0) = [Like.mk "ana" []].
Proof. split_and!; reflexivity. Qed.

(** ** Error answers *)

(** The error answers of the first layer.  On a request that the data model
    types, served with nothing else meanwhile, an answer in the 4xx or 5xx
    range comes with the three arrays and the files of the disk as they
    were before the request.  (A like by a new user pushes the entry of
    that user before the duplicate test, and that test cannot fail on the
    empty entry.) *)
Lemma errors_change_nothing (cfg : Config) (rt : Runtime) (req : Request) (s : State) :
  is_error (fst (handle cfg rt req s)) = true ->
  usuarios (snd (handle cfg rt req s)) = usuarios s
  /\ publicaciones (snd (handle cfg rt req s)) = publicaciones s
  /\ likes (snd (handle cfg rt req s)) = likes s
  /\ disk (sys (snd (handle cfg rt req s))) = disk (sys s).
Proof.
  destruct req; simpl;
    rewrite ?post_usuarios_unfold; unfold get_usuarios, post_login, get_publicaciones, post_upload,
      delete_publicaciones, get_likes, post_likes, delete_likes, get_data, get_root,
      is_error;
    repeat case_match; simpl; try done; intros _; simplify_eq/=; done.
Qed.

(** ** The earlier copy of the server

    Where the earlier file departs from the statements above. *)

(** It creates no file for an absent path. *)
Lemma legacy_readJsonFile_absent (filePath : string) (d : FS) :
  existsSync filePath d = false -> Legacy.readJsonFile filePath d = Ok (JArr []).
Proof. intros H. unfold Legacy.readJsonFile. by rewrite H. Qed.

(** It lets the error of [JSON.parse] escape. *)
Lemma legacy_readJsonFile_throws (filePath text : string) (d : FS) :
  existsSync filePath d = true ->
  readFileSync filePath d = Ok text -> parse text = None ->
  Legacy.readJsonFile filePath d = Throw SyntaxError.
Proof. intros H1 H2 H3. unfold Legacy.readJsonFile. by rewrite H1, H2, H3. Qed.

(** It registers the empty username. *)
Lemma legacy_register_takes_empty_username :
  let r := Legacy.post_usuarios (usuariosFilePath Demo.cfg) Demo.rt "" "secret" Demo.s0 in
  status (fst r) = 201%Z /\ usuarios (snd r) = [User.mk "" "$2a$10$secret"].
Proof. split; reflexivity. Qed.

(** Its 500 answer to a registration may come after the push. *)
Lemma legacy_register_error_after_push :
  let s := mkState [] [] [] (mkSys Demo.readonly_disk []) in
  let r := Legacy.post_usuarios (usuariosFilePath Demo.cfg) Demo.rt "ana" "secret" s in
  status (fst r) = 500%Z /\ usuarios (snd r) = [User.mk "ana" "$2a$10$secret"].
Proof. split; reflexivity. Qed.

(** * Further properties of the code *)

(** ** Login and the user registry *)

Lemma find_user_None (name : string) (us : list User.t) :
  list_find (fun u => User.username u = name) us = None
  <-> name ∉ map User.username us.
Proof.
  rewrite list_find_None, Forall_forall. split.
  - intros H (u & -> & Hin)%list_elem_of_fmap. by apply (H u).
  - intros H u Hin <-. apply H, list_elem_of_fmap. eauto.
Qed.

Lemma find_user_unique (us : list User.t) (user : User.t) :
  NoDup (map User.username us) -> user ∈ us ->
  exists i, list_find (fun u => User.username u = User.username user) us = Some (i, user).
Proof.
  intros Hnd Hin.
  destruct (list_find_elem_of (fun u => User.username u = User.username user) us user
              Hin eq_refl) as [[i e] Hfind].
  exists i. rewrite Hfind. f_equal. f_equal.
  apply list_find_Some in Hfind as (Hi & He & _).
  apply list_elem_of_lookup in Hin as [j Hj].
  assert (i = j).
  { eapply NoDup_lookup; [exact Hnd| |].
    - rewrite list_lookup_fmap, Hi. simpl. by rewrite He.
    - by rewrite list_lookup_fmap, Hj. }
  subst j. congruence.
Qed.

(** Login of an unknown user.  The login is answered 400 with the message
    that the user does not exist exactly when no stored record carries the
    username; and whatever the answer, a login leaves the three arrays and
    the disk as they were. *)
Theorem login_unknown_user (rt : Runtime) (username password : string) (s : State) :
  (fst (post_login rt username password s) = mkResponse 400 (message "El usuario no existe")
   <-> username ∉ map User.username (usuarios s))
  /\ usuarios (snd (post_login rt username password s)) = usuarios s
  /\ publicaciones (snd (post_login rt username password s)) = publicaciones s
  /\ likes (snd (post_login rt username password s)) = likes s
  /\ disk (sys (snd (post_login rt username password s))) = disk (sys s).
Proof.
  rewrite <- find_user_None. unfold post_login.
  destruct (list_find _ (usuarios s)) as [[i user]|]; [|done].
  destruct (bcrypt_compare rt password (User.password user)) as [[]|]; done.
Qed.

(** Login of a stored user.  When usernames are unique, the login of a
    stored user is decided by bcrypt on the password of the request and the
    hash of that user's record: 200 on a match, 400 on a mismatch, 500 when
    bcrypt fails. *)
Theorem login_checks_stored_hash (rt : Runtime) (user : User.t) (password : string)
    (s : State) :
  NoDup (map User.username (usuarios s)) -> user ∈ usuarios s ->
  fst (post_login rt (User.username user) password s)
  = login_answer (bcrypt_compare rt password (User.password user)).
Proof.
  intros Hnd Hin. unfold post_login.
  destruct (find_user_unique _ _ Hnd Hin) as [i ->].
  by destruct (bcrypt_compare rt password (User.password user)) as [[]|].
Qed.

Lemma login_checks_stored_hash_witness :
  fst (post_login Demo.rt "ana" "secret" Scene.s_ana)
  = mkResponse 200 (message "Inicio de sesión exitoso")
  /\ fst (post_login Demo.rt "ana" "wrong" Scene.s_ana)
     = mkResponse 400 (message "Contraseña incorrecta").
Proof.
  assert (Hnd : NoDup (map User.username (usuarios Scene.s_ana)))
    by (vm_compute; apply NoDup_singleton).
  assert (Hin : User.mk "ana" "$2a$10$secret" ∈ usuarios Scene.s_ana)
    by (vm_compute; set_solver).
  split.
  - apply (login_checks_stored_hash Demo.rt (User.mk "ana" "$2a$10$secret") "secret"
             Scene.s_ana Hnd Hin).
  - apply (login_checks_stored_hash Demo.rt (User.mk "ana" "$2a$10$secret") "wrong"
             Scene.s_ana Hnd Hin).
Defined.

(** What one request does to the user registry: nothing, or one record
    more at its end, with a username that is new and not empty. *)
Lemma handle_users (cfg : Config) (rt : Runtime) (req : Request) (s : State) :
  usuarios (snd (handle cfg rt req s)) = usuarios s
  \/ exists user,
       usuarios (snd (handle cfg rt req s)) = usuarios s ++ [user]
       /\ (User.username user ∉ map User.username (usuarios s))
       /\ User.username user <> "".
Proof.
  destruct req; simpl;
    try (left;
         unfold get_usuarios, post_login, get_publicaciones, post_upload,
           delete_publicaciones, get_likes, post_likes, delete_likes, get_data, get_root;
         repeat case_match; simpl; done).
  rewrite post_usuarios_unfold.
  destruct (falsy username || falsy password) eqn:Hf; [by left|].
  destruct username as [name|], password as [pass|]; try by left.
  apply orb_false_elim in Hf as [Hn _]. rewrite falsy_some in Hn.
  apply bool_decide_eq_false in Hn.
  destruct (list_find _ (usuarios s)) as [[]|] eqn:Hfind; [by left|].
  destruct (bcrypt_hash rt pass) as [h|]; [|by left].
  right. exists (User.mk name h). split_and!; [done| |done].
  by apply find_user_None.
Qed.

(** Users are never removed or changed.  Whatever requests are served, the
    user registry afterwards starts with the registry before: records are
    only added at the end. *)
Theorem users_only_grow (cfg : Config) (reqs : list (Runtime * Request)) (s : State) :
  usuarios s `prefix_of` usuarios (serve cfg reqs s).
Proof.
  revert s. induction reqs as [|[rt req] reqs IH]; intros s; simpl; [done|].
  etrans; [|apply IH].
  destruct (handle_users cfg rt req s) as [->|(user & -> & _)]; [done|].
  by apply prefix_app_r.
Qed.

(** ** Likes, one user at a time *)

Lemma liked_by_cons (u : string) (like : Like.t) (ls : list Like.t) :
  liked_by u (like :: ls)
  = if decide (Like.username like = u) then Like.likedPublications like else liked_by u ls.
Proof.
  unfold liked_by. simpl. case_decide; [done|].
  by destruct (list_find _ ls) as [[]|].
Qed.

Lemma liked_by_no_entry (u : string) (ls : list Like.t) :
  u ∉ map Like.username ls -> liked_by u ls = [].
Proof. intros H%find_like_None. unfold liked_by. by rewrite H. Qed.

Lemma liked_by_push (u : string) (ls : list Like.t) (like : Like.t) :
  liked_by u (ls ++ [like])
  = if decide (u ∈ map Like.username ls) then liked_by u ls
    else if decide (Like.username like = u) then Like.likedPublications like else [].
Proof.
  induction ls as [|x ls IH]; simpl.
  - rewrite liked_by_cons.
    destruct (decide (u ∈ [])) as [H%elem_of_nil|_]; [done|].
    by destruct (decide (Like.username like = u)).
  - rewrite !liked_by_cons, IH.
    destruct (decide (Like.username x = u)) as [<-|Hne].
    + destruct (decide (Like.username x ∈ Like.username x :: map Like.username ls))
        as [_|Hn]; [done|].
      exfalso. apply Hn, elem_of_cons. by left.
    + destruct (decide (u ∈ map Like.username ls)) as [Hin|Hnin];
        destruct (decide (u ∈ Like.username x :: map Like.username ls)) as [Hin'|Hnin'];
        try done.
      * exfalso. apply Hnin', elem_of_cons. by right.
      * exfalso. apply elem_of_cons in Hin' as [?|?]; congruence.
Qed.

(** Replacing the records of the entry that [find] returns for [username]. *)
Lemma liked_by_update (username u : string) (ls : list Like.t) (i : nat) (like : Like.t)
    (liked : list Pub.t) :
  list_find (fun l => Like.username l = username) ls = Some (i, like) ->
  liked_by u (<[i := Like.mk (Like.username like) liked]> ls)
  = if decide (u = username) then liked else liked_by u ls.
Proof.
  revert i. induction ls as [|x ls IH]; intros i Hfind; [done|].
  simpl in Hfind. destruct (decide (Like.username x = username)) as [Hx|Hx].
  - injection Hfind as <- <-. simpl. rewrite !liked_by_cons. simpl.
    destruct (decide (u = username)) as [->|Hu].
    + by rewrite decide_True.
    + rewrite !decide_False by congruence. done.
  - destruct (list_find _ ls) as [[i' e]|] eqn:Hl; [|done].
    injection Hfind as <- <-. simpl. rewrite !liked_by_cons.
    destruct (decide (Like.username x = u)) as [Hxu|Hxu].
    + rewrite decide_False by congruence. done.
    + by apply IH.
Qed.

Lemma get_likes_liked_by (u : string) (s : State) :
  fst (get_likes u s)
  = if decide (u ∈ map Like.username (likes s))
    then mkResponse 200 (pubs_json (liked_by u (likes s)))
    else mkResponse 404 (message "El usuario no tiene publicaciones con like").
Proof.
  unfold get_likes, liked_by.
  destruct (list_find _ (likes s)) as [[i like]|] eqn:Hfind.
  - rewrite decide_True; [done|].
    apply find_like_Some in Hfind as [Hi <-].
    apply list_elem_of_fmap. eexists. split; [done|]. by eapply list_elem_of_lookup_2.
  - apply find_like_None in Hfind. by rewrite decide_False.
Qed.



(** ** Taking a like back *)

Lemma find_pub_first (publication : Pub.t) (l : list Pub.t) (j : nat) (q : Pub.t) :
  list_find (fun pub => same_pub publication pub = true) l = Some (j, q) ->
  exists before after,
    l = before ++ q :: after /\ key q = key publication
    /\ Forall (fun pub => key pub <> key publication) before
    /\ delete j l = before ++ after.
Proof.
  intros Hfind.
  destruct (list_find_split _ _ _ _ Hfind) as (before & after & Hl & _ & Hk & Hb & Hdel).
  exists before, after. split_and!; try done.
  - by apply same_pub_key.
  - eapply Forall_impl; [exact Hb|]. intros pub Hp. by rewrite <- same_pub_key.
Qed.



(** A like and its removal cancel.  For a user who has an entry that does
    not hold the key, a like followed by its removal gives back the like
    index as it was, entry by entry. *)
Theorem like_then_unlike_restores (cfg : Config) (username : string)
    (publication : Pub.t) (s : State) :
  username ∈ map Like.username (likes s) ->
  key publication ∉ map key (liked_by username (likes s)) ->
  likes (snd (delete_likes cfg username publication
                (snd (post_likes cfg username publication s))))
  = likes s.
Proof.
  intros Hin Hkey. unfold liked_by in Hkey.
  destruct (list_find (fun like => Like.username like = username) (likes s))
    as [[i like]|] eqn:Hfind; [|by apply find_like_None in Hfind].
  apply existsb_same_pub_false in Hkey.
  unfold post_likes. rewrite Hfind, Hkey. simpl.
  set (like' := Like.mk (Like.username like) (Like.likedPublications like ++ [publication])).
  assert (Hfind' : list_find (fun like => Like.username like = username)
                     (<[i := like']> (likes s)) = Some (i, like')).
  { apply list_find_Some in Hfind as (Hi & Hname & Hleast).
    apply list_find_Some. split_and!.
    - apply list_lookup_insert_eq. by eapply lookup_lt_Some.
    - done.
    - intros j y Hj Hlt. rewrite list_lookup_insert_ne in Hj by lia. eauto. }
  unfold delete_likes. cbn [likes]. rewrite Hfind'.
  assert (Hpub : list_find (fun pub => same_pub publication pub = true)
                   (Like.likedPublications like')
                 = Some (length (Like.likedPublications like), publication)).
  { apply list_find_Some. simpl. split_and!.
    - rewrite lookup_app_r by lia. by rewrite Nat.sub_diag.
    - by apply same_pub_key.
    - intros j y Hj Hlt. rewrite lookup_app_l in Hj by done.
      apply existsb_same_pub_false in Hkey. intros Hy%same_pub_key.
      apply Hkey. rewrite <- Hy. apply list_elem_of_fmap. exists y. split; [done|].
      by eapply list_elem_of_lookup_2. }
  rewrite Hpub. simpl.
  rewrite list_insert_insert_eq.
  assert (delete (length (Like.likedPublications like))
            (Like.likedPublications like ++ [publication])
          = Like.likedPublications like) as ->.
  { rewrite delete_take_drop, take_app_length.
    rewrite drop_ge by (rewrite length_app; simpl; lia). apply app_nil_r. }
  apply list_insert_id. apply find_like_Some in Hfind as [Hi _].
  rewrite Hi. by destruct like.
Qed.

Lemma like_then_unlike_restores_witness :
  likes (snd (delete_likes Demo.cfg "luis" Demo.a_png
                (snd (post_likes Demo.cfg "luis" Demo.a_png Demo.s_twins))))
  = likes Demo.s_twins.
Proof.
  apply (like_then_unlike_restores Demo.cfg "luis" Demo.a_png Demo.s_twins).
  - vm_compute. set_solver.
  - vm_compute. set_solver.
Defined.

(** The cascade as the list of likes shows it.  After a delete of a
    publication that was answered 200, every user's liked publications are
    the earlier ones without the records of the deleted key, in the earlier
    order, and the users who have an entry are the same: the list of likes
    of a user is answered 404 after the delete exactly when it was before. *)
Theorem cascade_seen_by_listFor (cfg : Config) (username : string) (publication : Pub.t)
    (s : State) :
  status (fst (delete_publicaciones cfg username publication s)) = 200%Z ->
  let s' := snd (delete_publicaciones cfg username publication s) in
  forall u,
    liked_by u (likes s')
      = filter (fun q => key q <> key publication) (liked_by u (likes s))
    /\ (u ∈ map Like.username (likes s') <-> u ∈ map Like.username (likes s))
    /\ fst (get_likes u s')
       = (if decide (u ∈ map Like.username (likes s))
          then mkResponse 200
                 (pubs_json (filter (fun q => key q <> key publication)
                               (liked_by u (likes s))))
          else mkResponse 404 (message "El usuario no tiene publicaciones con like")).
Proof.
  intros Hst s' u.
  assert (Hlikes : likes s' = map (unlike publication) (likes s)).
  { unfold s', delete_publicaciones in *.
    destruct (list_find _ (publicaciones s)) as [[i first]|]; [|done].
    by destruct (remove_image cfg publication (disk (sys s))). }
  assert (Hnames : map Like.username (likes s') = map Like.username (likes s)).
  { rewrite Hlikes. by rewrite map_map. }
  assert (Hliked : liked_by u (likes s')
                   = filter (fun q => key q <> key publication) (liked_by u (likes s))).
  { rewrite Hlikes. clear. induction (likes s) as [|like ls IH]; [done|].
    simpl. rewrite !liked_by_cons. simpl.
    destruct (decide (Like.username like = u)); [apply unlike_spec|done]. }
  split_and!; [done|by rewrite Hnames|].
  rewrite get_likes_liked_by, Hnames, Hliked. done.
Qed.

Lemma cascade_seen_by_listFor_witness :
  fst (get_likes "ana" (snd (delete_publicaciones Demo.cfg "luis" Demo.a_png Demo.s_twins)))
  = mkResponse 200 (pubs_json [Demo.b_png]).
Proof.
  destruct (cascade_seen_by_listFor Demo.cfg "luis" Demo.a_png Demo.s_twins eq_refl "ana")
    as (_ & _ & Hlist).
  rewrite Hlist. reflexivity.
Defined.

(** ** The files mirror the arrays *)

Lemma store_path_dirname (cfg : Config) (p : string) :
  p ∈ store_paths cfg -> path_dirname p = DATA_DIR cfg.
Proof.
  unfold store_paths.
  intros [->|[->|[->|[]%elem_of_nil]%elem_of_cons]%elem_of_cons]%elem_of_cons;
    apply path_dirname_join; auto using DATA_DIR_nonempty; segment.
Qed.

Lemma store_paths_NoDup (cfg : Config) : NoDup (store_paths cfg).
Proof.
  unfold store_paths, usuariosFilePath, publicacionesFilePath, likesFilePath.
  assert (Hne : forall a b : string, a <> b ->
            DATA_DIR cfg +:+ "/" +:+ a <> DATA_DIR cfg +:+ "/" +:+ b).
  { intros a b Hab H. apply append_inj_l in H. apply Hab. by injection H. }
  repeat constructor; rewrite ?not_elem_of_cons; split_and?;
    try apply not_elem_of_nil; by apply Hne.
Qed.

Lemma append_not_self (d x : string) : x <> "" -> d +:+ x <> d.
Proof.
  intros Hx H. apply (f_equal String.length) in H. rewrite length_append in H.
  destruct x; [done|simpl in H; lia].
Qed.

Lemma store_path_not_dir (cfg : Config) (p : string) :
  p ∈ store_paths cfg -> p <> DATA_DIR cfg /\ p <> UPLOADS_DIR cfg.
Proof.
  unfold store_paths.
  intros [->|[->|[->|[]%elem_of_nil]%elem_of_cons]%elem_of_cons]%elem_of_cons; split;
    try (by apply append_not_self);
    (intros H; unfold usuariosFilePath, publicacionesFilePath, likesFilePath,
       DATA_DIR, UPLOADS_DIR in H;
     change (path_join (path_join ?d "data") ?n = path_join ?d "uploads")
       with ((d +:+ "/data") +:+ "/" +:+ n = d +:+ "/uploads") in H;
     rewrite append_assoc in H; apply append_inj_l in H; discriminate).
Qed.

Lemma UPLOADS_DIR_parent (cfg : Config) : path_dirname (UPLOADS_DIR cfg) = PERSISTENT_DIR cfg.
Proof.
  unfold UPLOADS_DIR. apply path_dirname_join; [apply PERSISTENT_DIR_nonempty|segment].
Qed.

Lemma store_path_not_root (cfg : Config) (p : string) :
  p ∈ store_paths cfg -> p <> PERSISTENT_DIR cfg.
Proof.
  unfold store_paths.
  intros [->|[->|[->|[]%elem_of_nil]%elem_of_cons]%elem_of_cons]%elem_of_cons;
    unfold usuariosFilePath, publicacionesFilePath, likesFilePath, DATA_DIR;
    change (path_join (path_join ?d "data") ?n) with ((d +:+ "/data") +:+ "/" +:+ n);
    rewrite append_assoc; by apply append_not_self.
Qed.

(** The path of a stored image is none of the three files. *)
Lemma image_path_not_store (cfg : Config) (fileName p : string) :
  p ∈ store_paths cfg -> path_join (UPLOADS_DIR cfg) fileName <> p.
Proof.
  intros Hp H. unfold path_join in H.
  destruct (String.eqb fileName "" || String.eqb fileName ".").
  { apply store_path_not_dir in Hp as [_ Hp]. by apply Hp. }
  destruct (String.eqb fileName "..").
  { rewrite UPLOADS_DIR_parent in H. by apply (store_path_not_root cfg p). }
  change (UPLOADS_DIR cfg) with (PERSISTENT_DIR cfg +:+ "/uploads") in H.
  revert Hp H. unfold store_paths.
  intros [->|[->|[->|[]%elem_of_nil]%elem_of_cons]%elem_of_cons]%elem_of_cons H;
    unfold usuariosFilePath, publicacionesFilePath, likesFilePath, DATA_DIR in H;
    change (path_join (path_join ?d "data") ?n) with ((d +:+ "/data") +:+ "/" +:+ n) in H;
    rewrite !append_assoc in H; apply append_inj_l in H; discriminate.
Qed.

(** On a healthy disk a write to one of the three files goes through and
    touches nothing but that file. *)
Lemma healthy_write (cfg : Config) (p : string) (data : json) (y : Sys) :
  healthy cfg (disk y) -> p ∈ store_paths cfg ->
  disk (writeJsonFile p data y)
  = mkFS (<[p := stringify data]> (files (disk y))) (dirs (disk y)) (denied (disk y)).
Proof.
  intros [Hdata Hpaths] Hp.
  rewrite Forall_forall in Hpaths. destruct (Hpaths p Hp) as [Hden Hdir].
  unfold writeJsonFile, writeJsonFile_try, existsSync, writeFileSync.
  rewrite (store_path_dirname cfg p Hp).
  rewrite (bool_decide_eq_true_2 _ Hdata), orb_true_r.
  rewrite (bool_decide_eq_false_2 _ Hden), (bool_decide_eq_false_2 _ Hdir).
  by rewrite (bool_decide_eq_true_2 _ Hdata).
Qed.

Lemma healthy_same (cfg : Config) (d d' : FS) :
  dirs d' = dirs d -> denied d' = denied d -> healthy cfg d -> healthy cfg d'.
Proof. unfold healthy. by intros -> ->. Qed.

Lemma remove_image_frame (cfg : Config) (publication : Pub.t) (d dk : FS) :
  remove_image cfg publication d = Ok dk ->
  dirs dk = dirs d /\ denied dk = denied d
  /\ forall p, p ∈ store_paths cfg -> files dk !! p = files d !! p.
Proof.
  unfold remove_image, unlinkSync.
  destruct (existsSync _ d); [|by intros [= <-]].
  case_bool_decide; [done|].
  destruct (files d !! _) eqn:Hf; [|by case_bool_decide].
  intros [= <-]. simpl. split_and!; [done|done|].
  intros p Hp. apply lookup_delete_ne. by apply image_path_not_store.
Qed.

(** What one request keeps: a healthy disk stays healthy, and files that
    mirror the arrays go on mirroring them. *)
Lemma handle_mirrors (cfg : Config) (rt : Runtime) (req : Request) (s : State) :
  healthy cfg (disk (sys s)) -> mirrored cfg s ->
  healthy cfg (disk (sys (snd (handle cfg rt req s))))
  /\ mirrored cfg (snd (handle cfg rt req s)).
Proof.
  intros Hh (Hu & Hp & Hl).
  pose proof (store_paths_NoDup cfg) as Hnd. unfold store_paths in Hnd.
  apply NoDup_cons in Hnd as [Hup Hnd]. apply NoDup_cons in Hnd as [Hpl _].
  rewrite !not_elem_of_cons in Hup. destruct Hup as (Hup & Hul & _).
  rewrite !not_elem_of_cons in Hpl. destruct Hpl as (Hpl & _).
  assert (Hpu := not_eq_sym Hup). assert (Hlu := not_eq_sym Hul).
  assert (Hlp := not_eq_sym Hpl).
  assert (Hinu := proj1 (store_paths_elem cfg)).
  assert (Hinp := proj1 (proj2 (store_paths_elem cfg))).
  assert (Hinl := proj2 (proj2 (store_paths_elem cfg))).
  unfold mirrored, persisted in *.
  destruct req; simpl.
  - done.
  - rewrite post_usuarios_unfold. repeat case_match; try done; simpl.
    rewrite (healthy_write cfg) by done. simpl.
    rewrite lookup_insert_eq, !lookup_insert_ne by done. done.
  - unfold post_login. repeat case_match; done.
  - done.
  - unfold post_upload. repeat case_match; try done; simpl.
    rewrite (healthy_write cfg) by done. simpl.
    rewrite lookup_insert_eq, !lookup_insert_ne by done. done.
  - unfold delete_publicaciones.
    destruct (list_find _ (publicaciones s)) as [[i first]|]; [|done].
    destruct (remove_image cfg publication (disk (sys s))) as [dk|e] eqn:Himg; [|done].
    destruct (remove_image_frame _ _ _ _ Himg) as (Hdirs & Hden & Hfiles).
    assert (Hk : healthy cfg dk) by (by eapply healthy_same).
    simpl. rewrite (healthy_write cfg (likesFilePath cfg)); [|rewrite (healthy_write cfg)|]; try done.
    simpl. rewrite (healthy_write cfg (publicacionesFilePath cfg)) by done. simpl.
    split; [by eapply healthy_same|].
    repeat (rewrite lookup_insert_eq || rewrite lookup_insert_ne by done).
    rewrite Hfiles by done. done.
  - unfold get_likes. repeat case_match; done.
  - unfold post_likes.
    destruct (list_find _ (likes s)) as [[i like]|]; simpl.
    + destruct (existsb _ _); simpl; [done|].
      rewrite (healthy_write cfg) by done. simpl.
      rewrite lookup_insert_eq, !lookup_insert_ne by done. done.
    + rewrite (healthy_write cfg) by done. simpl.
      rewrite lookup_insert_eq, !lookup_insert_ne by done. done.
  - unfold delete_likes. repeat case_match; try done; simpl.
    rewrite (healthy_write cfg) by done. simpl.
    rewrite lookup_insert_eq, !lookup_insert_ne by done. done.
  - done.
  - done.
Qed.

Lemma serve_mirrors (cfg : Config) (reqs : list (Runtime * Request)) (s : State) :
  healthy cfg (disk (sys s)) -> mirrored cfg s ->
  healthy cfg (disk (sys (serve cfg reqs s))) /\ mirrored cfg (serve cfg reqs s).
Proof.
  revert s. induction reqs as [|[rt req] reqs IH]; intros s Hh Hm; [done|].
  simpl. destruct (handle_mirrors cfg rt req s Hh Hm) as [Hh' Hm']. by apply IH.
Qed.

Lemma ensure_dir_frame (dir : string) (y : Sys) :
  files (disk (ensure_dir dir y)) = files (disk y)
  /\ denied (disk (ensure_dir dir y)) = denied (disk y)
  /\ dirs (disk y) ⊆ dirs (disk (ensure_dir dir y))
  /\ dirs (disk (ensure_dir dir y)) ⊆ {[dir]} ∪ dirs (disk y).
Proof.
  unfold ensure_dir, mkdirSync.
  destruct (existsSync dir (disk y)); simpl; [set_solver|].
  repeat case_bool_decide; simpl; set_solver.
Qed.

Lemma readJsonFile_present (p : string) (v : json) (y : Sys) :
  files (disk y) !! p = Some (stringify v) -> p ∉ denied (disk y) -> wf_json v = true ->
  readJsonFile p y = (v, console_log ("Datos cargados exitosamente de: " +:+ p) y).
Proof.
  intros Hf Hden Hwf. unfold readJsonFile, existsSync, readFileSync.
  rewrite Hf, (bool_decide_eq_true_2 (is_Some (Some _))) by eauto. simpl.
  rewrite (bool_decide_eq_false_2 _ Hden). by rewrite parse_stringify.
Qed.

Lemma readJsonFile_first (cfg : Config) (p : string) (y : Sys) :
  healthy cfg (disk y) -> p ∈ store_paths cfg -> files (disk y) !! p = None ->
  fst (readJsonFile p y) = JArr []
  /\ disk (snd (readJsonFile p y))
     = mkFS (<[p := stringify (JArr [])]> (files (disk y))) (dirs (disk y)) (denied (disk y)).
Proof.
  intros Hh Hp Hf. unfold readJsonFile, existsSync.
  destruct Hh as [Hdata Hpaths]. rewrite Forall_forall in Hpaths.
  destruct (Hpaths p Hp) as [_ Hdir].
  rewrite Hf, (bool_decide_eq_false_2 (is_Some None)) by (by intros [? ?]).
  rewrite (bool_decide_eq_false_2 _ Hdir). simpl. split; [done|].
  apply (healthy_write cfg); [|done]. split; [done|]. by apply Forall_forall.
Qed.

(** The first start.  On a disk without the three files, where their paths
    are not refused and the data directory is there or can be made, the
    start binds the three arrays to the empty array and leaves the data
    directory in place and three files that each hold the empty array. *)
Theorem first_start_is_empty (cfg : Config) (y : Sys) :
  first_start cfg (disk y) ->
  fst (startup cfg y) = mkLoaded (JArr []) (JArr []) (JArr [])
  /\ healthy cfg (disk (snd (startup cfg y)))
  /\ mirrored cfg (mkState [] [] [] (snd (startup cfg y))).
Proof.
  intros (Hpaths & Hfile & Hdata).
  set (y1 := ensure_dir (DATA_DIR cfg) y).
  set (y2 := ensure_dir (UPLOADS_DIR cfg) y1).
  destruct (ensure_dir_frame (DATA_DIR cfg) y) as (Ef1 & Ed1 & Hs1 & Hs1').
  destruct (ensure_dir_frame (UPLOADS_DIR cfg) y1) as (Ef2 & Ed2 & Hs2 & Hs2').
  fold y1 in Ef1, Ed1, Hs1, Hs1'. fold y2 in Ef2, Ed2, Hs2, Hs2'.
  assert (Hin1 : DATA_DIR cfg ∈ dirs (disk y1)).
  { unfold y1, ensure_dir, existsSync, mkdirSync. rewrite Hfile.
    rewrite (bool_decide_eq_false_2 (is_Some None)) by (by intros [? ?]). simpl.
    destruct (decide (DATA_DIR cfg ∈ dirs (disk y))) as [Hin|Hnin].
    - by rewrite (bool_decide_eq_true_2 _ Hin).
    - rewrite (bool_decide_eq_false_2 _ Hnin). simpl.
      destruct Hdata as [?|Hden]; [done|].
      rewrite (bool_decide_eq_false_2 _ Hden). simpl. set_solver. }
  rewrite Forall_forall in Hpaths.
  assert (Hh2 : healthy cfg (disk y2)).
  { split; [by apply Hs2|]. apply Forall_forall. intros p Hp.
    destruct (Hpaths p Hp) as [Hex Hden]. split; [by rewrite Ed2, Ed1|].
    unfold existsSync in Hex. apply orb_false_elim in Hex as [_ Hdir].
    apply bool_decide_eq_false in Hdir.
    destruct (store_path_not_dir cfg p Hp) as [Hnd Hnu].
    intros Hin. apply Hs2', elem_of_union in Hin as [Hin%elem_of_singleton|Hin]; [done|].
    apply Hs1', elem_of_union in Hin as [Hin%elem_of_singleton|Hin]; done. }
  assert (Hnone : forall p, p ∈ store_paths cfg -> files (disk y2) !! p = None).
  { intros p Hp. rewrite Ef2, Ef1. destruct (Hpaths p Hp) as [Hex _].
    unfold existsSync in Hex. apply orb_false_elim in Hex as [Hf _].
    apply bool_decide_eq_false in Hf. by apply eq_None_not_Some. }
  pose proof (store_paths_NoDup cfg) as Hnd. unfold store_paths in Hnd.
  apply NoDup_cons in Hnd as [Hup Hnd]. apply NoDup_cons in Hnd as [Hpl _].
  rewrite !not_elem_of_cons in Hup. destruct Hup as (Hup & Hul & _).
  rewrite !not_elem_of_cons in Hpl. destruct Hpl as (Hpl & _).
  assert (Hinu := proj1 (store_paths_elem cfg)).
  assert (Hinp := proj1 (proj2 (store_paths_elem cfg))).
  assert (Hinl := proj2 (proj2 (store_paths_elem cfg))).
  unfold startup. fold y1. fold y2.
  destruct (readJsonFile_first cfg (usuariosFilePath cfg) y2 Hh2 Hinu (Hnone _ Hinu))
    as [Hv3 Hd3].
  destruct (readJsonFile (usuariosFilePath cfg) y2) as [v3 y3]. simpl in Hv3, Hd3.
  assert (Hh3 : healthy cfg (disk y3)) by (eapply healthy_same; [| |exact Hh2]; by rewrite Hd3).
  assert (Hn3 : files (disk y3) !! publicacionesFilePath cfg = None).
  { rewrite Hd3. simpl. rewrite lookup_insert_ne by done. by apply Hnone. }
  destruct (readJsonFile_first cfg (publicacionesFilePath cfg) y3 Hh3 Hinp Hn3) as [Hv4 Hd4].
  destruct (readJsonFile (publicacionesFilePath cfg) y3) as [v4 y4]. simpl in Hv4, Hd4.
  assert (Hh4 : healthy cfg (disk y4)) by (eapply healthy_same; [| |exact Hh3]; by rewrite Hd4).
  assert (Hn4 : files (disk y4) !! likesFilePath cfg = None).
  { rewrite Hd4, Hd3. simpl. rewrite !lookup_insert_ne by done. by apply Hnone. }
  destruct (readJsonFile_first cfg (likesFilePath cfg) y4 Hh4 Hinl Hn4) as [Hv5 Hd5].
  destruct (readJsonFile (likesFilePath cfg) y4) as [v5 y5]. simpl in Hv5, Hd5.
  simpl. split_and!.
  - by rewrite Hv3, Hv4, Hv5.
  - eapply healthy_same; [| |exact Hh4]; by rewrite Hd5.
  - unfold mirrored, persisted. simpl. rewrite Hd5, Hd4, Hd3. simpl.
    assert (Hpu := not_eq_sym Hup). assert (Hlu := not_eq_sym Hul).
    assert (Hlp := not_eq_sym Hpl).
    repeat (rewrite lookup_insert_eq || rewrite lookup_insert_ne by done). done.
Qed.

Lemma first_start_is_empty_witness :
  fst (startup Demo.cfg (mkSys Scene.empty_disk []))
  = mkLoaded (JArr []) (JArr []) (JArr [])
  /\ healthy Demo.cfg (disk (sys Scene.started))
  /\ mirrored Demo.cfg Scene.started.
Proof.
  assert (Hf : first_start Demo.cfg (disk (mkSys Scene.empty_disk []))).
  { unfold first_start, store_paths. apply (bool_decide_unpack _). by vm_compute. }
  exact (first_start_is_empty Demo.cfg (mkSys Scene.empty_disk []) Hf).
Defined.

(** What a call of [writeJsonFile] does to the disk and the console.  It
    returns in every case, and logs one line: the success line, and then
    the file holds the serialisation of the data, or the line of
    [console.error] with the error that was caught, of which the caller is
    told nothing.  No file but the one at the path is touched, no directory
    is removed, and what the disk refuses stays refused.  (What the file at
    the path holds after a write that failed is not stated.) *)
Theorem writeJsonFile_stores_or_keeps (filePath : string) (data : json) (y : Sys) :
  let y' := writeJsonFile filePath data y in
  denied (disk y') = denied (disk y)
  /\ dirs (disk y) ⊆ dirs (disk y')
  /\ (forall p, p <> filePath -> files (disk y') !! p = files (disk y) !! p)
  /\ ((files (disk y') !! filePath = Some (stringify data)
       /\ console y' = console y ++ [Log ("Datos guardados exitosamente en: " +:+ filePath)])
      \/ (exists e, console y'
                    = console y ++ [LogError ("Error escribiendo " +:+ filePath +:+ ":") e])).
Proof.
  unfold writeJsonFile, writeJsonFile_try, existsSync, mkdirSync, writeFileSync.
  repeat (case_bool_decide; simpl);
    (split_and!; [done|set_solver|try done; by intros p Hp; rewrite lookup_insert_ne|]);
    first [left; split; [by rewrite lookup_insert_eq|reflexivity]
          | right; eexists; reflexivity].
Qed.


(** ** The stored image of a publication *)

Lemma last_slash_app (a b : string) :
  last_slash (a +:+ b) = None <-> last_slash a = None /\ last_slash b = None.
Proof.
  induction a as [|c a IH]; str_simpl; simpl; [naive_solver|].
  destruct (last_slash (a +:+ b)), (last_slash a), (N_of_ascii c =? 47)%N; naive_solver.
Qed.

Lemma last_slash_uint (d : uint) : last_slash (string_of_uint d) = None.
Proof. induction d; simpl; [done|by rewrite IHd..]. Qed.

Lemma last_slash_number (n : Z) : last_slash (number_to_string n) = None.
Proof.
  unfold number_to_string. destruct (Z.to_int n); simpl; by rewrite ?last_slash_uint.
Qed.

Lemma substring_all (s : string) : String.substring 0 (String.length s) s = s.
Proof. induction s as [|c s IH]; simpl; [done|by rewrite IH]. Qed.

Lemma last_slash_split_pop (s : string) : last_slash (split_pop s) = None.
Proof.
  induction s as [|c s IH]; [done|]. unfold split_pop in *. simpl.
  destruct (last_slash s) as [i|] eqn:E.
  - simpl. exact IH.
  - destruct (N_of_ascii c =? 47)%N eqn:Ec.
    + simpl. rewrite Nat.sub_0_r, substring_all. exact E.
    + simpl. by rewrite E, Ec.
Qed.

Lemma last_slash_substring (s : string) (i n : nat) :
  last_slash s = None -> last_slash (String.substring i n s) = None.
Proof.
  revert i n. induction s as [|c s IH]; intros i n; simpl.
  - by destruct i, n.
  - destruct (last_slash s) eqn:E; [done|].
    destruct (N_of_ascii c =? 47)%N eqn:Ec; [done|]. intros _.
    destruct i as [|i]; [destruct n as [|n]; [done|]|]; simpl.
    + by rewrite IH, Ec.
    + by apply IH.
Qed.

Lemma last_slash_extname (path : string) : last_slash (extname path) = None.
Proof.
  unfold extname. destruct (last_dot _) as [[|i]|]; try done.
  case_bool_decide; [done|]. apply last_slash_substring, last_slash_split_pop.
Qed.

Lemma multer_filename_plain (now random : Z) (originalname : string) :
  last_slash (multer_filename now random originalname) = None
  /\ multer_filename now random originalname <> "".
Proof.
  unfold multer_filename. split.
  - rewrite !last_slash_app.
    split_and!; [apply last_slash_number|done|apply last_slash_number|apply last_slash_extname].
  - rewrite <- !append_assoc. by destruct (number_to_string now).
Qed.

Lemma number_to_string_head (n : Z) :
  exists c r, number_to_string n = String c r /\ c <> "."%char.
Proof.
  unfold number_to_string. pose proof (to_int_plain n) as Hp.
  destruct (Z.to_int n) as [d|d]; [|by eexists _, _].
  destruct Hp as [Hd _]. destruct d; try done; by eexists _, _.
Qed.

Lemma multer_filename_segment (now random : Z) (originalname : string) :
  segment (multer_filename now random originalname).
Proof.
  destruct (multer_filename_plain now random originalname) as [Hplain Hne].
  split_and!; [done| | |done]; unfold multer_filename;
    destruct (number_to_string_head now) as (c & r & -> & Hc);
    str_simpl; intros [= -> _]; done.
Qed.

Lemma split_pop_after_slash (d name : string) :
  last_slash name = None -> split_pop (d +:+ "/" +:+ name) = name.
Proof.
  intros Hn. unfold split_pop.
  change (d +:+ "/" +:+ name) with (d +:+ String "/" name).
  assert (Hl : last_slash (d +:+ String "/" name) = Some (String.length d)).
  { induction d as [|c d IH]; str_simpl; simpl; [by rewrite Hn|by rewrite IH]. }
  rewrite Hl. clear Hl. induction d as [|c d IH]; str_simpl.
  - simpl. by rewrite Nat.sub_0_r, substring_all.
  - simpl. exact IH.
Qed.





(** The delete route reads two fields.  Two delete requests whose
    publications agree on [imagePath] and [imageName] have the same answer
    and the same effect, whoever sends them and whatever the other fields of
    the publication say: the [username] of the body is not looked at. *)
Theorem delete_reads_only_the_key (cfg : Config) (requester requester' : string)
    (publication publication' : Pub.t) (s : State) :
  key publication = key publication' ->
  delete_publicaciones cfg requester publication s
  = delete_publicaciones cfg requester' publication' s.
Proof.
  destruct publication as [a b c d e], publication' as [a' b' c' d' e'].
  unfold key. simpl. intros [= <- <-]. reflexivity.
Qed.

Lemma delete_reads_only_the_key_witness :
  delete_publicaciones Demo.cfg "ana" Demo.a_png Demo.s_twins
  = delete_publicaciones Demo.cfg "luis" Demo.a_png_again Demo.s_twins.
Proof.
  exact (delete_reads_only_the_key Demo.cfg "ana" "luis" Demo.a_png Demo.a_png_again
           Demo.s_twins eq_refl).
Defined.


(** ** What stays *)

Lemma delete_other_key (publication q : Pub.t) (l : list Pub.t) (j : nat) (first : Pub.t) :
  list_find (fun pub => same_pub publication pub = true) l = Some (j, first) ->
  key publication <> key q -> q ∈ l -> q ∈ delete j l.
Proof.
  intros Hfind Hkey Hq.
  destruct (find_pub_first publication l j first Hfind) as (before & after & -> & Hk & _ & ->).
  rewrite elem_of_app in Hq |- *. rewrite elem_of_cons in Hq.
  destruct Hq as [?|[->|?]]; [by left| |by right]. congruence.
Qed.

Lemma handle_keeps_post (cfg : Config) (rt : Runtime) (req : Request) (s : State)
    (p : Pub.t) :
  p ∈ publicaciones s ->
  (forall u publication, req = DELETE_publicaciones u publication ->
     key publication <> key p) ->
  p ∈ publicaciones (snd (handle cfg rt req s)).
Proof.
  intros Hp Hreq. destruct req; simpl; try done.
  - rewrite post_usuarios_unfold. by repeat case_match.
  - unfold post_login. by repeat case_match.
  - unfold post_upload. destruct file; [|done]. simpl. apply elem_of_app. by left.
  - unfold delete_publicaciones.
    destruct (list_find _ (publicaciones s)) as [[j first]|] eqn:Hfind; [|done].
    destruct (remove_image cfg publication (disk (sys s))); [|done]. simpl.
    eapply delete_other_key; eauto.
  - unfold get_likes. by repeat case_match.
  - unfold post_likes. by repeat case_match.
  - unfold delete_likes. by repeat case_match.
Qed.

Lemma liked_by_cascade (publication : Pub.t) (u : string) (ls : list Like.t) :
  liked_by u (map (unlike publication) ls)
  = filter (fun q => key q <> key publication) (liked_by u ls).
Proof.
  induction ls as [|like ls IH]; [done|].
  simpl. rewrite !liked_by_cons. simpl.
  destruct (decide (Like.username like = u)); [apply unlike_spec|done].
Qed.

Lemma liked_by_found (username : string) (ls : list Like.t) (i : nat) (like : Like.t) :
  list_find (fun l => Like.username l = username) ls = Some (i, like) ->
  liked_by username ls = Like.likedPublications like.
Proof. intros H. unfold liked_by. by rewrite H. Qed.

Lemma handle_keeps_like (cfg : Config) (rt : Runtime) (req : Request) (s : State)
    (u : string) (q : Pub.t) :
  q ∈ liked_by u (likes s) ->
  (forall requester publication, req = DELETE_publicaciones requester publication ->
     key publication <> key q) ->
  (forall publication, req = DELETE_likes u publication -> key publication <> key q) ->
  q ∈ liked_by u (likes (snd (handle cfg rt req s))).
Proof.
  intros Hq Hpub Hlike. destruct req; simpl; try done.
  - rewrite post_usuarios_unfold. by repeat case_match.
  - unfold post_login. by repeat case_match.
  - unfold post_upload. by destruct file.
  - unfold delete_publicaciones.
    destruct (list_find _ (publicaciones s)) as [[j first]|]; [|done].
    destruct (remove_image cfg publication (disk (sys s))); [|done]. simpl.
    rewrite liked_by_cascade. apply list_elem_of_filter. split; [|done].
    intros E. by apply (Hpub username publication).
  - unfold get_likes. by repeat case_match.
  - unfold post_likes.
    destruct (list_find _ (likes s)) as [[i like]|] eqn:Hfind.
    + destruct (existsb _ _); simpl; [done|].
      rewrite (liked_by_update username) by done.
      destruct (decide (u = username)) as [->|Hne]; [|done].
      rewrite (liked_by_found _ _ _ _ Hfind) in Hq. apply elem_of_app. by left.
    + simpl. rewrite push_then_fill, liked_by_push.
      destruct (decide (u ∈ map Like.username (likes s))) as [Hin|Hnin]; [done|].
      rewrite liked_by_no_entry in Hq by done. by apply elem_of_nil in Hq.
  - unfold delete_likes.
    destruct (list_find _ (likes s)) as [[i like]|] eqn:Hfind; [|done].
    destruct (list_find _ (Like.likedPublications like)) as [[j first]|] eqn:Hj; [|done].
    simpl. rewrite (liked_by_update username) by done.
    destruct (decide (u = username)) as [->|Hne]; [|done].
    rewrite (liked_by_found _ _ _ _ Hfind) in Hq.
    eapply delete_other_key; eauto.
Qed.

(** A publication stays in the catalogue until it is deleted.  Whatever
    requests are served, a record of the catalogue is still in it afterwards
    unless one of them was a delete of a publication with its [imagePath]
    and [imageName]. *)
Theorem post_stays_until_deleted (cfg : Config) (reqs : list (Runtime * Request))
    (s : State) (p : Pub.t) :
  p ∈ publicaciones s ->
  (forall rt requester publication,
     (rt, DELETE_publicaciones requester publication) ∈ reqs -> key publication <> key p) ->
  p ∈ publicaciones (serve cfg reqs s).
Proof.
  revert s. induction reqs as [|[rt req] reqs IH]; intros s Hp Hreqs; [done|].
  simpl. apply IH.
  - apply handle_keeps_post; [done|]. intros u publication ->.
    apply (Hreqs rt u publication), elem_of_cons. by left.
  - intros rt' u publication Hin. apply (Hreqs rt' u publication), elem_of_cons. by right.
Qed.

Lemma post_stays_until_deleted_witness :
  Demo.a_png ∈ publicaciones
    (serve Demo.cfg [(Demo.rt, DELETE_publicaciones "ana" Demo.b_png);
                     (Demo.rt, POST_likes "luis" Demo.a_png)] Demo.s_twins).
Proof.
  apply (post_stays_until_deleted Demo.cfg
           [(Demo.rt, DELETE_publicaciones "ana" Demo.b_png);
            (Demo.rt, POST_likes "luis" Demo.a_png)] Demo.s_twins Demo.a_png).
  - apply elem_of_cons. by left.
  - intros rt requester publication Hin.
    apply elem_of_cons in Hin as [[= _ _ ->]|Hin]; [done|].
    apply elem_of_cons in Hin as [[=]|Hin]. by apply elem_of_nil in Hin.
Defined.

(** A like stays until it is taken back or its publication is deleted.
    Whatever requests are served, a record among the liked publications of a
    user is still among them afterwards, unless one of the requests was an
    unlike of that user or a delete of a publication, with the [imagePath]
    and [imageName] of the record. *)
Theorem like_stays_until_removed (cfg : Config) (reqs : list (Runtime * Request))
    (s : State) (u : string) (q : Pub.t) :
  q ∈ liked_by u (likes s) ->
  (forall rt requester publication,
     (rt, DELETE_publicaciones requester publication) ∈ reqs -> key publication <> key q) ->
  (forall rt publication,
     (rt, DELETE_likes u publication) ∈ reqs -> key publication <> key q) ->
  q ∈ liked_by u (likes (serve cfg reqs s))
  /\ exists liked,
       fst (get_likes u (serve cfg reqs s)) = mkResponse 200 (pubs_json liked) /\ q ∈ liked.
Proof.
  intros Hq Hpub Hlike.
  assert (Hin : q ∈ liked_by u (likes (serve cfg reqs s))).
  { revert s Hq. induction reqs as [|[rt req] reqs IH]; intros s Hq; [done|].
    simpl. apply IH.
    - intros rt' r publication Hin. apply (Hpub rt' r publication), elem_of_cons. by right.
    - intros rt' publication Hin. apply (Hlike rt' publication), elem_of_cons. by right.
    - apply handle_keeps_like; [done| |].
      + intros r publication ->. apply (Hpub rt r publication), elem_of_cons. by left.
      + intros publication ->. apply (Hlike rt publication), elem_of_cons. by left. }
  split; [done|]. exists (liked_by u (likes (serve cfg reqs s))). split; [|done].
  rewrite get_likes_liked_by.
  destruct (decide (u ∈ map Like.username (likes (serve cfg reqs s)))) as [|Hno]; [done|].
  rewrite liked_by_no_entry in Hin by done. by apply elem_of_nil in Hin.
Qed.

Lemma like_stays_until_removed_witness :
  Demo.b_png ∈ liked_by "ana"
    (likes (serve Demo.cfg [(Demo.rt, DELETE_publicaciones "luis" Demo.a_png);
                            (Demo.rt, DELETE_likes "luis" Demo.b_png)] Demo.s_twins)).
Proof.
  apply (like_stays_until_removed Demo.cfg
           [(Demo.rt, DELETE_publicaciones "luis" Demo.a_png);
            (Demo.rt, DELETE_likes "luis" Demo.b_png)] Demo.s_twins "ana" Demo.b_png).
  - apply elem_of_cons. right. apply elem_of_cons. by left.
  - intros rt requester publication Hin.
    apply elem_of_cons in Hin as [[= _ _ ->]|Hin]; [done|].
    apply elem_of_cons in Hin as [[=]|Hin]. by apply elem_of_nil in Hin.
  - intros rt publication Hin.
    apply elem_of_cons in Hin as [[=]|Hin].
    apply elem_of_cons in Hin as [[=]|Hin]. by apply elem_of_nil in Hin.
Defined.

(** An entry of the like index is never taken away.  Once the list of likes
    of a user is answered 200 it is answered 200 after any further requests:
    unlikes and deletes empty an entry but leave it in place. *)
Theorem listFor_stays_found (cfg : Config) (reqs : list (Runtime * Request))
    (s : State) (u : string) :
  status (fst (get_likes u s)) = 200%Z ->
  status (fst (get_likes u (serve cfg reqs s))) = 200%Z.
Proof.
  rewrite !get_likes_liked_by. intros H.
  destruct (decide (u ∈ map Like.username (likes s))) as [Hin|]; [|done].
  rewrite decide_True; [done|]. apply serve_like_usernames. by left.
Qed.

Lemma listFor_stays_found_witness :
  status (fst (get_likes "ana"
    (serve Demo.cfg [(Demo.rt, DELETE_publicaciones "luis" Demo.a_png);
                     (Demo.rt, DELETE_likes "ana" Demo.b_png)] Demo.s_twins))) = 200%Z.
Proof.
  exact (listFor_stays_found Demo.cfg
           [(Demo.rt, DELETE_publicaciones "luis" Demo.a_png);
            (Demo.rt, DELETE_likes "ana" Demo.b_png)] Demo.s_twins "ana" eq_refl).
Defined.


(** ** Writes that fail *)

Lemma writeJsonFile_denied_path (filePath : string) (data : json) (y : Sys) :
  filePath ∈ denied (disk y) ->
  files (disk (writeJsonFile filePath data y)) = files (disk y)
  /\ exists e, console (writeJsonFile filePath data y)
               = console y ++ [LogError ("Error escribiendo " +:+ filePath +:+ ":") e].
Proof.
  intros Hden. unfold writeJsonFile, writeJsonFile_try, existsSync, mkdirSync, writeFileSync.
  repeat (case_bool_decide; simpl); try done; split; try done; by eexists.
Qed.

(** A registration that cannot be saved.  When the operating system refuses
    the write of the user file, a registration of a new user with a non-empty
    name and password is still answered 201: the user is in the array of the
    process, no file has changed, and the failure shows only as a line of
    [console.error]. *)
Theorem register_survives_failed_write (cfg : Config) (rt : Runtime)
    (name pass hashed : string) (s : State) :
  name <> "" -> pass <> "" ->
  name ∉ map User.username (usuarios s) ->
  bcrypt_hash rt pass = Some hashed ->
  usuariosFilePath cfg ∈ denied (disk (sys s)) ->
  let r := post_usuarios cfg rt (Some name) (Some pass) s in
  fst r = mkResponse 201 (message "Usuario creado exitosamente")
  /\ usuarios (snd r) = usuarios s ++ [User.mk name hashed]
  /\ files (disk (sys (snd r))) = files (disk (sys s))
  /\ exists e, console (sys (snd r))
               = console (sys s)
                 ++ [LogError ("Error escribiendo " +:+ usuariosFilePath cfg +:+ ":") e].
Proof.
  intros Hn Hp Hnew Hhash Hden r. unfold r. rewrite post_usuarios_unfold.
  rewrite !falsy_some, !bool_decide_eq_false_2 by done. simpl.
  rewrite (proj2 (find_user_None _ _) Hnew), Hhash. simpl.
  split_and!; [done|done|..]; by apply writeJsonFile_denied_path.
Qed.

Lemma register_survives_failed_write_witness :
  let r := post_usuarios Demo.cfg Demo.rt (Some "ana") (Some "secret") Scene.s_readonly in
  fst r = mkResponse 201 (message "Usuario creado exitosamente")
  /\ usuarios (snd r) = [User.mk "ana" "$2a$10$secret"]
  /\ files (disk (sys (snd r))) = ∅
  /\ exists e, console (sys (snd r))
               = [LogError ("Error escribiendo " +:+ usuariosFilePath Demo.cfg +:+ ":") e].
Proof.
  assert (Hn : "ana" <> "") by discriminate.
  assert (Hp : "secret" <> "") by discriminate.
  assert (Hnew : "ana" ∉ map User.username (usuarios Scene.s_readonly))
    by apply not_elem_of_nil.
  assert (Hden : usuariosFilePath Demo.cfg ∈ denied (disk (sys Scene.s_readonly)))
    by (apply (bool_decide_unpack _); by vm_compute).
  exact (register_survives_failed_write Demo.cfg Demo.rt "ana" "secret" "$2a$10$secret"
           Scene.s_readonly Hn Hp Hnew eq_refl Hden).
Defined.

Lemma legacy_register_existing (path : string) (rt : Runtime) (name pass : string)
    (s : State) :
  name ∈ map User.username (usuarios s) ->
  Legacy.post_usuarios path rt name pass s
  = (mkResponse 400 (message "El usuario ya existe"), s).
Proof.
  intros Hin. unfold Legacy.post_usuarios.
  by destruct (find_user_present name (usuarios s) Hin) as [[i u] ->].
Qed.

(** The same registration in the earlier copy of the server.  There the
    write is not guarded: when it throws after the push, the answer is 500,
    yet the user stays in the array of the process, no file has changed, and
    a second try of the same username is answered 400 as an existing user. *)
Theorem legacy_failed_registration_sticks (path : string) (rt : Runtime)
    (name pass again hashed : string) (s : State) :
  name ∉ map User.username (usuarios s) ->
  bcrypt_hash rt pass = Some hashed ->
  path ∈ denied (disk (sys s)) ->
  let r := Legacy.post_usuarios path rt name pass s in
  status (fst r) = 500%Z
  /\ usuarios (snd r) = usuarios s ++ [User.mk name hashed]
  /\ disk (sys (snd r)) = disk (sys s)
  /\ Legacy.post_usuarios path rt name again (snd r)
     = (mkResponse 400 (message "El usuario ya existe"), snd r).
Proof.
  intros Hnew Hhash Hden r.
  assert (Hr : r = (mkResponse 500
                      (Legacy.failure "Error al crear el usuario"
                         (Legacy.error_json EACCES "open" path)),
                    mkState (usuarios s ++ [User.mk name hashed]) (publicaciones s)
                      (likes s) (sys s))).
  { unfold r, Legacy.post_usuarios.
    rewrite (proj2 (find_user_None _ _) Hnew), Hhash.
    unfold Legacy.writeJsonFile, writeFileSync. by rewrite (bool_decide_eq_true_2 _ Hden). }
  rewrite Hr. cbn [fst snd status usuarios sys]. split_and!; try done.
  apply legacy_register_existing. cbn [usuarios].
  rewrite map_app. apply elem_of_app. right. apply elem_of_cons. by left.
Qed.

Lemma legacy_failed_registration_sticks_witness :
  let r := Legacy.post_usuarios (usuariosFilePath Demo.cfg) Demo.rt "ana" "secret"
             Scene.s_readonly in
  status (fst r) = 500%Z
  /\ usuarios (snd r) = [User.mk "ana" "$2a$10$secret"]
  /\ disk (sys (snd r)) = Demo.readonly_disk
  /\ Legacy.post_usuarios (usuariosFilePath Demo.cfg) Demo.rt "ana" "otra" (snd r)
     = (mkResponse 400 (message "El usuario ya existe"), snd r).
Proof.
  assert (Hnew : "ana" ∉ map User.username (usuarios Scene.s_readonly))
    by apply not_elem_of_nil.
  assert (Hden : usuariosFilePath Demo.cfg ∈ denied (disk (sys Scene.s_readonly)))
    by (apply (bool_decide_unpack _); by vm_compute).
  exact (legacy_failed_registration_sticks (usuariosFilePath Demo.cfg) Demo.rt "ana"
           "secret" "otra" "$2a$10$secret" Scene.s_readonly Hnew eq_refl Hden).
Defined.

(** The record store of the earlier copy round-trips as well: what its
    [writeJsonFile] stored without throwing, its [readJsonFile] returns. *)
Theorem legacy_write_then_read (filePath : string) (data : json) (d d' : FS) :
  wf_json data = true ->
  Legacy.writeJsonFile filePath data d = Ok d' ->
  Legacy.readJsonFile filePath d' = Ok data.
Proof.
  intros Hwf. unfold Legacy.writeJsonFile, writeFileSync, Legacy.readJsonFile.
  repeat case_bool_decide; try done. intros [= <-].
  unfold existsSync, readFileSync. simpl. rewrite lookup_insert_eq.
  rewrite (bool_decide_eq_true_2 (is_Some (Some _))) by eauto. simpl.
  rewrite bool_decide_eq_false_2 by done. by rewrite parse_stringify.
Qed.

Lemma legacy_write_then_read_witness :
  exists d',
    Legacy.writeJsonFile (usuariosFilePath Demo.cfg)
      (users_json [User.mk "ana" "$2a$10$secret"]) Demo.fresh_disk = Ok d'
    /\ Legacy.readJsonFile (usuariosFilePath Demo.cfg) d'
       = Ok (users_json [User.mk "ana" "$2a$10$secret"]).
Proof.
  eexists. split; [reflexivity|].
  exact (legacy_write_then_read (usuariosFilePath Demo.cfg)
           (users_json [User.mk "ana" "$2a$10$secret"]) Demo.fresh_disk _ eq_refl eq_refl).
Defined.


(** ** The files the server touches *)

Lemma remove_image_other (cfg : Config) (publication : Pub.t) (d dk : FS) (p : string) :
  remove_image cfg publication d = Ok dk ->
  path_join (UPLOADS_DIR cfg) (split_pop (Pub.imagePath publication)) <> p ->
  files dk !! p = files d !! p.
Proof.
  unfold remove_image, unlinkSync. intros H Hne.
  destruct (existsSync _ d); [|by injection H as <-].
  case_bool_decide; [done|].
  destruct (files d !! path_join _ _); [|by case_bool_decide].
  injection H as <-. simpl. by rewrite lookup_delete_ne.
Qed.

Lemma handle_keeps_file (cfg : Config) (rt : Runtime) (req : Request) (s : State)
    (p : string) :
  p ∉ store_paths cfg ->
  (forall requester publication, req = DELETE_publicaciones requester publication ->
     path_join (UPLOADS_DIR cfg) (split_pop (Pub.imagePath publication)) <> p) ->
  files (disk (sys (snd (handle cfg rt req s)))) !! p = files (disk (sys s)) !! p.
Proof.
  unfold store_paths. rewrite !not_elem_of_cons. intros (Hu & Hp & Hl & _) Hreq.
  destruct req; simpl; try done.
  - rewrite post_usuarios_unfold. repeat case_match; simpl; try done. by apply writeJsonFile_other.
  - unfold post_login. by repeat case_match.
  - unfold post_upload. destruct file; simpl; [|done]. by apply writeJsonFile_other.
  - unfold delete_publicaciones.
    destruct (list_find _ (publicaciones s)) as [[j first]|]; [|done].
    destruct (remove_image cfg publication (disk (sys s))) as [dk|e] eqn:Hrm; [|done].
    simpl. rewrite !writeJsonFile_other by done. simpl.
    eapply remove_image_other; eauto.
  - unfold get_likes. by repeat case_match.
  - unfold post_likes. repeat case_match; simpl; try done; by apply writeJsonFile_other.
  - unfold delete_likes. repeat case_match; simpl; try done. by apply writeJsonFile_other.
Qed.


(** ** The names of the stored images *)

Lemma strip_slashes_plain (s : string) : last_slash s = None -> strip_slashes s = s.
Proof.
  induction s as [|c s IH]; [done|]. simpl.
  destruct (last_slash s); [done|].
  destruct (N_of_ascii c =? 47)%N eqn:Ec; [done|]. intros _.
  rewrite IH by done. by destruct s.
Qed.

Lemma split_pop_plain (s : string) : last_slash s = None -> split_pop s = s.
Proof. intros H. unfold split_pop. by rewrite H. Qed.

Lemma last_dot_after (stem ext : string) :
  last_dot ext = None -> last_dot (stem +:+ String "." ext) = Some (String.length stem).
Proof.
  intros He. induction stem as [|c stem IH]; str_simpl; simpl; [by rewrite He|by rewrite IH].
Qed.

Lemma substring_suffix (stem rest : string) :
  String.substring (String.length stem)
    (String.length (stem +:+ rest) - String.length stem) (stem +:+ rest) = rest.
Proof.
  induction stem as [|c stem IH]; str_simpl; simpl; [|done].
  by rewrite Nat.sub_0_r, substring_all.
Qed.

Lemma extname_of_plain (stem ext : string) :
  stem <> "" -> stem <> "." \/ ext <> "" ->
  last_slash stem = None -> last_slash ext = None -> last_dot ext = None ->
  extname (stem +:+ "." +:+ ext) = "." +:+ ext.
Proof.
  intros Hne Hdots Hs He Hd.
  change (stem +:+ "." +:+ ext) with (stem +:+ String "." ext).
  change ("." +:+ ext) with (String "." ext).
  assert (Hplain : last_slash (stem +:+ String "." ext) = None).
  { apply last_slash_app. split; [done|]. simpl. by rewrite He. }
  unfold extname. rewrite strip_slashes_plain, split_pop_plain by done.
  rewrite last_dot_after by done.
  destruct stem as [|c stem]; [done|]. cbn [String.length].
  rewrite bool_decide_eq_false_2.
  - apply (substring_suffix (String c stem)).
  - str_simpl. intros [= -> H]. destruct stem as [|c' stem]; str_simpl.
    + injection H as ->. by destruct Hdots.
    + revert H. str_simpl. intros [= _ H]. by destruct stem.
Qed.

Lemma UPLOADS_DIR_nonempty (cfg : Config) : UPLOADS_DIR cfg <> "".
Proof.
  unfold UPLOADS_DIR. rewrite path_join_segment by segment. by destruct (PERSISTENT_DIR cfg).
Qed.

(** The stored image lies in the uploads directory.  Whatever original name
    the client sends, the name that the [filename] callback makes is not
    empty and has no slash, so the file that multer stores lies directly in
    the uploads directory, under that name, and is none of the three JSON
    files. *)
Theorem stored_name_in_uploads (cfg : Config) (now random : Z) (originalname : string) :
  let fileName := multer_filename now random originalname in
  let stored := path_join (UPLOADS_DIR cfg) fileName in
  fileName <> "" /\ last_slash fileName = None
  /\ path_dirname stored = UPLOADS_DIR cfg
  /\ split_pop stored = fileName
  /\ stored ∉ store_paths cfg.
Proof.
  intros fileName stored.
  destruct (multer_filename_plain now random originalname) as [Hplain Hne].
  pose proof (multer_filename_segment now random originalname) as Hseg.
  fold fileName in Hplain, Hne, Hseg. split_and!; [done|done| | |].
  - apply path_dirname_join; [apply UPLOADS_DIR_nonempty|done].
  - unfold stored. rewrite path_join_segment by done.
    by apply split_pop_after_slash.
  - intros Hin. by apply (image_path_not_store cfg fileName stored Hin).
Qed.

(** The stored name keeps the extension.  For an original name without
    slashes that ends in a dot and an extension without dots, after a stem
    that is not empty, the stored name is the time, a dash, the random
    number, and that dot and extension. *)
Theorem stored_name_keeps_extension (now random : Z) (stem ext : string) :
  stem <> "" -> stem <> "." \/ ext <> "" ->
  last_slash stem = None -> last_slash ext = None -> last_dot ext = None ->
  multer_filename now random (stem +:+ "." +:+ ext)
  = number_to_string now +:+ "-" +:+ number_to_string random +:+ "." +:+ ext.
Proof.
  intros Hne Hdots Hs He Hd. unfold multer_filename.
  rewrite extname_of_plain by done. by rewrite <- !append_assoc.
Qed.

Lemma stored_name_keeps_extension_witness :
  multer_filename 1700000000000 42 "foto.de.perfil.png" = "1700000000000-42.png".
Proof.
  assert (Hne : "foto.de.perfil" <> "") by discriminate.
  assert (Hdots : "foto.de.perfil" <> "." \/ "png" <> "") by (left; discriminate).
  exact (stored_name_keeps_extension 1700000000000 42 "foto.de.perfil" "png"
           Hne Hdots eq_refl eq_refl eq_refl).
Defined.

(** The stored name of a file without extension.  For an original name
    without slashes that has no dot, or whose only dot is its first
    character, the stored name is the time, a dash and the random number,
    and nothing else. *)
Theorem stored_name_without_extension (now random : Z) (originalname : string) :
  last_slash originalname = None ->
  last_dot originalname = None \/ last_dot originalname = Some 0 ->
  multer_filename now random originalname
  = number_to_string now +:+ "-" +:+ number_to_string random.
Proof.
  intros Hs Hd. unfold multer_filename, extname.
  rewrite strip_slashes_plain, split_pop_plain by done.
  destruct Hd as [->| ->]; by rewrite append_nil_r.
Qed.

Lemma stored_name_without_extension_witness :
  multer_filename 1700000000000 42 ".bashrc" = "1700000000000-42".
Proof.
  exact (stored_name_without_extension 1700000000000 42 ".bashrc" eq_refl
           (or_intror eq_refl)).
Defined.

(** ** The process as it runs *)

(** *** The typed requests among the others *)

Lemma findIndex_defined (publication : Pub.t) (l : list Pub.t) :
  Raw.findIndex (fun pub => Raw.same_key pub (Some publication)) (map Some l)
  = Ok (fst <$> list_find (fun pub => same_pub publication pub = true) l).
Proof.
  induction l as [|x l IH]; [done|].
  cbn [map Raw.findIndex Raw.same_key list_find].
  destruct (same_pub publication x) eqn:E.
  - by rewrite decide_True.
  - rewrite decide_False by done. rewrite IH.
    by destruct (list_find _ l) as [[]|].
Qed.

Lemma some_defined (publication : Pub.t) (l : list Pub.t) :
  Raw.some (fun likedPub => Raw.same_key likedPub (Some publication)) (map Some l)
  = Ok (existsb (same_pub publication) l).
Proof.
  unfold Raw.some. induction l as [|x l IH]; [done|].
  cbn [map Raw.findIndex Raw.same_key existsb].
  destruct (same_pub publication x); [done|]. cbn [orb].
  destruct (Raw.findIndex _ (map Some l)) as [[i|]|e]; congruence.
Qed.

Lemma keep_others_defined (publication : Pub.t) (l : list Pub.t) :
  Raw.keep_others publication (map Some l)
  = Ok (map Some (List.filter (fun q => negb (same_pub publication q)) l)).
Proof.
  induction l as [|x l IH]; [done|].
  cbn [map Raw.keep_others Raw.same_key List.filter]. rewrite IH.
  by destruct (same_pub publication x).
Qed.

Lemma cascade_defined (publication : Pub.t) (ls : list Like.t) :
  Raw.cascade publication (map raw_like ls)
  = (map raw_like (map (unlike publication) ls), None).
Proof.
  induction ls as [|like ls IH]; [done|]. simpl.
  by rewrite keep_others_defined, IH.
Qed.

Lemma likes_json_defined (ls : list Like.t) :
  Raw.likes_json (map raw_like ls) = likes_json ls.
Proof.
  unfold Raw.likes_json, likes_json. f_equal. rewrite map_map.
  apply map_ext. intros l. unfold Raw.like_json, like_json. simpl.
  by rewrite map_map.
Qed.

Lemma find_like_defined (u : string) (ls : list Like.t) :
  list_find (fun like => Raw.Entry.username like = u) (map raw_like ls)
  = prod_map id raw_like <$> list_find (fun like => Like.username like = u) ls.
Proof.
  induction ls as [|like ls IH]; [done|]. simpl.
  destruct (decide (Like.username like = u)) as [E|E]; [done|].
  rewrite IH. by destruct (list_find _ ls) as [[]|].
Qed.

Lemma raw_like_mk (u : string) (l : list Pub.t) :
  Raw.Entry.mk u (map Some l) = raw_like (Like.mk u l).
Proof. reflexivity. Qed.

Lemma map_last {A B} (f : A -> B) (l : list A) (x : A) :
  map f (l ++ [x]) = map f l ++ [f x].
Proof. by rewrite map_app. Qed.

Lemma raw_like_insert (ls : list Like.t) (i : nat) (like : Like.t) :
  <[i := raw_like like]> (map raw_like ls) = map raw_like (<[i := like]> ls).
Proof. symmetry. apply (list_fmap_insert raw_like). Qed.

(** The five handlers that do not mention [likes] do not depend on it. *)
Lemma handler_without_likes (cfg : Config) (rt : Runtime) (req : Request) (s : State) :
  match req with
  | DELETE_publicaciones _ _ | GET_likes _ | POST_likes _ _ | DELETE_likes _ _
  | GET_data | GET_root => True
  | _ =>
      Raw.without_likes (handle cfg rt req) (raw_state s)
      = (Raw.Sent (fst (handle cfg rt req s)), raw_state (snd (handle cfg rt req s)))
  end.
Proof.
  destruct s as [us ps ls y].
  destruct req; try done; unfold Raw.without_likes, raw_state; simpl.
  - rewrite !post_usuarios_unfold. simpl. repeat case_match; by simplify_eq/=.
  - unfold post_login. simpl. repeat case_match; by simplify_eq/=.
  - unfold post_upload. by destruct file.
Qed.

(** On a request that the data model types, in a state whose like lists
    hold publications, the process does what the typed handler does. *)
Lemma handle_refines (cfg : Config) (rt : Runtime) (req : Request) (s : State) :
  Raw.handle cfg rt (raw_request req) (raw_state s)
  = (Raw.Sent (fst (handle cfg rt req s)), raw_state (snd (handle cfg rt req s))).
Proof.
  pose proof (handler_without_likes cfg rt req s) as Hw.
  destruct req; try exact Hw; clear Hw; simpl.
  - unfold Raw.delete_publicaciones, delete_publicaciones, raw_state. simpl.
    destruct (list_find _ (publicaciones s)) as [[i first]|]; [|done].
    destruct (remove_image cfg publication (disk (sys s))); [|done].
    rewrite cascade_defined. simpl. by rewrite likes_json_defined.
  - unfold Raw.get_likes, get_likes, raw_state. simpl. rewrite find_like_defined.
    destruct (list_find _ (likes s)) as [[i like]|]; simpl; [|done].
    unfold pubs_json. by rewrite map_map.
  - unfold Raw.post_likes, post_likes, raw_state. simpl. rewrite find_like_defined.
    destruct (list_find _ (likes s)) as [[i like]|]; simpl.
    + rewrite some_defined. destruct (existsb _ _); [done|]. simpl.
      rewrite <- map_last, raw_like_mk, raw_like_insert. by rewrite likes_json_defined.
    + rewrite length_map.
      change (Raw.Entry.mk username []) with (raw_like (Like.mk username [])).
      rewrite <- map_last.
      change (Raw.Entry.mk username [Some publication])
        with (raw_like (Like.mk username [publication])).
      rewrite raw_like_insert. by rewrite likes_json_defined.
  - unfold Raw.delete_likes, delete_likes, raw_state. simpl. rewrite find_like_defined.
    destruct (list_find _ (likes s)) as [[i like]|]; simpl; [|done].
    rewrite findIndex_defined.
    destruct (list_find _ (Like.likedPublications like)) as [[j first]|]; simpl; [|done].
    change (delete j (map Some (Like.likedPublications like)))
      with (delete j (Some <$> Like.likedPublications like)).
    rewrite <- list_fmap_delete.
    change (Some <$> delete j (Like.likedPublications like))
      with (map Some (delete j (Like.likedPublications like))).
    rewrite raw_like_mk, raw_like_insert. by rewrite likes_json_defined.
  - unfold Raw.get_data, get_data, Raw.snapshot, snapshot, raw_state. simpl.
    by rewrite likes_json_defined.
  - unfold Raw.get_root, get_root, Raw.snapshot, snapshot, raw_state. simpl.
    by rewrite likes_json_defined.
Qed.

(** *** The registry under the events *)

Lemma run_cons (cfg : Config) (e : Raw.Event) (events : list Raw.Event) (p : Raw.Process) :
  snd (Raw.run cfg (e :: events) p) = snd (Raw.run cfg events (snd (Raw.step cfg e p))).
Proof.
  simpl. destruct (Raw.step cfg e p) as [a p1]. simpl.
  by destruct (Raw.run cfg events p1).
Qed.

Lemma without_likes_answer (handler : State -> Response * State) (s : Raw.State) :
  fst (Raw.without_likes handler s)
  = Raw.Sent (fst (handler (mkState (Raw.usuarios s) (Raw.publicaciones s) [] (Raw.sys s)))).
Proof. unfold Raw.without_likes. by destruct (handler _) as [r []]. Qed.

Lemma without_likes_state (handler : State -> Response * State) (s : Raw.State) :
  snd (Raw.without_likes handler s)
  = let s' := snd (handler (mkState (Raw.usuarios s) (Raw.publicaciones s) [] (Raw.sys s))) in
    Raw.mk (usuarios s') (publicaciones s') (Raw.likes s) (sys s').
Proof. unfold Raw.without_likes. by destruct (handler _) as [r []]. Qed.

(** A request other than a registration is served in one step. *)
Lemma step_arrive (cfg : Config) (rt : Runtime) (req : Raw.Request) (p : Raw.Process) :
  match req with
  | Raw.POST_usuarios _ _ => True
  | _ =>
      Raw.step cfg (Raw.Arrive rt req) p
      = (Some (fst (Raw.handle cfg rt req (Raw.mem p))),
         Raw.mkProcess (snd (Raw.handle cfg rt req (Raw.mem p))) (Raw.awaiting p))
  end.
Proof. destruct req; try done; unfold Raw.step; by destruct (Raw.handle _ _ _ _). Qed.

Lemma start_awaiting (username password : option string) (s : State) (name pass : string) :
  post_usuarios_start username password s = Awaiting name pass ->
  username = Some name /\ password = Some pass /\ name <> ""
  /\ name ∉ map User.username (usuarios s).
Proof.
  unfold post_usuarios_start.
  destruct (falsy username || falsy password) eqn:Hf; [done|].
  destruct username as [n|], password as [pw|]; try done.
  apply orb_false_elim in Hf as [Hn _]. rewrite falsy_some in Hn.
  apply bool_decide_eq_false in Hn.
  destruct (list_find _ (usuarios s)) as [[]|] eqn:Hfind; [done|].
  intros [= <- <-]. split_and!; try done.
  intros Hin. apply find_user_present in Hin as [r Hr]. congruence.
Qed.

Lemma start_registered (name : string) (password : option string) (s : State) :
  name <> "" -> name ∈ map User.username (usuarios s) ->
  post_usuarios_start (Some name) password s
  = Answered (mkResponse 400
                (message (if falsy password then "Username y password son requeridos"
                          else "El usuario ya existe"))).
Proof.
  intros Hne Hin. unfold post_usuarios_start. rewrite falsy_some.
  rewrite (bool_decide_eq_false_2 _ Hne). cbn [orb].
  destruct (falsy password) eqn:Hf; [done|].
  destruct password as [pass|]; [|done].
  by destruct (find_user_present name (usuarios s) Hin) as [[i u] ->].
Qed.

Lemma start_unknown (other : string) (password : option string) (s : State) :
  other ∉ map User.username (usuarios s) ->
  post_usuarios_start (Some other) password s
  <> Answered (mkResponse 400 (message "El usuario ya existe")).
Proof.
  intros Hother. unfold post_usuarios_start.
  destruct (falsy (Some other) || falsy password); [done|].
  destruct password as [pass|]; [|done].
  destruct (list_find _ (usuarios s)) as [[i u]|] eqn:Hfind; [|done].
  exfalso. apply list_find_Some in Hfind as (Hi & Hu & _).
  apply Hother, list_elem_of_fmap. exists u. split; [done|].
  by eapply list_elem_of_lookup_2.
Qed.

(** Only a registration touches the registry. *)
Lemma handle_keeps_usuarios (cfg : Config) (rt : Runtime) (req : Raw.Request)
    (s : Raw.State) :
  match req with
  | Raw.POST_usuarios _ _ => True
  | _ => Raw.usuarios (snd (Raw.handle cfg rt req s)) = Raw.usuarios s
  end.
Proof.
  destruct req; try done; simpl; rewrite ?without_likes_state; simpl;
    unfold post_login, post_upload, Raw.delete_publicaciones, Raw.get_likes,
      Raw.post_likes, Raw.delete_likes;
    repeat case_match; simplify_eq/=; done.
Qed.

(** What one event does to the registry and to the registrations that wait:
    nothing; or a registration with a new, non-empty username starts to
    wait; or the registration at position [i] stops waiting, and its record
    is pushed when bcrypt gave a hash. *)
Lemma step_registry (cfg : Config) (e : Raw.Event) (p : Raw.Process) :
  (Raw.usuarios (Raw.mem (snd (Raw.step cfg e p))) = Raw.usuarios (Raw.mem p)
   /\ Raw.awaiting (snd (Raw.step cfg e p)) = Raw.awaiting p)
  \/ (exists rt name password pass,
        e = Raw.Arrive rt (Raw.POST_usuarios (Some name) password)
        /\ name <> ""
        /\ (name ∉ map User.username (Raw.usuarios (Raw.mem p)))
        /\ Raw.usuarios (Raw.mem (snd (Raw.step cfg e p))) = Raw.usuarios (Raw.mem p)
        /\ Raw.awaiting (snd (Raw.step cfg e p)) = Raw.awaiting p ++ [(name, pass)])
  \/ (exists rt i name pass,
        e = Raw.Settle rt i
        /\ Raw.awaiting p !! i = Some (name, pass)
        /\ Raw.awaiting (snd (Raw.step cfg e p)) = delete i (Raw.awaiting p)
        /\ Raw.usuarios (Raw.mem (snd (Raw.step cfg e p)))
           = Raw.usuarios (Raw.mem p)
             ++ match bcrypt_hash rt pass with
                | Some hashedPassword => [User.mk name hashedPassword]
                | None => []
                end).
Proof.
  destruct e as [rt req|rt i|now random originalname content].
  - destruct req;
      try (left;
           match goal with
           | |- context [Raw.step cfg (Raw.Arrive rt ?r) p] =>
               pose proof (step_arrive cfg rt r p) as Hs;
               pose proof (handle_keeps_usuarios cfg rt r (Raw.mem p)) as Hk
           end;
           cbv beta iota in Hs, Hk; rewrite Hs; by split).
    unfold Raw.step.
    destruct (post_usuarios_start _ _ _) as [r|name pass] eqn:Hstart; [by left|].
    apply start_awaiting in Hstart as (-> & -> & Hne & Hfresh).
    right; left. exists rt, name, (Some pass), pass. done.
  - unfold Raw.step. destruct (Raw.awaiting p !! i) as [[name pass]|] eqn:Hi; [|by left].
    right; right. exists rt, i, name, pass.
    pose proof (without_likes_state (post_usuarios_resume cfg rt name pass) (Raw.mem p))
      as Hs.
    destruct (Raw.without_likes _ _) as [a s']. simpl in Hs. subst s'.
    cbn [snd Raw.mem Raw.awaiting Raw.usuarios]. split_and!; try done.
    unfold post_usuarios_resume. destruct (bcrypt_hash rt pass); simpl; [done|].
    by rewrite app_nil_r.
  - left. unfold Raw.step. by destruct (Raw.multer_store _ _ _ _ _ _) as [d [e|]].
Qed.

(** Records of the registry are never removed or changed. *)
Lemma step_usuarios_grow (cfg : Config) (e : Raw.Event) (p : Raw.Process) :
  Raw.usuarios (Raw.mem p) `prefix_of` Raw.usuarios (Raw.mem (snd (Raw.step cfg e p))).
Proof.
  destruct (step_registry cfg e p)
    as [[-> _]|[(rt & n & pw & pass & _ & _ & _ & -> & _)
               |(rt & i & n & pass & _ & _ & _ & ->)]];
    try done.
  by apply prefix_app_r.
Qed.

Lemma run_usuarios_grow (cfg : Config) (events : list Raw.Event) (p : Raw.Process) :
  Raw.usuarios (Raw.mem p) `prefix_of` Raw.usuarios (Raw.mem (snd (Raw.run cfg events p))).
Proof.
  revert p. induction events as [|e events IH]; intros p; [done|].
  rewrite run_cons. etrans; [apply step_usuarios_grow|apply IH].
Qed.

Lemma count_user_Some (name : string) (us : list User.t) :
  length (filter (fun u => User.username u = name) us) = 1 ->
  name ∈ map User.username us.
Proof.
  intros Hone. destruct (filter _ us) as [|u l] eqn:Hf; [done|].
  assert (Hin : u ∈ filter (fun u => User.username u = name) us)
    by (rewrite Hf; apply list_elem_of_here).
  apply list_elem_of_filter in Hin as [<- Hin].
  apply list_elem_of_fmap. eauto.
Qed.

(** While no registration of [name] waits, the number of records of [name]
    stays one. *)
Lemma step_keeps_single (cfg : Config) (e : Raw.Event) (p : Raw.Process) (name : string) :
  length (filter (fun u => User.username u = name) (Raw.usuarios (Raw.mem p))) = 1 ->
  name ∉ map fst (Raw.awaiting p) ->
  length (filter (fun u => User.username u = name)
            (Raw.usuarios (Raw.mem (snd (Raw.step cfg e p))))) = 1
  /\ (name ∉ map fst (Raw.awaiting (snd (Raw.step cfg e p)))).
Proof.
  intros Hone Hwait.
  destruct (step_registry cfg e p)
    as [[-> ->]|[(rt & n & pw & pass & _ & _ & Hfresh & -> & ->)
                |(rt & i & n & pass & _ & Hi & -> & ->)]]; [done| |].
  - split; [done|]. rewrite map_app. apply not_elem_of_app. split; [done|].
    simpl. intros ->%list_elem_of_singleton. by apply Hfresh, count_user_Some.
  - assert (Hn : n <> name).
    { intros ->. apply Hwait, list_elem_of_fmap. exists (name, pass).
      split; [done|]. by eapply list_elem_of_lookup_2. }
    split.
    + rewrite filter_app.
      rewrite (filter_none _ (match bcrypt_hash rt pass with Some h => _ | None => _ end)).
      * by rewrite app_nil_r.
      * destruct (bcrypt_hash rt pass); [|done]. by apply Forall_singleton.
    + intros (x & -> & Hin)%list_elem_of_fmap. apply Hwait, list_elem_of_fmap.
      exists x. split; [done|]. by eapply list_elem_of_delete_inv.
Qed.

Lemma run_keeps_single (cfg : Config) (events : list Raw.Event) (p : Raw.Process)
    (name : string) :
  length (filter (fun u => User.username u = name) (Raw.usuarios (Raw.mem p))) = 1 ->
  name ∉ map fst (Raw.awaiting p) ->
  length (filter (fun u => User.username u = name)
            (Raw.usuarios (Raw.mem (snd (Raw.run cfg events p))))) = 1.
Proof.
  revert p. induction events as [|e events IH]; intros p Hone Hwait; [done|].
  rewrite run_cons. destruct (step_keeps_single cfg e p name Hone Hwait). by apply IH.
Qed.

(** The step that settles a registration answered 201. *)
Lemma settle_created (cfg : Config) (rt : Runtime) (i : nat) (name pass : string)
    (p : Raw.Process) :
  Raw.awaiting p !! i = Some (name, pass) ->
  Raw.answer_status <$> fst (Raw.step cfg (Raw.Settle rt i) p) = Some 201%Z ->
  exists hashedPassword,
    bcrypt_hash rt pass = Some hashedPassword
    /\ Raw.usuarios (Raw.mem (snd (Raw.step cfg (Raw.Settle rt i) p)))
       = Raw.usuarios (Raw.mem p) ++ [User.mk name hashedPassword]
    /\ Raw.awaiting (snd (Raw.step cfg (Raw.Settle rt i) p)) = delete i (Raw.awaiting p).
Proof.
  intros Hi. unfold Raw.step. rewrite Hi.
  pose proof (without_likes_state (post_usuarios_resume cfg rt name pass) (Raw.mem p)) as Hs.
  pose proof (without_likes_answer (post_usuarios_resume cfg rt name pass) (Raw.mem p)) as Ha.
  destruct (Raw.without_likes _ _) as [a s']. simpl in Hs, Ha. subst s' a.
  unfold post_usuarios_resume. destruct (bcrypt_hash rt pass) as [h|]; simpl; [|done].
  intros _. by exists h.
Qed.

(** A permutation of the usernames that a settled registration leaves. *)
Lemma settle_names (us aw : list string) (i : nat) (name : string) (pushed : list string) :
  aw !! i = Some name -> pushed = [name] \/ pushed = [] ->
  exists rest, us ++ aw ≡ₚ rest ++ (us ++ pushed) ++ delete i aw.
Proof.
  intros Hi [->| ->].
  - exists []. simpl. rewrite <- (assoc_L (++)). apply Permutation_app_head.
    rewrite (delete_Permutation aw i name Hi) at 1. done.
  - exists [name]. rewrite app_nil_r. simpl.
    rewrite (delete_Permutation aw i name Hi) at 1. by rewrite Permutation_middle.
Qed.

(** An event that does not overlap keeps the usernames apart. *)
Lemma step_keeps_registry (cfg : Config) (e : Raw.Event) (p : Raw.Process) :
  registry_ok p -> ~ overlaps e p -> registry_ok (snd (Raw.step cfg e p)).
Proof.
  intros [Hnd Hne] Hover. unfold registry_ok.
  destruct (step_registry cfg e p)
    as [[-> ->]|[(rt & n & pw & pass & -> & Hn & Hfresh & -> & ->)
                |(rt & i & n & pass & _ & Hi & -> & ->)]]; [done| |].
  - simpl in Hover. rewrite map_app, (assoc_L (++)). simpl. split.
    + apply NoDup_app. split_and!; [done| |apply NoDup_singleton].
      intros x Hx ->%list_elem_of_singleton.
      apply elem_of_app in Hx as [Hx|Hx]; done.
    + apply Forall_app. split; [done|]. by apply Forall_singleton.
  - rewrite map_app.
    destruct (settle_names (map User.username (Raw.usuarios (Raw.mem p)))
                (map fst (Raw.awaiting p)) i n
                (map User.username
                   match bcrypt_hash rt pass with
                   | Some h => [User.mk n h]
                   | None => []
                   end)) as [rest Hperm].
    + change (map fst (Raw.awaiting p)) with (fst <$> Raw.awaiting p).
      by rewrite list_lookup_fmap, Hi.
    + destruct (bcrypt_hash rt pass); auto.
    + change (map fst (delete i (Raw.awaiting p))) with (fst <$> delete i (Raw.awaiting p)).
      rewrite list_fmap_delete.
      change (fst <$> Raw.awaiting p) with (map fst (Raw.awaiting p)).
      rewrite Hperm in Hnd, Hne.
      apply NoDup_app in Hnd as (_ & _ & Hnd). apply Forall_app in Hne as [_ Hne]. done.
Qed.

Lemma run_keeps_registry (cfg : Config) (events : list Raw.Event) (p : Raw.Process) :
  registry_ok p -> no_overlap cfg events p -> registry_ok (snd (Raw.run cfg events p)).
Proof.
  revert p. induction events as [|e events IH]; intros p Hok Hno; [done|].
  destruct Hno as [Hover Hno]. rewrite run_cons.
  apply IH; [|done]. by apply step_keeps_registry.
Qed.
(** Requests served one at a time are the requests of the first layer. *)
Lemma serve_as_run (cfg : Config) (reqs : list (Runtime * Request)) (s : State) :
  snd (Raw.run cfg (one_at_a_time reqs) (Raw.mkProcess (raw_state s) []))
  = Raw.mkProcess (raw_state (serve cfg reqs s)) [].
Proof.
  revert s. induction reqs as [|[rt req] reqs IH]; intros s; [done|].
  cbn [one_at_a_time flat_map app]. rewrite !run_cons.
  change (flat_map _ reqs) with (one_at_a_time reqs).
  assert (Hstep :
    snd (Raw.step cfg (Raw.Settle rt 0)
           (snd (Raw.step cfg (Raw.Arrive rt (raw_request req))
                   (Raw.mkProcess (raw_state s) []))))
    = Raw.mkProcess (raw_state (snd (handle cfg rt req s))) []).
  { pose proof (handle_refines cfg rt req s) as Href.
    destruct req;
      try (cbn [raw_request] in Href |- *;
           match goal with
           | |- context [Raw.step cfg (Raw.Arrive rt ?r) ?q] =>
               pose proof (step_arrive cfg rt r q) as Hs
           end;
           cbv beta iota in Hs; rewrite Hs; cbn [Raw.mem Raw.awaiting];
           rewrite Href; done).
    clear Href. cbn [raw_request].
    change (handle cfg rt (POST_usuarios username password) s)
      with (post_usuarios cfg rt username password s).
    unfold post_usuarios, Raw.step at 2. cbn [Raw.mem Raw.awaiting].
    change (post_usuarios_start username password _)
      with (post_usuarios_start username password s) at 1.
    destruct (post_usuarios_start username password s) as [r|name pass]; [done|].
    unfold Raw.step. change (Raw.awaiting _ !! 0) with (Some (name, pass)).
    cbv beta iota. cbn [Raw.mem Raw.awaiting app].
    pose proof (without_likes_state (post_usuarios_resume cfg rt name pass) (raw_state s))
      as Hs.
    destruct (Raw.without_likes _ _) as [a s']. cbn [snd] in Hs |- *. subst s'.
    unfold post_usuarios_resume, raw_state.
    by destruct (bcrypt_hash rt pass); simpl. }
  rewrite Hstep. apply IH.
Qed.

(** *** Registrations that overlap, and those that do not *)

(** C3, as the code has it.  A registration of [name] waits for its hash
    and is then answered 201.  From that answer on, whatever events follow,
    a registration of [name] that arrives is answered 400 and leaves the
    process as it is, whatever its password: with the message that the user
    exists when it has a password, and with the message that username and
    password are required when the password is empty or missing.  When no
    record carried [name] before and no other registration of [name] was
    waiting, exactly one record carries [name] at every later moment.  The
    test is equality of strings: a username that no stored record carries is
    never answered that the user exists. *)
Theorem register_twice (cfg : Config) (rt1 rt2 : Runtime) (i : nat) (name p1 : string)
    (p : Raw.Process) (events : list Raw.Event) (p2 : option string) :
  Raw.awaiting p !! i = Some (name, p1) ->
  name <> "" ->
  Raw.answer_status <$> fst (Raw.step cfg (Raw.Settle rt1 i) p) = Some 201%Z ->
  let after := snd (Raw.run cfg events (snd (Raw.step cfg (Raw.Settle rt1 i) p))) in
  Raw.step cfg (Raw.Arrive rt2 (Raw.POST_usuarios (Some name) p2)) after
  = (Some (Raw.Sent (mkResponse 400
                       (message (if falsy p2 then "Username y password son requeridos"
                                 else "El usuario ya existe")))),
     after)
  /\ ((name ∉ map User.username (Raw.usuarios (Raw.mem p))) ->
      (name ∉ map fst (delete i (Raw.awaiting p))) ->
      length (filter (fun u => User.username u = name) (Raw.usuarios (Raw.mem after))) = 1)
  /\ (forall other p3,
        other ∉ map User.username (Raw.usuarios (Raw.mem after)) ->
        fst (Raw.step cfg (Raw.Arrive rt2 (Raw.POST_usuarios (Some other) p3)) after)
        <> Some (Raw.Sent (mkResponse 400 (message "El usuario ya existe")))).
Proof.
  intros Hi Hne Hst after.
  destruct (settle_created cfg rt1 i name p1 p Hi Hst) as (h & Hh & Hus & Haw).
  assert (Hin : name ∈ map User.username (Raw.usuarios (Raw.mem after))).
  { destruct (run_usuarios_grow cfg events (snd (Raw.step cfg (Raw.Settle rt1 i) p)))
      as [k Hk].
    fold after in Hk. rewrite Hk, Hus, !map_app. simpl.
    apply elem_of_app. left. apply elem_of_app. right. apply list_elem_of_here. }
  split_and!.
  - unfold Raw.step at 1.
    by rewrite (start_registered name p2 (mkState _ _ _ _) Hne Hin).
  - intros Hfresh Hwait. apply run_keeps_single.
    + rewrite Hus, filter_app, filter_none, filter_cons_True by
        (done || (apply Forall_forall; intros u Hu Hname; apply Hfresh, list_elem_of_fmap;
                  eauto)).
      done.
    + by rewrite Haw.
  - intros other p3 Hother. unfold Raw.step at 1.
    pose proof (start_unknown other p3 (mkState (Raw.usuarios (Raw.mem after))
                  (Raw.publicaciones (Raw.mem after)) [] (Raw.sys (Raw.mem after))) Hother)
      as Hunknown.
    destruct (post_usuarios_start _ _ _) as [r|n q]; [|done].
    simpl. intros [= ->]. done.
Qed.

Lemma register_twice_witness :
  let after :=
    snd (Raw.run Demo.cfg [Raw.Settle Demo.rt 0]
           (snd (Raw.step Demo.cfg (Raw.Settle Demo.rt 1) Scene.two_waiting))) in
  Raw.step Demo.cfg (Raw.Arrive Demo.rt (Raw.POST_usuarios (Some "ana") (Some "other"))) after
  = (Some (Raw.Sent (mkResponse 400 (message "El usuario ya existe"))), after)
  /\ length (filter (fun u => User.username u = "ana") (Raw.usuarios (Raw.mem after))) = 1.
Proof.
  intros after.
  destruct (register_twice Demo.cfg Demo.rt Demo.rt 1 "ana" "secret" Scene.two_waiting
              [Raw.Settle Demo.rt 0] (Some "other") eq_refl ltac:(discriminate) eq_refl)
    as (Hsecond & Hone & _).
  split; [exact Hsecond|].
  apply Hone; apply (bool_decide_unpack _); by vm_compute.
Defined.

(** C3 as stated fails where two registrations of one username overlap: the
    second arrives while the first waits for its hash, both are answered
    201, and two records carry the username. *)
Lemma register_twice_overlapping :
  map Raw.answer_status (fst (Raw.run Demo.cfg Scene.overlap Scene.p0)) = [201%Z; 201%Z]
  /\ Raw.usuarios (Raw.mem (snd (Raw.run Demo.cfg Scene.overlap Scene.p0)))
     = [User.mk "ana" "$2a$10$secret"; User.mk "ana" "$2a$10$other"]
  /\ length (filter (fun u => User.username u = "ana")
               (Raw.usuarios (Raw.mem (snd (Raw.run Demo.cfg Scene.overlap Scene.p0))))) = 2.
Proof. split_and!; reflexivity. Qed.

(** A second registration without a password is not told that the user
    exists. *)
Lemma register_twice_without_password :
  fst (Raw.run Demo.cfg
         [Raw.Arrive Demo.rt (Raw.POST_usuarios (Some "ana") (Some "secret"));
          Raw.Settle Demo.rt 0;
          Raw.Arrive Demo.rt (Raw.POST_usuarios (Some "ana") None)] Scene.p0)
  = [Raw.Sent (mkResponse 201 (message "Usuario creado exitosamente"));
     Raw.Sent (mkResponse 400 (message "Username y password son requeridos"))].
Proof. reflexivity. Qed.

(** Usernames that differ in case are different users. *)
Lemma register_is_case_sensitive :
  status (fst (post_usuarios Demo.cfg Demo.rt (Some "Ana") (Some "other")
                 (snd (post_usuarios Demo.cfg Demo.rt (Some "ana") (Some "secret") Demo.s0))))
  = 201%Z.
Proof. reflexivity. Qed.

(** Registration, then login.  When a registration that waited for its hash
    is answered 201, the registry ends with the record of the new user,
    whose password is the hash that bcrypt gave.  From then on, whatever
    events follow, a login with that username is decided by bcrypt on the
    password of the login and the hash of the first record with that
    username: the new record, unless a record carried the username before
    (a registration that overlapped was answered first). *)
Theorem register_then_login (cfg : Config) (rt1 : Runtime) (i : nat) (name p1 : string)
    (p : Raw.Process) :
  Raw.awaiting p !! i = Some (name, p1) ->
  Raw.answer_status <$> fst (Raw.step cfg (Raw.Settle rt1 i) p) = Some 201%Z ->
  exists hashedPassword j user,
    bcrypt_hash rt1 p1 = Some hashedPassword
    /\ Raw.usuarios (Raw.mem (snd (Raw.step cfg (Raw.Settle rt1 i) p)))
       = Raw.usuarios (Raw.mem p) ++ [User.mk name hashedPassword]
    /\ list_find (fun u => User.username u = name)
         (Raw.usuarios (Raw.mem (snd (Raw.step cfg (Raw.Settle rt1 i) p))))
       = Some (j, user)
    /\ ((name ∉ map User.username (Raw.usuarios (Raw.mem p))) ->
        user = User.mk name hashedPassword)
    /\ forall events rt2 password,
         fst (Raw.step cfg (Raw.Arrive rt2 (Raw.POST_login name password))
                (snd (Raw.run cfg events (snd (Raw.step cfg (Raw.Settle rt1 i) p)))))
         = Some (Raw.Sent (login_answer (bcrypt_compare rt2 password (User.password user)))).
Proof.
  intros Hi Hst.
  destruct (settle_created cfg rt1 i name p1 p Hi Hst) as (h & Hh & Hus & Haw).
  destruct (find_user_present name
              (Raw.usuarios (Raw.mem (snd (Raw.step cfg (Raw.Settle rt1 i) p)))))
    as [[j user] Hfind].
  { rewrite Hus, map_app. apply elem_of_app. right. apply list_elem_of_here. }
  exists h, j, user. split_and!; try done.
  - intros Hfresh. rewrite Hus in Hfind.
    apply list_find_app_Some in Hfind as [Hfind|(_ & _ & Hfind)].
    + exfalso. apply list_find_Some in Hfind as (Hj & Hu & _).
      apply Hfresh, list_elem_of_fmap. exists user. split; [done|].
      by eapply list_elem_of_lookup_2.
    + simpl in Hfind. rewrite decide_True in Hfind by done. by injection Hfind as _ <-.
  - intros events rt2 password.
    destruct (run_usuarios_grow cfg events (snd (Raw.step cfg (Raw.Settle rt1 i) p)))
      as [k Hk].
    pose proof (step_arrive cfg rt2 (Raw.POST_login name password)
                  (snd (Raw.run cfg events (snd (Raw.step cfg (Raw.Settle rt1 i) p)))))
      as Hs.
    cbv beta iota in Hs. rewrite Hs. cbn [fst Raw.handle].
    rewrite without_likes_answer. unfold post_login. cbn [usuarios]. rewrite Hk.
    rewrite (proj2 (list_find_app_Some _ _ _ _ _) (or_introl Hfind)).
    by destruct (bcrypt_compare rt2 password (User.password user)) as [[]|].
Qed.

Lemma register_then_login_witness :
  let registered := snd (Raw.step Demo.cfg (Raw.Settle Demo.rt 1) Scene.two_waiting) in
  Raw.usuarios (Raw.mem registered) = [User.mk "ana" "$2a$10$secret"]
  /\ fst (Raw.step Demo.cfg (Raw.Arrive Demo.rt (Raw.POST_login "ana" "secret"))
            (snd (Raw.run Demo.cfg [Raw.Settle Demo.rt 0] registered)))
     = Some (Raw.Sent (mkResponse 200 (message "Inicio de sesión exitoso")))
  /\ fst (Raw.step Demo.cfg (Raw.Arrive Demo.rt (Raw.POST_login "ana" "wrong"))
            (snd (Raw.run Demo.cfg [Raw.Settle Demo.rt 0] registered)))
     = Some (Raw.Sent (mkResponse 400 (message "Contraseña incorrecta"))).
Proof.
  intros registered.
  destruct (register_then_login Demo.cfg Demo.rt 1 "ana" "secret" Scene.two_waiting
              eq_refl eq_refl) as (h & j & user & _ & Hus & _ & Hnew & Hlogin).
  rewrite (Hnew ltac:(apply (bool_decide_unpack _); by vm_compute)) in Hlogin.
  fold registered in Hus, Hlogin. split_and!.
  - reflexivity.
  - rewrite (Hlogin [Raw.Settle Demo.rt 0] Demo.rt "secret").
    injection Hus as <-. reflexivity.
  - rewrite (Hlogin [Raw.Settle Demo.rt 0] Demo.rt "wrong").
    injection Hus as <-. reflexivity.
Defined.

(** Usernames stay unique while registrations of one username do not
    overlap.  When the registry and the registrations that wait together
    hold each username once, and none is empty, they do so after any run in
    which no registration arrives while one of its username waits for its
    hash. *)
Theorem usernames_stay_unique (cfg : Config) (events : list Raw.Event) (p : Raw.Process) :
  registry_ok p -> no_overlap cfg events p -> registry_ok (snd (Raw.run cfg events p)).
Proof. apply run_keeps_registry. Qed.

Lemma usernames_stay_unique_witness :
  registry_ok (snd (Raw.run Demo.cfg Scene.in_turn Scene.p0))
  /\ Raw.usuarios (Raw.mem (snd (Raw.run Demo.cfg Scene.in_turn Scene.p0)))
     = [User.mk "ana" "$2a$10$secret"; User.mk "luis" "$2a$10$clave"].
Proof.
  split; [|reflexivity].
  apply (usernames_stay_unique Demo.cfg Scene.in_turn Scene.p0).
  - split; constructor.
  - cbn [no_overlap Scene.in_turn].
    split_and!; try done; unfold overlaps;
      first [by intros [] | apply (bool_decide_unpack _); by vm_compute].
Defined.

(** *** Error answers of the process *)

(** The test of [some] does not run on an empty list. *)
Lemma some_nil {A : Type} (test : A -> Exc bool) : Raw.some test [] = Ok false.
Proof. reflexivity. Qed.

(** Where an error answer leaves the process.  Whatever the request, typed
    or not, an answer in the 4xx or 5xx range (that of Express to an
    exception among them) comes with the three arrays and the files of the
    disk as they were, on every path but one: a delete of a publication
    whose cascade throws. *)
Lemma error_keeps_state (cfg : Config) (rt : Runtime) (req : Raw.Request) (s : Raw.State) :
  (400 <=? Raw.answer_status (fst (Raw.handle cfg rt req s)))%Z = true ->
  (Raw.usuarios (snd (Raw.handle cfg rt req s)) = Raw.usuarios s
   /\ Raw.publicaciones (snd (Raw.handle cfg rt req s)) = Raw.publicaciones s
   /\ Raw.likes (snd (Raw.handle cfg rt req s)) = Raw.likes s
   /\ disk (Raw.sys (snd (Raw.handle cfg rt req s))) = disk (Raw.sys s))
  \/ (exists username publication,
        req = Raw.DELETE_publicaciones username (Some publication)
        /\ is_Some (snd (Raw.cascade publication (Raw.likes s)))).
Proof.
  assert (Htyped : forall typed : Request,
            match typed with
            | GET_usuarios | POST_usuarios _ _ | POST_login _ _ | GET_publicaciones
            | POST_upload _ _ _ _ =>
                (400 <=? Raw.answer_status
                           (fst (Raw.without_likes (handle cfg rt typed) s)))%Z = true ->
                Raw.usuarios (snd (Raw.without_likes (handle cfg rt typed) s)) = Raw.usuarios s
                /\ Raw.publicaciones (snd (Raw.without_likes (handle cfg rt typed) s))
                   = Raw.publicaciones s
                /\ Raw.likes (snd (Raw.without_likes (handle cfg rt typed) s)) = Raw.likes s
                /\ disk (Raw.sys (snd (Raw.without_likes (handle cfg rt typed) s)))
                   = disk (Raw.sys s)
            | _ => True
            end).
  { intros typed.
    pose proof (errors_change_nothing cfg rt typed
                  (mkState (Raw.usuarios s) (Raw.publicaciones s) [] (Raw.sys s))) as He.
    destruct typed; try done;
      rewrite without_likes_answer, without_likes_state; cbn [Raw.answer_status];
      intros Herr; destruct (He Herr) as (Hu & Hp & _ & Hd); by split_and!. }
  destruct req; simpl.
  - intros H. left. exact (Htyped GET_usuarios H).
  - intros H. left. exact (Htyped (POST_usuarios username password) H).
  - intros H. left. exact (Htyped (POST_login username password) H).
  - intros H. left. exact (Htyped GET_publicaciones H).
  - intros H. left. exact (Htyped (POST_upload file username description imageName) H).
  - unfold Raw.delete_publicaciones.
    destruct publication as [publication|];
      [|intros _; left; by destruct (Raw.publicaciones s) eqn:E].
    destruct (list_find _ (Raw.publicaciones s)) as [[j first]|]; [|by intros _; left].
    destruct (remove_image cfg publication (disk (Raw.sys s))) as [dk|e];
      [|by intros _; left].
    destruct (Raw.cascade publication (Raw.likes s)) as [likes' [e|]] eqn:Hc; [|done].
    intros _. right. exists username, publication. by rewrite Hc.
  - unfold Raw.get_likes. intros _. left. by repeat case_match.
  - unfold Raw.post_likes.
    destruct (list_find _ (Raw.likes s)) as [[i userLikes]|]; cbn [Raw.Entry.likedPublications].
    + destruct (Raw.some _ _) as [[]|e]; [by left|done|by left].
    + by rewrite some_nil.
  - unfold Raw.delete_likes. intros H. left. revert H. by repeat case_match.
  - done.
  - done.
Qed.

(** C10 fails on one path of the delete.  A like whose body has no
    [publication] is answered 201 and stores [undefined]; the cascade of
    the next delete of a stored publication throws on it, after the image
    was removed and the record was spliced out.  The delete is answered
    500, yet the publication is gone from the array and its image from the
    disk, while the file of the publications, which was not written,
    still lists it. *)
Theorem failed_delete_loses_publication :
  let before := snd (Raw.run Demo.cfg (removelast Scene.lost_post) Scene.p0) in
  let gone :=
    Raw.handle Demo.cfg Demo.rt (Raw.DELETE_publicaciones "ana" (Some Scene.uploaded))
      (Raw.mem before) in
  map Raw.answer_status (fst (Raw.run Demo.cfg Scene.lost_post Scene.p0))
  = [201%Z; 201%Z; 500%Z]
  /\ snd (Raw.run Demo.cfg Scene.lost_post Scene.p0)
     = Raw.mkProcess (snd gone) []
  /\ fst gone = Raw.Sent (mkResponse 500 (message "Error al eliminar la publicación"))
  /\ Raw.publicaciones (Raw.mem before) = [Scene.uploaded]
  /\ Raw.publicaciones (snd gone) = []
  /\ files (disk (Raw.sys (Raw.mem before))) !! Demo.image_path = Some "PNG"
  /\ files (disk (Raw.sys (snd gone))) !! Demo.image_path = None
  /\ fst (readJsonFile (publicacionesFilePath Demo.cfg) (Raw.sys (snd gone)))
     = pubs_json [Scene.uploaded].
Proof. split_and!; reflexivity. Qed.

(** *** The files under the events *)

Lemma defined_list (l : list (option Pub.t)) :
  Forall (fun p => is_Some p) l -> exists l', l = map Some l'.
Proof.
  induction 1 as [|x l [q ->] _ [l' ->]]; [by exists []|]. by exists (q :: l').
Qed.

(** A state whose like lists hold publications is a state of the first
    layer. *)
Lemma all_defined_typed (s : Raw.State) : all_defined s -> exists t, s = raw_state t.
Proof.
  destruct s as [us ps ls y]. unfold all_defined. simpl. intros Hdef.
  assert (exists ls', ls = map raw_like ls') as [ls' ->].
  { induction Hdef as [|[u l] ls Hl _ [ls' ->]]; [by exists []|].
    destruct (defined_list l Hl) as [l' ->]. by exists (Like.mk u l' :: ls'). }
  by exists (mkState us ps ls' y).
Qed.

Lemma raw_state_defined (t : State) : all_defined (raw_state t).
Proof.
  unfold all_defined, raw_state. simpl. apply Forall_fmap, Forall_forall.
  intros like _. simpl. apply Forall_fmap, Forall_forall. intros q _. simpl. eauto.
Qed.

Lemma mirrored_raw (cfg : Config) (t : State) :
  raw_mirrored cfg (raw_state t) <-> mirrored cfg t.
Proof. unfold raw_mirrored, mirrored, raw_state. simpl. by rewrite likes_json_defined. Qed.

(** A test against a publication that is not there throws on the first
    record it is given. *)
Lemma findIndex_undefined (l : list (option Pub.t)) :
  Raw.findIndex (fun pub => Raw.same_key pub None) l
  = match l with [] => Ok None | _ :: _ => Throw TypeError end.
Proof. destruct l as [|[q|] l]; reflexivity. Qed.

(** A delete or an unlike without its publication changes nothing. *)
Lemma untyped_keeps_state (cfg : Config) (rt : Runtime) (username : string) (s : Raw.State) :
  snd (Raw.handle cfg rt (Raw.DELETE_publicaciones username None) s) = s
  /\ snd (Raw.handle cfg rt (Raw.DELETE_likes username None) s) = s.
Proof.
  split; simpl.
  - unfold Raw.delete_publicaciones. by destruct (Raw.publicaciones s).
  - unfold Raw.delete_likes. destruct (list_find _ (Raw.likes s)) as [[i like]|]; [|done].
    rewrite findIndex_undefined. by destruct (Raw.Entry.likedPublications like).
Qed.

Lemma request_typed (req : Raw.Request) :
  (exists typed, req = raw_request typed)
  \/ (exists username,
        req = Raw.DELETE_publicaciones username None
        \/ req = Raw.POST_likes username None
        \/ req = Raw.DELETE_likes username None).
Proof.
  destruct req as [|u pw|u pw| |f u d n|u [q|]|u|u [q|]|u [q|]| |];
    try (right; eexists; eauto; fail); left.
  - by exists GET_usuarios.
  - by exists (POST_usuarios u pw).
  - by exists (POST_login u pw).
  - by exists GET_publicaciones.
  - by exists (POST_upload f u d n).
  - by exists (DELETE_publicaciones u q).
  - by exists (GET_likes u).
  - by exists (POST_likes u q).
  - by exists (DELETE_likes u q).
  - by exists GET_data.
  - by exists GET_root.
Qed.

(** The registration from its [await] on keeps the files in step. *)
Lemma resume_mirrors (cfg : Config) (rt : Runtime) (name pass : string) (s : State) :
  healthy cfg (disk (sys s)) -> mirrored cfg s ->
  healthy cfg (disk (sys (snd (post_usuarios_resume cfg rt name pass s))))
  /\ mirrored cfg (snd (post_usuarios_resume cfg rt name pass s)).
Proof.
  intros Hh (Hu & Hp & Hl).
  pose proof (store_paths_NoDup cfg) as Hnd. unfold store_paths in Hnd.
  apply NoDup_cons in Hnd as [Hup _].
  rewrite !not_elem_of_cons in Hup. destruct Hup as (Hup & Hul & _).
  assert (Hpu := not_eq_sym Hup). assert (Hlu := not_eq_sym Hul).
  assert (Hinu := proj1 (store_paths_elem cfg)).
  unfold mirrored, persisted, post_usuarios_resume in *.
  destruct (bcrypt_hash rt pass); simpl; [|done].
  rewrite (healthy_write cfg) by done. simpl.
  rewrite lookup_insert_eq, !lookup_insert_ne by done. done.
Qed.

Lemma resume_refines (cfg : Config) (rt : Runtime) (name pass : string) (t : State) :
  snd (Raw.without_likes (post_usuarios_resume cfg rt name pass) (raw_state t))
  = raw_state (snd (post_usuarios_resume cfg rt name pass t)).
Proof.
  rewrite without_likes_state. unfold post_usuarios_resume, raw_state.
  by destruct (bcrypt_hash rt pass).
Qed.

(** What multer does to the disk: at most the uploads directory is made,
    and the one file that changes is the one it stores. *)
Lemma multer_store_frame (cfg : Config) (now random : Z) (originalname content : string)
    (d : FS) :
  let d' := fst (Raw.multer_store cfg now random originalname content d) in
  denied d' = denied d
  /\ dirs d ⊆ dirs d'
  /\ dirs d' ⊆ {[UPLOADS_DIR cfg]} ∪ dirs d
  /\ forall path,
       path <> path_join (UPLOADS_DIR cfg) (multer_filename now random originalname) ->
       files d' !! path = files d !! path.
Proof.
  unfold Raw.multer_store, multer_destination, mkdirSync, writeFileSync.
  destruct (existsSync (UPLOADS_DIR cfg) d); simpl;
    repeat (case_bool_decide; simpl); try destruct (_ <? _)%Z; simpl;
    (split_and!; [done|set_solver|set_solver|]); intros path Hpath; try done;
    rewrite ?lookup_delete_ne, ?lookup_insert_ne by done; done.
Qed.

Lemma multer_store_healthy (cfg : Config) (now random : Z) (originalname content : string)
    (d : FS) :
  healthy cfg d ->
  healthy cfg (fst (Raw.multer_store cfg now random originalname content d))
  /\ forall path, path ∈ store_paths cfg ->
       files (fst (Raw.multer_store cfg now random originalname content d)) !! path
       = files d !! path.
Proof.
  intros [Hdata Hpaths].
  destruct (multer_store_frame cfg now random originalname content d)
    as (Hden & Hsub & Hsup & Hfiles).
  split.
  - split; [by apply Hsub|]. apply Forall_forall. intros path Hp.
    rewrite Forall_forall in Hpaths. destruct (Hpaths path Hp) as [Hd Hdir].
    split; [by rewrite Hden|]. intros Hin.
    apply Hsup, elem_of_union in Hin as [Hin%elem_of_singleton|Hin]; [|done].
    by destruct (store_path_not_dir cfg path Hp).
  - intros path Hp. apply Hfiles. intros ->. by eapply image_path_not_store.
Qed.

(** One event keeps the files in step with the arrays, as long as the like
    lists hold publications and a like carries one. *)
Lemma step_mirrors (cfg : Config) (e : Raw.Event) (p : Raw.Process) :
  healthy cfg (disk (Raw.sys (Raw.mem p))) -> raw_mirrored cfg (Raw.mem p) ->
  all_defined (Raw.mem p) -> like_carries_publication e ->
  healthy cfg (disk (Raw.sys (Raw.mem (snd (Raw.step cfg e p)))))
  /\ raw_mirrored cfg (Raw.mem (snd (Raw.step cfg e p)))
  /\ all_defined (Raw.mem (snd (Raw.step cfg e p))).
Proof.
  intros Hh Hm Hdef Hlike.
  destruct (all_defined_typed _ Hdef) as [t Ht].
  destruct p as [m aw]. simpl in Hh, Hm, Hdef, Ht. subst m.
  apply mirrored_raw in Hm. change (Raw.sys (raw_state t)) with (sys t) in Hh.
  destruct e as [rt req|rt i|now random originalname content].
  - destruct (request_typed req) as [[typed ->]|[u [->|[->| ->]]]].
    + destruct (handle_mirrors cfg rt typed t Hh Hm) as [Hh' Hm'].
      pose proof (handle_refines cfg rt typed t) as Href.
      destruct typed;
        try (match goal with
             | |- context [Raw.step cfg (Raw.Arrive rt ?r) ?q] =>
                 pose proof (step_arrive cfg rt r q) as Hs
             end;
             cbv beta iota in Hs; cbn [raw_request] in Hs |- *; rewrite Hs;
             cbn [raw_request Raw.mem Raw.awaiting snd] in Href |- *; rewrite Href;
             cbn [snd]; split_and!;
             [done|by apply mirrored_raw|apply raw_state_defined]).
      cbn [raw_request]. unfold Raw.step.
      destruct (post_usuarios_start _ _ _); simpl;
        (split_and!; [done|by apply mirrored_raw|done]).
    + pose proof (step_arrive cfg rt (Raw.DELETE_publicaciones u None)
                    (Raw.mkProcess (raw_state t) aw)) as Hs.
      cbv beta iota in Hs. rewrite Hs. cbn [snd Raw.mem].
      rewrite (proj1 (untyped_keeps_state cfg rt u (raw_state t))).
      split_and!; [done|by apply mirrored_raw|done].
    + simpl in Hlike. by destruct Hlike.
    + pose proof (step_arrive cfg rt (Raw.DELETE_likes u None)
                    (Raw.mkProcess (raw_state t) aw)) as Hs.
      cbv beta iota in Hs. rewrite Hs. cbn [snd Raw.mem].
      rewrite (proj2 (untyped_keeps_state cfg rt u (raw_state t))).
      split_and!; [done|by apply mirrored_raw|done].
  - unfold Raw.step. cbn [Raw.awaiting Raw.mem].
    destruct (aw !! i) as [[name pass]|];
      [|simpl; split_and!; [done|by apply mirrored_raw|done]].
    pose proof (resume_refines cfg rt name pass t) as Hr.
    destruct (Raw.without_likes _ _) as [a s']. cbn [snd Raw.mem] in Hr |- *. subst s'.
    destruct (resume_mirrors cfg rt name pass t Hh Hm) as [Hh' Hm'].
    split_and!; [done|by apply mirrored_raw|apply raw_state_defined].
  - destruct (multer_store_healthy cfg now random originalname content (disk (sys t)) Hh)
      as [Hh' Hfiles].
    unfold Raw.step. cbn [Raw.mem Raw.awaiting raw_state Raw.sys Raw.usuarios
                            Raw.publicaciones Raw.likes].
    destruct (Raw.multer_store _ _ _ _ _ _) as [d' [e|]]; cbn [snd Raw.mem Raw.sys disk fst] in *;
      (split_and!; [done| |apply (raw_state_defined t)]);
      destruct Hm as (Hu & Hp & Hl); unfold raw_mirrored, persisted in *; simpl;
      rewrite !Hfiles by apply store_paths_elem; rewrite likes_json_defined; done.
Qed.

Lemma run_mirrors (cfg : Config) (events : list Raw.Event) (p : Raw.Process) :
  healthy cfg (disk (Raw.sys (Raw.mem p))) -> raw_mirrored cfg (Raw.mem p) ->
  all_defined (Raw.mem p) -> Forall like_carries_publication events ->
  healthy cfg (disk (Raw.sys (Raw.mem (snd (Raw.run cfg events p)))))
  /\ raw_mirrored cfg (Raw.mem (snd (Raw.run cfg events p)))
  /\ all_defined (Raw.mem (snd (Raw.run cfg events p))).
Proof.
  revert p. induction events as [|e events IH]; intros p Hh Hm Hdef Hlike; [done|].
  apply Forall_cons in Hlike as [He Hlike]. rewrite run_cons.
  destruct (step_mirrors cfg e p Hh Hm Hdef He) as (Hh' & Hm' & Hdef'). by apply IH.
Qed.

(** A start on a disk whose files hold the arrays loads the arrays. *)
Lemma startup_loads (cfg : Config) (t : State) :
  healthy cfg (disk (sys t)) -> mirrored cfg t ->
  fst (startup cfg (sys t)) = loaded_of t.
Proof.
  intros Hh' Hm'.
  destruct Hm' as (Hu & Hp & Hl). destruct Hh' as [_ Hpaths].
  unfold store_paths in Hpaths.
  apply Forall_cons in Hpaths as [[Hdu _] Hpaths].
  apply Forall_cons in Hpaths as [[Hdp _] Hpaths].
  apply Forall_cons in Hpaths as [[Hdl _] _].
  unfold startup. unfold persisted in *.
  set (y2 := ensure_dir (UPLOADS_DIR cfg) (ensure_dir (DATA_DIR cfg) (sys t))).
  assert (Hfiles : files (disk y2) = files (disk (sys t))
                   /\ denied (disk y2) = denied (disk (sys t))).
  { unfold y2.
    destruct (ensure_dir_frame (DATA_DIR cfg) (sys t)) as (E1 & E2 & _).
    destruct (ensure_dir_frame (UPLOADS_DIR cfg) (ensure_dir (DATA_DIR cfg) (sys t)))
      as (E3 & E4 & _).
    split; congruence. }
  destruct Hfiles as [Ef Ed].
  rewrite (readJsonFile_present _ (users_json (usuarios t)));
    [|by rewrite Ef|by rewrite Ed|apply forallb_map_true, user_json_wf].
  rewrite (readJsonFile_present _ (pubs_json (publicaciones t)));
    [|by simpl; rewrite Ef|by simpl; rewrite Ed|apply forallb_map_true, pub_json_wf].
  rewrite (readJsonFile_present _ (likes_json (likes t)));
    [|by simpl; rewrite Ef|by simpl; rewrite Ed|apply forallb_map_true, like_json_wf].
  done.
Qed.

(** Restart after any run.  On a disk where the data directory is there and
    the three files can be written, once each file holds the serialisation
    of its array and the like lists hold publications, this is so after
    every event (requests of any kind and in any order, registrations that
    overlap, images that multer stores), whatever the answers, as long as
    every like carries its publication; and a process that starts on the
    disk left behind loads exactly the three arrays. *)
Theorem restart_recovers_arrays (cfg : Config) (events : list Raw.Event) (p : Raw.Process) :
  healthy cfg (disk (Raw.sys (Raw.mem p))) -> raw_mirrored cfg (Raw.mem p) ->
  all_defined (Raw.mem p) -> Forall like_carries_publication events ->
  let s' := Raw.mem (snd (Raw.run cfg events p)) in
  healthy cfg (disk (Raw.sys s')) /\ raw_mirrored cfg s' /\ all_defined s'
  /\ fst (startup cfg (Raw.sys s')) = raw_loaded_of s'.
Proof.
  intros Hh Hm Hdef Hlike s'.
  destruct (run_mirrors cfg events p Hh Hm Hdef Hlike) as (Hh' & Hm' & Hdef').
  fold s' in Hh', Hm', Hdef'. split_and!; try done.
  clearbody s'. destruct (all_defined_typed _ Hdef') as [t ->].
  apply mirrored_raw in Hm'. change (Raw.sys (raw_state t)) with (sys t) in *.
  rewrite (startup_loads cfg t Hh' Hm').
  unfold raw_loaded_of, loaded_of, raw_state. simpl. by rewrite likes_json_defined.
Qed.

Lemma restart_recovers_arrays_witness :
  let s' :=
    Raw.mem (snd (Raw.run Demo.cfg
                    (Scene.overlap
                     ++ [Raw.Store 1 2 "a.png" "PNG";
                         Raw.Arrive Demo.rt (Raw.POST_upload (Some "1-2.png") "ana" "d" "a.png");
                         Raw.Arrive Demo.rt (Raw.POST_likes "luis" (Some Scene.uploaded));
                         Raw.Arrive Demo.rt (Raw.DELETE_likes "luis" None)])
                    (Raw.mkProcess (raw_state Scene.started) []))) in
  raw_mirrored Demo.cfg s'
  /\ fst (startup Demo.cfg (Raw.sys s')) = raw_loaded_of s'
  /\ Raw.publicaciones s' = [Scene.uploaded].
Proof.
  intros s'.
  assert (Hh : healthy Demo.cfg (disk (sys Scene.started))).
  { unfold healthy, store_paths. apply (bool_decide_unpack _). by vm_compute. }
  assert (Hm : raw_mirrored Demo.cfg (raw_state Scene.started)) by (repeat split; reflexivity).
  destruct (restart_recovers_arrays Demo.cfg
              (Scene.overlap
               ++ [Raw.Store 1 2 "a.png" "PNG";
                   Raw.Arrive Demo.rt (Raw.POST_upload (Some "1-2.png") "ana" "d" "a.png");
                   Raw.Arrive Demo.rt (Raw.POST_likes "luis" (Some Scene.uploaded));
                   Raw.Arrive Demo.rt (Raw.DELETE_likes "luis" None)])
              (Raw.mkProcess (raw_state Scene.started) []) Hh Hm
              (raw_state_defined Scene.started))
    as (_ & Hm' & _ & Hload).
  { repeat constructor. simpl. eauto. }
  split_and!; [exact Hm'|exact Hload|reflexivity].
Defined.

(** One request leaves alone every file that is none of the three JSON
    files and that it does not name. *)
Lemma raw_handle_keeps_file (cfg : Config) (rt : Runtime) (req : Raw.Request)
    (s : Raw.State) (path : string) :
  path ∉ store_paths cfg ->
  touched_image cfg (Raw.Arrive rt req) <> Some path ->
  files (disk (Raw.sys (snd (Raw.handle cfg rt req s)))) !! path
  = files (disk (Raw.sys s)) !! path.
Proof.
  intros Hpath Hreq. pose proof Hpath as Hstore.
  unfold store_paths in Hpath. rewrite !not_elem_of_cons in Hpath.
  destruct Hpath as (Hu & Hp & Hl & _).
  destruct req; simpl; rewrite ?without_likes_state; cbn [Raw.sys]; try done.
  - by apply (handle_keeps_file cfg rt (POST_usuarios username password)).
  - by apply (handle_keeps_file cfg rt (POST_login username password)).
  - by apply (handle_keeps_file cfg rt (POST_upload file username description imageName)).
  - unfold Raw.delete_publicaciones.
    destruct publication as [publication|]; [|by destruct (Raw.publicaciones s)].
    destruct (list_find _ (Raw.publicaciones s)) as [[j first]|]; [|done].
    destruct (remove_image cfg publication (disk (Raw.sys s))) as [dk|e] eqn:Hrm; [|done].
    assert (Hdk : files dk !! path = files (disk (Raw.sys s)) !! path).
    { eapply remove_image_other; [done|]. intros E. apply Hreq. simpl. by rewrite E. }
    destruct (Raw.cascade publication (Raw.likes s)) as [likes' [e|]]; simpl; [done|].
    by rewrite !writeJsonFile_other.
  - unfold Raw.get_likes. by repeat case_match.
  - unfold Raw.post_likes. repeat case_match; simpl; try done; by apply writeJsonFile_other.
  - unfold Raw.delete_likes. repeat case_match; simpl; try done; by apply writeJsonFile_other.
Qed.

Lemma step_keeps_file (cfg : Config) (e : Raw.Event) (p : Raw.Process) (path : string) :
  path ∉ store_paths cfg ->
  touched_image cfg e <> Some path ->
  files (disk (Raw.sys (Raw.mem (snd (Raw.step cfg e p))))) !! path
  = files (disk (Raw.sys (Raw.mem p))) !! path.
Proof.
  intros Hpath He.
  destruct e as [rt req|rt i|now random originalname content].
  - pose proof (step_arrive cfg rt req p) as Hs.
    pose proof (raw_handle_keeps_file cfg rt req (Raw.mem p) path Hpath He) as Hk.
    destruct req; try (cbv beta iota in Hs; rewrite Hs; exact Hk).
    unfold Raw.step. by destruct (post_usuarios_start _ _ _).
  - unfold Raw.step. destruct (Raw.awaiting p !! i) as [[name pass]|]; [|done].
    pose proof (without_likes_state (post_usuarios_resume cfg rt name pass) (Raw.mem p))
      as Hs.
    destruct (Raw.without_likes _ _) as [a s']. cbn [snd Raw.mem] in Hs |- *. subst s'.
    cbn [Raw.sys]. unfold post_usuarios_resume.
    destruct (bcrypt_hash rt pass); simpl; [|done].
    apply writeJsonFile_other. intros ->. apply Hpath, store_paths_elem.
  - destruct (multer_store_frame cfg now random originalname content
                (disk (Raw.sys (Raw.mem p)))) as (_ & _ & _ & Hfiles).
    unfold Raw.step.
    destruct (Raw.multer_store _ _ _ _ _ _) as [d' [e|]]; cbn [snd Raw.mem Raw.sys disk fst] in *;
      apply Hfiles; intros ->; by apply He.
Qed.

(** The files the server leaves alone.  Whatever events follow one another,
    a path other than the three JSON files holds afterwards what it held
    before (or is absent as before), unless one of the events was a delete
    of a publication whose [imagePath] ends in the name of that path within
    the uploads directory, or the storing by multer of an image under that
    path.  In particular a stored image is removed only by a delete that
    names it, and is replaced only by an upload that multer gives the same
    name. *)
Theorem file_kept_unless_deleted (cfg : Config) (events : list Raw.Event)
    (p : Raw.Process) (path : string) :
  path ∉ store_paths cfg ->
  Forall (fun e => touched_image cfg e <> Some path) events ->
  files (disk (Raw.sys (Raw.mem (snd (Raw.run cfg events p))))) !! path
  = files (disk (Raw.sys (Raw.mem p))) !! path.
Proof.
  intros Hpath. revert p. induction events as [|e events IH]; intros p Hev; [done|].
  apply Forall_cons in Hev as [He Hev]. rewrite run_cons, IH by done.
  by apply step_keeps_file.
Qed.

Lemma file_kept_unless_deleted_witness :
  files (disk (Raw.sys (Raw.mem (snd (Raw.run Demo.cfg
           [Raw.Store 3 4 "b.png" "GIF";
            Raw.Arrive Demo.rt (Raw.POST_upload (Some "3-4.png") "luis" "e" "b.png");
            Raw.Arrive Demo.rt (Raw.POST_likes "ana" None);
            Raw.Arrive Demo.rt (Raw.DELETE_publicaciones "luis" (Some Demo.b_png))]
           (Raw.mkProcess (raw_state Scene.s_image) []))))))
    !! Demo.image_path
  = Some "PNG".
Proof.
  assert (Hp : Demo.image_path ∉ store_paths Demo.cfg).
  { unfold store_paths. apply (bool_decide_unpack _). by vm_compute. }
  rewrite (file_kept_unless_deleted Demo.cfg _ _ Demo.image_path Hp).
  - reflexivity.
  - repeat constructor; by vm_compute.
Defined.
